(** * kimi-go: the agent core, embedded and verified

    A shallow embedding of the parts of kimi-go that its specification makes
    checkable statements about:

    - [internal/llm/errors.go]      error taxonomy and retry classification
    - [internal/llm/retry.go]       exponential backoff and the retry executor
    - [internal/approval]           the approval manager
    - [internal/tools/tool.go]      tool registry, tool results, truncation
    - [internal/tools/shell.go]     the shell tool
    - [internal/soul/soul.go]       the turn loop
    - compaction of the LLM history, from section 4.9 of the specification

    Go [int], [int64] and [time.Duration] are modelled by [Z] (durations in
    nanoseconds), Go strings by [string] (a sequence of bytes), maps by
    [gmap], [float64] by the IEEE-754 binary64 format of [SpecFloat]. *)

From Stdlib Require Import ZArith List Lia Bool.
From Stdlib Require Import DecimalString.
From Stdlib Require Import Floats.SpecFloat.
From stdpp Require Import base option list strings gmap.

Local Open Scope Z_scope.

(** ** Formatting helpers of package [fmt] *)

Module Fmt.

(** [%d] applied to an integer. *)
Definition d (n : Z) : string := NilZero.string_of_int (Z.to_int n).

(** Go's [error] interface: anything with an [Error() string] method. *)
Class GoError (E : Type) := Error : E → string.

(** The error values the tools and the turn loop build and pass on: a
    message, and for [fmt.Errorf] with [%w] the error it wraps. *)
Inductive error :=
| errorString (msg : string)
| wrapError (msg : string) (cause : error).

Definition error_Error (e : error) : string :=
  match e with
  | errorString msg => msg
  | wrapError msg _ => msg
  end.

#[export] Instance error_GoError : GoError error := error_Error.

(** A Go result pair [(value, err)] with [err != nil]. *)
Definition failed {A : Type} (r : A + error) : bool :=
  match r with inr _ => true | inl _ => false end.

(** [fmt.Errorf(prefix + "%w", cause)] *)
Definition Errorf_w (prefix : string) (cause : error) : error :=
  wrapError (prefix +:+ error_Error cause) cause.

(** [strconv.Quote], which the verb [%q] applies to a string.  The escaping
    rules of the standard library (Unicode printability tables) are not
    reproduced; the development is parametric in the function. *)
Class Strconv := Quote : string → string.

(** A call either returns or panics. *)
Inductive Outcome (A : Type) :=
| Returns (a : A)
| Panics (msg : string).
Arguments Returns {A} a.
Arguments Panics {A} msg.

End Fmt.

(** ** internal/llm/errors.go *)

Module Errors.
Import Fmt.

(** [type APIError struct] *)
Record APIError := mkAPIError {
  StatusCode : Z;
  Message : string;
  RawBody : string;
}.

(** [func (e *APIError) Error() string] *)
Definition APIError_Error (e : APIError) : string :=
  if 0 <? StatusCode e
  then "API error (status " +:+ d (StatusCode e) +:+ "): " +:+ Message e
  else "API error: " +:+ Message e.

#[export] Instance APIError_GoError : GoError APIError := APIError_Error.

(** The [net/http] status constants named by [IsRetryable]. *)
Definition StatusTooManyRequests : Z := 429.
Definition StatusInternalServerError : Z := 500.
Definition StatusBadGateway : Z := 502.
Definition StatusServiceUnavailable : Z := 503.
Definition StatusGatewayTimeout : Z := 504.

(** [func (e *APIError) IsRetryable() bool]: a [switch] on the status code
    with one multi-valued [case] and a [default]. *)
Definition APIError_IsRetryable (e : APIError) : bool :=
  if (StatusCode e =? StatusTooManyRequests)
     || (StatusCode e =? StatusInternalServerError)
     || (StatusCode e =? StatusBadGateway)
     || (StatusCode e =? StatusServiceUnavailable)
     || (StatusCode e =? StatusGatewayTimeout)
  then true
  else false.

(** The [syscall.Errno] values that [isNetworkError] lists. *)
Inductive Errno :=
| ECONNREFUSED | ECONNRESET | ETIMEDOUT | EPIPE | ENETUNREACH | EHOSTUNREACH
| EOTHER (n : Z).

(** An error value of some other package, described by what the standard
    library lets [IsRetryableError] observe about it: whether it implements
    [net.Error] (and then what [Temporary()] and [Timeout()] answer), what
    [errors.As] finds for [syscall.Errno], and whether [errors.Is] matches
    [context.DeadlineExceeded]. *)
Record ForeignError := mkForeign {
  fe_message : string;
  fe_net : option (bool * bool);
  fe_errno : option Errno;
  fe_deadline : bool;
}.

(** The dynamic type of an [error] value reaching [IsRetryableError]. *)
Inductive dyn_error :=
| Nil
| EAPI (e : APIError)
| ENetwork (Op : string) (Err : ForeignError)
| ETimeout (Operation : string) (Duration : Z)
| EEmptyResponse (Msg : string)
| EForeign (f : ForeignError).

(** [func isNetworkError(err error) bool] *)
Definition isNetworkError (err : dyn_error) : bool :=
  match err with
  | Nil => false
  | EForeign f =>
      match fe_net f with
      | Some (temporary, timeout) => temporary || timeout
      | None =>
          match fe_errno f with
          | Some (ECONNREFUSED | ECONNRESET | ETIMEDOUT
                 | EPIPE | ENETUNREACH | EHOSTUNREACH) => true
          | _ => false
          end
      end
  | _ => false
  end.

(** [func isTimeoutError(err error) bool] *)
Definition isTimeoutError (err : dyn_error) : bool :=
  match err with
  | Nil => false
  | EForeign f =>
      match fe_net f with
      | Some (_, true) => true
      | _ => fe_deadline f
      end
  | _ => false
  end.

(** [func IsRetryableError(err error) bool]: the four error types of this
    package implement [RetryableError]; everything else falls through to the
    network and timeout checks. *)
Definition IsRetryableError (err : dyn_error) : bool :=
  match err with
  | Nil => false
  | EAPI e => APIError_IsRetryable e
  | ENetwork _ _ => true
  | ETimeout _ _ => true
  | EEmptyResponse _ => true
  | EForeign _ =>
      if isNetworkError err then true
      else if isTimeoutError err then true
      else false
  end.

End Errors.

(** ** [float64] as Go computes with it

    IEEE-754 binary64 through [SpecFloat] (53 bits of precision, round to
    nearest even), with the three library functions [ExponentialBackoff]
    needs: the conversions between [int64] and [float64], and [math.Pow]. *)

Module Float64.

Definition prec : Z := 53.
Definition emax : Z := 1024.
Definition float64 : Type := spec_float.

Definition MinInt64 : Z := - 2 ^ 63.
Definition MaxInt64 : Z := 2 ^ 63 - 1.

(** Two's-complement wrap-around of [int64] arithmetic. *)
Definition wrap64 (z : Z) : Z := (z + 2 ^ 63) mod 2 ^ 64 - 2 ^ 63.

(** [float64(i)] for an integer [i]. *)
Definition of_int (z : Z) : float64 := binary_normalize prec emax z 0 false.

Definition mul : float64 → float64 → float64 := SFmul prec emax.
Definition add : float64 → float64 → float64 := SFadd prec emax.
Definition div : float64 → float64 → float64 := SFdiv prec emax.
Definition one : float64 := of_int 1.
Definition half : float64 := SFldexp prec emax one (-1).
Definition zero : float64 := S754_zero false.

(** The integer part of a float (rounding toward zero), when it has one. *)
Definition trunc (f : float64) : option Z :=
  match f with
  | S754_zero _ => Some 0
  | S754_finite s m e =>
      let v := if 0 <=? e then Zpos m * 2 ^ e else Zpos m / 2 ^ (- e) in
      Some (if s then - v else v)
  | _ => None
  end.

(** The machine a Go program is compiled for.  The language leaves the
    conversion of a float that does not fit the integer type
    "implementation-dependent"; these are the two answers of the two main
    targets: the x86-64 conversion instruction returns the "integer
    indefinite" value [MinInt64] for every unrepresentable input, the ARM64
    one saturates (and maps NaN to 0). *)
Inductive Arch := amd64 | arm64.

Definition out_of_range (a : Arch) (f : float64) : Z :=
  match a with
  | amd64 => MinInt64
  | arm64 =>
      match f with
      | S754_nan => 0
      | S754_infinity true | S754_finite true _ _ => MinInt64
      | _ => MaxInt64
      end
  end.

(** [int64(f)], which is also [time.Duration(f)]. *)
Definition to_int64 (a : Arch) (f : float64) : Z :=
  match trunc f with
  | Some v => if (MinInt64 <=? v) && (v <=? MaxInt64) then v
              else out_of_range a f
  | None => out_of_range a f
  end.

(** [math.Frexp]: [f = frac * 2^exp] with [1/2 <= |frac| < 1]; zeros,
    infinities and NaN are returned with exponent 0. *)
Definition Frexp (f : float64) : float64 * Z :=
  match f with
  | S754_finite _ _ _ => SFfrexp prec emax f
  | _ => (f, 0)
  end.

(** [math.Ldexp]. *)
Definition Ldexp (frac : float64) (e : Z) : float64 := SFldexp prec emax frac e.

Definition is_zero (f : float64) : bool :=
  match f with S754_zero _ => true | _ => false end.
Definition is_nan (f : float64) : bool :=
  match f with S754_nan => true | _ => false end.
Definition signbit (f : float64) : bool :=
  match f with
  | S754_zero s | S754_infinity s | S754_finite s _ _ => s
  | S754_nan => false
  end.

(** The square-and-multiply loop of [math.Pow],
    [for i := int64(yi); i != 0; i >>= 1], on the binary digits of [i];
    the answer is kept as [a1 * 2^ae]. *)
Fixpoint pow_loop (i : positive) (a1 : float64) (ae : Z)
                  (x1 : float64) (xe : Z) : float64 * Z :=
  if (xe <? - 4096) || (4096 <? xe) then (a1, ae + xe)
  else
    let odd := match i with xO _ => false | _ => true end in
    let a1' := if odd then mul a1 x1 else a1 in
    let ae' := if odd then ae + xe else ae in
    let x2 := mul x1 x1 in
    let xe2 := Z.shiftl xe 1 in
    let small := SFltb x2 half in
    let x1' := if small then add x2 x2 else x2 in
    let xe' := if small then xe2 - 1 else xe2 in
    match i with
    | xH => (a1', ae')
    | xO p | xI p => pow_loop p a1' ae' x1' xe'
    end.

(** [math.Pow(x, float64(n))] for an integer [n]: the special cases in the
    order of the library, then the loop.  The exponent that reaches [Pow]
    from [ExponentialBackoff] is always the conversion of an [int], so the
    branches of [Pow] for a fractional or infinite exponent are never taken
    and are left out. *)
Definition Pow (x : float64) (n : Z) : float64 :=
  let y := of_int n in
  let yv := default 0 (trunc y) in
  let odd_int := (Z.abs yv <? 2 ^ 53) && Z.odd yv in
  if is_zero y || SFeqb x one then one
  else if SFeqb y one then x
  else if is_nan x then S754_nan
  else if is_zero x then
    if yv <? 0
    then (if signbit x && odd_int then S754_infinity true
          else S754_infinity false)
    else (if signbit x && odd_int then x else zero)
  else match x with
  | S754_infinity true =>
      (* Pow(1/x, -y) with 1/x = -0 *)
      if 0 <? yv
      then (if odd_int then S754_infinity true else S754_infinity false)
      else (if odd_int then S754_zero true else zero)
  | S754_infinity false =>
      if yv <? 0 then zero else S754_infinity false
  | _ =>
      let yi := Z.abs yv in
      if 2 ^ 63 <=? yi then
        if SFeqb x (of_int (-1)) then one
        else if Bool.eqb (SFltb (SFabs x) one) (0 <? yv) then zero
        else S754_infinity false
      else
        let '(x1, xe) := Frexp x in
        let '(a1, ae) := pow_loop (Z.to_pos yi) one 0 x1 xe in
        if yv <? 0 then Ldexp (div one a1) (- ae) else Ldexp a1 ae
  end.

End Float64.

(** ** internal/llm/retry.go *)

Module Retry.
Import Fmt Float64.

(** [type RetryConfig struct] *)
Record RetryConfig := mkRetryConfig {
  MaxRetries : Z;
  InitialWait : Z;
  MaxWait : Z;
  ExponentialBase : float64;
  Jitter : Z;
}.

Definition Millisecond : Z := 1000000.
Definition Second : Z := 1000 * Millisecond.

(** [func DefaultRetryConfig() *RetryConfig] *)
Definition DefaultRetryConfig : RetryConfig :=
  {| MaxRetries := 3;
     InitialWait := 300 * Millisecond;
     MaxWait := 5 * Second;
     ExponentialBase := of_int 2;
     Jitter := 500 * Millisecond |}.

(** [rand.Int63n(n)]: panics unless [n > 0], and otherwise returns a number
    of [[0, n)]; [raw] is the draw of the generator. *)
Definition Int63n (raw n : Z) : Outcome Z :=
  if n <=? 0 then Panics "invalid argument to Int63n"
  else Returns (raw mod n).

(** [func ExponentialBackoff(attempt, initialWait, maxWait, base, jitter)].
    [arch] fixes the float-to-integer conversion and [raw] the random draw
    used when [jitter > 0]. *)
Definition ExponentialBackoff (arch : Arch) (raw : Z)
    (attempt initialWait maxWait : Z) (base : float64) (jitter : Z)
  : Outcome Z :=
  let backoff := mul (of_int initialWait) (Pow base attempt) in
  let clamp (backoff : float64) : Z :=
    let wait := to_int64 arch backoff in
    let wait := if maxWait <? wait then maxWait else wait in
    let wait := if wait <? 0 then 0 else wait in
    wait in
  if 0 <? jitter then
    match Int63n raw (wrap64 (2 * jitter)) with
    | Panics msg => Panics msg
    | Returns r =>
        let jitterValue := wrap64 (r - jitter) in
        Returns (clamp (add backoff (of_int jitterValue)))
    end
  else Returns (clamp backoff).

(** [ctx.Err()] of a context whose [Done] channel is closed. *)
Inductive CtxErr := Canceled | DeadlineExceeded.

Section Executor.
(** [E] is the dynamic type of the errors the operation returns, [W] the
    state of everything outside the executor: the operation's own state,
    the clock, the context and the random generator. *)
Context {E W : Type} `{!GoError E}.

(** The surroundings of one [ExecuteWithRetry] call. *)
Record Env := mkEnv {
  arch : Arch;
  (** [select { case <-ctx.Done(): ... default: }] *)
  ctx_done : W → option CtxErr;
  (** [fn(ctx)]; [None] is a [nil] error *)
  fn : W → option E * W;
  (** [isRetryable], which may be [nil] *)
  isRetryable : option (E → bool);
  (** [onRetry], which may be [nil] *)
  onRetry : option (Z → E → Z → W → W);
  (** the draw of the random generator *)
  draw : W → Z * W;
  (** [select { case <-ctx.Done(): ...; case <-time.After(waitTime): }]:
      [Some c] when the context wins *)
  wait : Z → W → option CtxErr * W;
}.

(** What the executor was seen to do, in order. *)
Inductive Event :=
| CalledFn (attempt : Z) (err : option E)
| CalledOnRetry (attempt : Z) (err : E) (waitTime : Z)
| Waited (waitTime : Z).

(** The value [ExecuteWithRetry] returns (or its panic). *)
Inductive Result :=
| RNil
| RCtx (c : CtxErr)
| RErr (e : E)
| RMaxRetries (maxRetries : Z) (lastErr : option E)
| RPanic (msg : string).

(** [err.Error()] of the returned error, where the executor builds it:
    [fmt.Errorf("max retries (%d) exceeded: %w", config.MaxRetries, lastErr)]. *)
Definition Result_Error (r : Result) : option string :=
  match r with
  | RMaxRetries n (Some e) =>
      Some ("max retries (" +:+ d n +:+ ") exceeded: " +:+ Error e)
  | RMaxRetries n None =>
      Some ("max retries (" +:+ d n +:+ ") exceeded: %!w(<nil>)")
  | RErr e => Some (Error e)
  | RCtx Canceled => Some "context canceled"
  | RCtx DeadlineExceeded => Some "context deadline exceeded"
  | RNil | RPanic _ => None
  end.

Variable env : Env.
Variable config : RetryConfig.

(** The body of [for attempt := 0; attempt <= config.MaxRetries; attempt++].
    [iters] is the number of iterations the loop condition still admits
    from [attempt] on, [config.MaxRetries - attempt + 1]; the trace is kept
    newest first. *)
Fixpoint retry_loop (iters : nat) (attempt : Z) (lastErr : option E)
                    (w : W) (tr : list Event) : Result * W * list Event :=
  match iters with
  | O => (RMaxRetries (MaxRetries config) lastErr, w, tr)
  | S iters' =>
      match ctx_done env w with
      | Some c => (RCtx c, w, tr)
      | None =>
          let '(err, w) := fn env w in
          let tr := CalledFn attempt err :: tr in
          match err with
          | None => (RNil, w, tr)
          | Some e =>
              let lastErr := Some e in
              if match isRetryable env with
                 | Some p => negb (p e)
                 | None => false
                 end
              then (RErr e, w, tr)
              else if MaxRetries config <=? attempt
              then (RMaxRetries (MaxRetries config) lastErr, w, tr)
              else
                let '(raw, w) :=
                  if 0 <? Jitter config then draw env w else (0, w) in
                match ExponentialBackoff (arch env) raw attempt
                        (InitialWait config) (MaxWait config)
                        (ExponentialBase config) (Jitter config) with
                | Panics msg => (RPanic msg, w, tr)
                | Returns waitTime =>
                    let '(w, tr) :=
                      match onRetry env with
                      | Some cb =>
                          (cb (attempt + 1) e waitTime w,
                           CalledOnRetry (attempt + 1) e waitTime :: tr)
                      | None => (w, tr)
                      end in
                    let '(c, w) := wait env waitTime w in
                    let tr := Waited waitTime :: tr in
                    match c with
                    | Some c => (RCtx c, w, tr)
                    | None => retry_loop iters' (attempt + 1) lastErr w tr
                    end
                end
          end
      end
  end.

End Executor.

Arguments Env : clear implicits.
Arguments Event : clear implicits.
Arguments Result : clear implicits.

(** [func ExecuteWithRetry(ctx, config, fn, isRetryable, onRetry) error];
    a [nil] config stands for the default one.  Returns the result, the
    final outside state and the trace in the order of occurrence. *)
Definition ExecuteWithRetry {E W : Type} `{!GoError E}
    (env : Env E W) (config : option RetryConfig) (w : W)
  : Result E * W * list (Event E) :=
  let config := default DefaultRetryConfig config in
  let '(r, w, tr) :=
    retry_loop env config (Z.to_nat (MaxRetries config + 1)) 0 None w [] in
  (r, w, rev tr).

(** The attempts at which the operation was invoked. *)
Definition fn_calls {E} (tr : list (Event E)) : list (Z * option E) :=
  omap (λ ev, match ev with CalledFn a e => Some (a, e) | _ => None end) tr.

(** The attempt numbers passed to [onRetry]. *)
Definition on_retry_attempts {E} (tr : list (Event E)) : list Z :=
  omap (λ ev, match ev with CalledOnRetry a _ _ => Some a | _ => None end) tr.

(** An error the executor retries after: [isRetryable] is [nil] or accepts
    it. *)
Definition retryable {E W} (env : Env E W) (e : E) : Prop :=
  match isRetryable env with Some p => p e = true | None => True end.

(** [a, a+1, ..., a+k-1] *)
Definition count_from (a : Z) (k : nat) : list Z :=
  (λ i, a + Z.of_nat i) <$> seq 0 k.

End Retry.

(** ** internal/approval/approval.go *)

Module Approval.

(** [type Level int] with its three [iota] constants. *)
Inductive Level := LevelPerRequest | LevelSession | LevelYOLO.

(** [type Manager struct]; the mutex guards a state that this sequential
    model passes explicitly. *)
Record Manager := mkManager {
  level : Level;
  sessionApproved : gmap string bool;
  dangerousTools : gmap string bool;
}.

(** Reading a Go [map[string]bool] at a missing key gives [false]. *)
Definition index (m : gmap string bool) (k : string) : bool :=
  default false (m !! k).

(** [func NewManager(yolo bool) *Manager] *)
Definition NewManager (yolo : bool) : Manager :=
  {| level := if yolo then LevelYOLO else LevelPerRequest;
     sessionApproved := ∅;
     dangerousTools := <["shell" := true]> (<["file" := false]> ∅) |}.

Definition GetLevel (m : Manager) : Level := level m.

Definition SetLevel (m : Manager) (l : Level) : Manager :=
  {| level := l;
     sessionApproved := sessionApproved m;
     dangerousTools := dangerousTools m |}.

(** [func (m *Manager) IsApproved(toolName string) bool] *)
Definition IsApproved (m : Manager) (toolName : string) : bool :=
  match level m with
  | LevelYOLO => true
  | LevelSession => index (sessionApproved m) toolName
  | LevelPerRequest => false
  end.

(** [func (m *Manager) ApproveOnce(toolName string)]: the body is empty
    ("No state change needed for single approval"). *)
Definition ApproveOnce (m : Manager) (toolName : string) : Manager := m.

Definition ApproveForSession (m : Manager) (toolName : string) : Manager :=
  {| level := level m;
     sessionApproved := <[toolName := true]> (sessionApproved m);
     dangerousTools := dangerousTools m |}.

Definition RevokeSessionApproval (m : Manager) (toolName : string) : Manager :=
  {| level := level m;
     sessionApproved := delete toolName (sessionApproved m);
     dangerousTools := dangerousTools m |}.

Definition IsSessionApproved (m : Manager) (toolName : string) : bool :=
  index (sessionApproved m) toolName.

Definition IsDangerous (m : Manager) (toolName : string) : bool :=
  index (dangerousTools m) toolName.

Definition SetDangerous (m : Manager) (toolName : string) (dangerous : bool)
  : Manager :=
  {| level := level m;
     sessionApproved := sessionApproved m;
     dangerousTools := <[toolName := dangerous]> (dangerousTools m) |}.

(** [func (m *Manager) GetSessionApprovedTools() []string]: the keys of
    [sessionApproved].  Go ranges over a map in an unspecified order; the
    model lists the keys in the order of [map_to_list]. *)
Definition GetSessionApprovedTools (m : Manager) : list string :=
  (map_to_list (sessionApproved m)).*1.

Definition ClearSessionApprovals (m : Manager) : Manager :=
  {| level := level m;
     sessionApproved := ∅;
     dangerousTools := dangerousTools m |}.

(** [type ApprovalRequest struct] and its constructor. *)
Record ApprovalRequest := mkApprovalRequest {
  ToolCallID : string;
  ToolName : string;
  Arguments : string;
  req_IsDangerous : bool;
}.

Definition NewApprovalRequest (m : Manager) (callID toolName args : string)
  : ApprovalRequest :=
  {| ToolCallID := callID; ToolName := toolName; Arguments := args;
     req_IsDangerous := IsDangerous m toolName |}.

End Approval.

(** ** internal/tools/tool.go *)

Module Tools.
Import Fmt.

(** [len(s)] *)
Definition len (s : string) : Z := Z.of_nat (String.length s).

(** [s[lo:hi]] for [0 <= lo <= hi <= len(s)] *)
Definition slice (s : string) (lo hi : Z) : string :=
  String.substring (Z.to_nat lo) (Z.to_nat (hi - lo)) s.

Definition newline : Ascii.ascii := Ascii.ascii_of_nat 10.

(** The literal ["\n... (output truncated)"]. *)
Definition trailer : string :=
  String newline "... (output truncated)".

(** [type ToolCall struct] *)
Record ToolCall := mkToolCall {
  ID : string;
  Name : string;
  Arguments : string;
}.

(** [type ToolResult struct] *)
Record ToolResult := mkToolResult {
  CallID : string;
  Success : bool;
  Result : string;
  Error : string;
}.

Definition MaxToolOutputTotalChars : Z := 50000.
Definition MaxToolOutputLineChars : Z := 2000.

(** The variables of the loop of [truncateText]. *)
Record Acc := mkAcc {
  result : string;
  totalLen : Z;
  lineStart : Z;
  truncated : bool;
}.

(** What one pass through the [if i == len(text) || text[i] == '\n'] block
    does at index [i]: [inl] when it leaves the loop by [break], [inr] when
    the loop goes on. *)
Definition line_end (text : string) (maxTotal maxLine : Z) (i : Z) (a : Acc)
  : Outcome (Acc + Acc) :=
  let line := slice text (lineStart a) i in
  let lineEnd := if i <? len text then i + 1 else i in
  let lineLen := len line in
  let over := maxLine <? lineLen in
  let lineLen := if over then maxLine else lineLen in
  let truncated := if over then true else truncated a in
  if maxTotal <? totalLen a + lineLen then
    let remaining := maxTotal - totalLen a in
    let cut := 0 <? remaining in
    Returns (inl {| result := if cut then result a +:+ slice line 0 remaining
                              else result a;
                    totalLen := if cut then totalLen a + remaining
                                else totalLen a;
                    lineStart := lineStart a;
                    truncated := true |})
  else if (maxLine <? len line) && (maxLine <? 0) then
    Panics "slice bounds out of range"
  else
    let result :=
      if maxLine <? len line
      then (result a +:+ slice line 0 maxLine)
             +:+ (if i <? len text then String newline "" else "")
      else result a +:+ slice text (lineStart a) lineEnd in
    let totalLen := totalLen a + lineLen in
    let totalLen :=
      if (i <? len text) && (len line <=? maxLine) then totalLen + 1
      else totalLen in
    Returns (inr {| result := result; totalLen := totalLen;
                    lineStart := i + 1; truncated := truncated |}).

(** [for i := 0; i <= len(text); i++]: [rest] is the part of the text from
    [i] on, so that [text[i]] is its first byte and [i == len(text)] when it
    is empty. *)
Fixpoint truncate_loop (text : string) (maxTotal maxLine : Z)
    (rest : string) (i : Z) (a : Acc) : Outcome Acc :=
  match rest with
  | EmptyString =>
      match line_end text maxTotal maxLine i a with
      | Panics msg => Panics msg
      | Returns (inl a') | Returns (inr a') => Returns a'
      end
  | String c rest' =>
      if Ascii.eqb c newline then
        match line_end text maxTotal maxLine i a with
        | Panics msg => Panics msg
        | Returns (inl a') => Returns a'
        | Returns (inr a') =>
            truncate_loop text maxTotal maxLine rest' (i + 1) a'
        end
      else truncate_loop text maxTotal maxLine rest' (i + 1) a
  end.

(** [func truncateText(text string, maxTotal, maxLine int) string] *)
Definition truncateText (text : string) (maxTotal maxLine : Z)
  : Outcome string :=
  if (len text <=? maxTotal) && (maxLine <=? 0) then Returns text
  else
    match truncate_loop text maxTotal maxLine text 0
            {| result := ""; totalLen := 0; lineStart := 0;
               truncated := false |} with
    | Panics msg => Panics msg
    | Returns a =>
        Returns (if truncated a then result a +:+ trailer else result a)
    end.

(** [func (tr *ToolResult) TruncateForLLM() *ToolResult]; [None] is the
    [nil] pointer. *)
Definition TruncateForLLM (tr : option ToolResult)
  : Outcome (option ToolResult) :=
  match tr with
  | None => Returns None
  | Some tr =>
      match (if 0 <? len (Result tr)
             then truncateText (Result tr) MaxToolOutputTotalChars
                    MaxToolOutputLineChars
             else Returns (Result tr)) with
      | Panics msg => Panics msg
      | Returns res =>
          match (if MaxToolOutputTotalChars <? len (Error tr)
                 then truncateText (Error tr) MaxToolOutputTotalChars
                        MaxToolOutputLineChars
                 else Returns (Error tr)) with
          | Panics msg => Panics msg
          | Returns err =>
              Returns (Some {| CallID := CallID tr; Success := Success tr;
                               Result := res; Error := err |})
          end
      end
  end.

(** The lines of a text: the pieces between newline bytes ([cur] is the
    line read so far). *)
Fixpoint lines_from (cur : string) (s : string) : list string :=
  match s with
  | EmptyString => [cur]
  | String c s' =>
      if Ascii.eqb c newline then cur :: lines_from "" s'
      else lines_from (cur +:+ String c "") s'
  end.
Definition lines (s : string) : list string := lines_from "" s.

(** [strings.Repeat] of a single byte, and the text of test-sized inputs. *)
Fixpoint repeat_byte (c : Ascii.ascii) (n : nat) : string :=
  match n with
  | O => ""
  | S n' => String c (repeat_byte c n')
  end.

Fixpoint repeat_string (s : string) (n : nat) : string :=
  match n with
  | O => ""
  | S n' => s +:+ repeat_string s n'
  end.

(** The length of what a call returned, and whether it ends with the
    trailer. *)
Definition returned_len (o : Outcome string) : option Z :=
  match o with
  | Returns s => Some (len s)
  | Panics _ => None
  end.

Definition ends_with_trailer (o : Outcome string) : bool :=
  match o with
  | Returns s =>
      String.eqb (slice s (len s - len trailer) (len s)) trailer
  | Panics _ => false
  end.

Definition byte_x : Ascii.ascii := Ascii.ascii_of_nat 120.

(** Twenty-four lines of 1999 bytes, one line of 2000 bytes, and a last
    line of one byte: 50002 bytes in all, no line above the line limit. *)
Definition text_50002 : string :=
  repeat_string (repeat_byte byte_x 1999 +:+ String newline "") 24
  +:+ repeat_byte byte_x 2000 +:+ String newline "" +:+ "y".

End Tools.

(** ** internal/tools/shell.go *)

Module Shell.
Import Fmt Float64 Retry.

(** [type ShellTool struct] *)
Record ShellTool := mkShellTool {
  workDir : string;
  timeout : Z;
}.

(** [type ShellToolParams struct].  The command is kept as the sequence of
    Unicode code points that [json.Unmarshal] decoded (it only ever produces
    valid UTF-8). *)
Record ShellToolParams := mkShellToolParams {
  Command : list Z;
  Timeout : Z;
}.

(** [type ShellToolResult struct] *)
Record ShellToolResult := mkShellToolResult {
  Success : bool;
  Stdout : string;
  Stderr : string;
  ExitCode : Z;
  Error : string;
}.

(** [func NewShellTool(workDir string, timeout time.Duration) *ShellTool] *)
Definition NewShellTool (workDir : string) (timeout : Z) : ShellTool :=
  {| workDir := workDir;
     timeout := if timeout =? 0 then 60 * Second else timeout |}.

(** [unicode.IsSpace] *)
Definition IsSpace (r : Z) : bool :=
  (r =? 9) || (r =? 10) || (r =? 11) || (r =? 12) || (r =? 13) || (r =? 32)
  || (r =? 133) || (r =? 160) || (r =? 5760)
  || ((8192 <=? r) && (r <=? 8202))
  || (r =? 8232) || (r =? 8233) || (r =? 8239) || (r =? 8287) || (r =? 12288).

(** [strings.TrimSpace(s) == ""]: nothing but white space. *)
Definition blank (s : list Z) : bool := forallb IsSpace s.

(** The error [cmd.CombinedOutput()] returns: [nil], an [*exec.ExitError]
    with the exit code and its [Stderr] field, or any other error. *)
Inductive RunError :=
| RunOk
| ExitError (code : Z) (stderr : string)
| OtherError (msg : string).

(** What running the command gave: the combined output, the error, and
    what [execCtx.Err()] says afterwards. *)
Record Run := mkRun {
  output : string;
  run_err : RunError;
  ctx_err : option CtxErr;
}.

(** The operating system and the JSON decoder, as [Execute] uses them. *)
Record OS (W : Type) := mkOS {
  (** [json.Unmarshal(args, &params)] *)
  Unmarshal : string → error + ShellToolParams;
  (** [exec.CommandContext(execCtx, "sh", "-c", command)] run in a
      directory with a deadline, up to [CombinedOutput] returning *)
  CombinedOutput : string → list Z → Z → W → Run * W;
}.
Arguments Unmarshal {W} _ _.
Arguments CombinedOutput {W} _ _ _ _ _.

(** [func (t *ShellTool) Execute(ctx, args) (any, error)] *)
Definition Execute {W} (os : OS W) (t : ShellTool) (args : string) (w : W)
  : (ShellToolResult + error) * W :=
  match Unmarshal os args with
  | inl err => (inr (Errorf_w "invalid parameters: " err), w)
  | inr params =>
      if blank (Command params)
      then (inr (errorString "command cannot be empty"), w)
      else
        let timeout :=
          if 0 <? Timeout params then wrap64 (Timeout params * Second)
          else timeout t in
        let '(run, w) :=
          CombinedOutput os (workDir t) (Command params) timeout w in
        let result :=
          {| Success := match run_err run with RunOk => true | _ => false end;
             Stdout := output run; Stderr := ""; ExitCode := 0;
             Error := "" |} in
        let result :=
          match run_err run with
          | RunOk => result
          | ExitError code stderr =>
              {| Success := Success result; Stdout := Stdout result;
                 Stderr := stderr; ExitCode := code;
                 Error := Error result |}
          | OtherError msg =>
              match ctx_err run with
              | Some DeadlineExceeded =>
                  {| Success := Success result; Stdout := Stdout result;
                     Stderr := Stderr result; ExitCode := -1;
                     Error := "command timed out" |}
              | _ =>
                  {| Success := Success result; Stdout := Stdout result;
                     Stderr := Stderr result; ExitCode := ExitCode result;
                     Error := msg |}
              end
          end in
        (inl result, w)
  end.

End Shell.

(** ** internal/tools/tool.go: the registry *)

Module ToolSet.
Import Fmt.

(** [type Tool interface].  [Execute] acts on the outside world [W]; the
    value it returns is represented by the text [json.Marshal] renders it
    to, which is all the turn loop does with it. *)
Record Tool (W : Type) := mkTool {
  Name : string;
  Description : string;
  Parameters : string;
  Execute : string → W → (string + error) * W;
}.
Arguments Name {W} _.
Arguments Description {W} _.
Arguments Parameters {W} _.
Arguments Execute {W} _ _ _.

(** [type ToolInfo struct] *)
Record ToolInfo := mkToolInfo {
  info_Name : string;
  info_Description : string;
  info_Parameters : string;
}.

Section Registry.
Context {W : Type} `{!Strconv}.

(** [func NewToolSet() *ToolSet] *)
Definition NewToolSet : gmap string (Tool W) := ∅.

(** [func (ts *ToolSet) Register(tool Tool) error]: the new registry and
    the error. *)
Definition Register (ts : gmap string (Tool W)) (tool : Tool W)
  : gmap string (Tool W) * option error :=
  match ts !! Name tool with
  | Some _ =>
      (ts, Some (errorString
                   ("tool " +:+ Quote (Name tool) +:+ " already registered")))
  | None => (<[Name tool := tool]> ts, None)
  end.

(** [func (ts *ToolSet) Get(name string) (Tool, error)] *)
Definition Get (ts : gmap string (Tool W)) (name : string)
  : Tool W + error :=
  match ts !! name with
  | Some tool => inl tool
  | None => inr (errorString ("tool " +:+ Quote name +:+ " not found"))
  end.

(** [func (ts *ToolSet) List() []Tool], in the order of [map_to_list]
    (Go's order is unspecified). *)
Definition List (ts : gmap string (Tool W)) : list (Tool W) :=
  (map_to_list ts).*2.

(** [func (ts *ToolSet) GetToolInfo() []ToolInfo] *)
Definition GetToolInfo (ts : gmap string (Tool W)) : list ToolInfo :=
  (λ tool, {| info_Name := Name tool;
              info_Description := Description tool;
              info_Parameters := Parameters tool |}) <$> List ts.

End Registry.
End ToolSet.

(** ** internal/llm/client.go: the message types *)

Module LLM.

Record FunctionDef := mkFunctionDef {
  fd_Name : string;
  fd_Description : string;
  fd_Parameters : string;
}.

Record ToolDef := mkToolDef {
  td_Type : string;
  td_Function : FunctionDef;
}.

Record FunctionCall := mkFunctionCall {
  fc_Name : string;
  fc_Arguments : string;
}.

Record ToolCallInfo := mkToolCallInfo {
  tc_ID : string;
  tc_Type : string;
  tc_Function : FunctionCall;
}.

Record Message := mkMessage {
  Role : string;
  Content : string;
  ToolCalls : list ToolCallInfo;
  ToolCallID : string;
}.

Record Choice := mkChoice {
  Index : Z;
  choice_Message : Message;
  Delta : Message;
  FinishReason : string;
}.

Record Usage := mkUsage {
  PromptTokens : Z;
  CompletionTokens : Z;
  TotalTokens : Z;
}.

Record ChatResponse := mkChatResponse {
  resp_ID : string;
  Object : string;
  Created : Z;
  Model : string;
  Choices : list Choice;
  resp_Usage : Usage;
}.

End LLM.

(** ** internal/wire: the messages the turn loop builds *)

Module Wire.

Inductive MessageType :=
| MessageTypeUserInput | MessageTypeCancel | MessageTypeAssistant
| MessageTypeToolCall | MessageTypeToolResult | MessageTypeError
| MessageTypeSystem | MessageTypeCheckpoint | MessageTypeClear
| MessageTypeStatus | MessageTypeProgress | MessageTypeDone.

(** The two fields of a content part that the turn loop reads and writes. *)
Record ContentPart := mkContentPart {
  part_Type : string;
  Text : string;
}.

(** The fields of a wire message that the turn loop sets. *)
Record Message := mkMessage {
  Type_ : MessageType;
  Content : list ContentPart;
  Timestamp : Z;
}.

End Wire.

(** ** internal/soul/context.go and internal/soul/soul.go *)

Module Soul.
Import Fmt.

(** [type Context struct] *)
Record Context := mkContext {
  messages : list Wire.Message;
  filePath : string;
  modified : bool;
}.

(** [func NewContext(filePath string) *Context] *)
Definition NewContext (filePath : string) : Context :=
  {| messages := []; filePath := filePath; modified := false |}.

(** [func (c *Context) AddMessage(msg wire.Message)] *)
Definition AddMessage (msg : Wire.Message) (c : Context) : Context :=
  {| messages := messages c ++ [msg]; filePath := filePath c;
     modified := true |}.

(** [type Agent struct] (its [Runtime] pointer is the [runtime] field of
    the soul). *)
Record Agent := mkAgent {
  agent_Name : string;
  SystemPrompt : string;
  agent_Tools : list string;
}.

(** What the turn was seen to do: the calls that leave the soul.
    [ApprovalNeeded] is the event the specification names
    [OnApprovalNeeded]. *)
Inductive Event :=
| ChatCalled (messages : list LLM.Message) (tools : list LLM.ToolDef)
| ToolCallEmitted (tc : Tools.ToolCall)
| MessageEmitted (m : Wire.Message)
| ToolExecuted (name args : string)
| ToolResultEmitted (r : Tools.ToolResult)
| ApprovalNeeded (req : Approval.ApprovalRequest)
| ContextSaved (path : string).

Definition is_chat (ev : Event) : bool :=
  match ev with ChatCalled _ _ => true | _ => false end.

Definition is_approval (ev : Event) : bool :=
  match ev with ApprovalNeeded _ => true | _ => false end.

(** The number of [ChatWithTools] calls in a trace. *)
Definition chat_calls (tr : list Event) : nat := length (filter is_chat tr).

(** The result the specification has a denied call produce. *)
Definition denied (callID : string) : Tools.ToolResult :=
  {| Tools.CallID := callID; Tools.Success := false; Tools.Result := "";
     Tools.Error := "denied by user" |}.

Section Turn.
Context {W : Type} `{!Strconv}.

(** [type LLMClient interface] *)
Record LLMClient := mkLLMClient {
  Chat : list LLM.Message → W → (LLM.ChatResponse + error) * W;
  ChatWithTools : list LLM.Message → list LLM.ToolDef → W
                  → (LLM.ChatResponse + error) * W;
}.

(** [type Runtime struct] (the untyped [Config] map is not read by the
    turn loop). *)
Record Runtime := mkRuntime {
  WorkDir : string;
  Tools : gmap string (ToolSet.Tool W);
  runtime_LLMClient : option LLMClient;
  YOLO : bool;
  MaxSteps : Z;
  MaxRetries : Z;
}.

(** [func NewRuntime(workDir string, yolo bool) *Runtime] *)
Definition NewRuntime (workDir : string) (yolo : bool) : Runtime :=
  {| WorkDir := workDir; Tools := ToolSet.NewToolSet;
     runtime_LLMClient := None; YOLO := yolo; MaxSteps := 100;
     MaxRetries := 3 |}.

(** The clock and the file system. *)
Record Outside := mkOutside {
  Now : W → Z;
  WriteFile : string → list Wire.Message → W → option error * W;
}.

(** The fields of [type Soul struct] that stay fixed during a turn; a
    handler that is [nil] is [None]. *)
Record Soul := mkSoul {
  agent : Agent;
  runtime : Runtime;
  outside : Outside;
  OnMessage : option (Wire.Message → W → W);
  OnToolCall : option (Tools.ToolCall → W → W);
  OnToolResult : option (Tools.ToolResult → W → W);
  OnError : option (error → W → W);
}.

(** The fields a turn changes, the outside world, and the trace (newest
    event first). *)
Record State := mkState {
  context : Context;
  llmHistory : list LLM.Message;
  world : W;
  trace : list Event;
}.

Definition set_context (c : Context) (st : State) : State :=
  {| context := c; llmHistory := llmHistory st; world := world st;
     trace := trace st |}.

Definition append_history (m : LLM.Message) (st : State) : State :=
  {| context := context st; llmHistory := llmHistory st ++ [m];
     world := world st; trace := trace st |}.

(** An outside call: the world moves on and the event is recorded. *)
Definition record (ev : Event) (w : W) (st : State) : State :=
  {| context := context st; llmHistory := llmHistory st; world := w;
     trace := ev :: trace st |}.

(** [s.Context.AddMessage(msg)] *)
Definition add_message (msg : Wire.Message) (st : State) : State :=
  set_context (AddMessage msg (context st)) st.

(** [if s.OnMessage != nil { s.OnMessage(msg) }] *)
Definition on_message (s : Soul) (msg : Wire.Message) (st : State) : State :=
  match OnMessage s with
  | Some h => record (MessageEmitted msg) (h msg (world st)) st
  | None => st
  end.

Definition on_tool_call (s : Soul) (tc : Tools.ToolCall) (st : State)
  : State :=
  match OnToolCall s with
  | Some h => record (ToolCallEmitted tc) (h tc (world st)) st
  | None => st
  end.

Definition on_tool_result (s : Soul) (r : Tools.ToolResult) (st : State)
  : State :=
  match OnToolResult s with
  | Some h => record (ToolResultEmitted r) (h r (world st)) st
  | None => st
  end.

(** [func (c *Context) Save() error], with the error dropped as the turn
    loop does ([_ = s.Context.Save()]). *)
Definition save (s : Soul) (st : State) : State :=
  if modified (context st) then
    let '(err, w) :=
      WriteFile (outside s) (filePath (context st))
        (messages (context st)) (world st) in
    let st := record (ContextSaved (filePath (context st))) w st in
    match err with
    | Some _ => st
    | None =>
        set_context {| messages := messages (context st);
                       filePath := filePath (context st);
                       modified := false |} st
    end
  else st.

(** A wire message with one text part, stamped [time.Now()]. *)
Definition text_message (s : Soul) (ty : Wire.MessageType) (text : string)
    (st : State) : Wire.Message :=
  {| Wire.Type_ := ty;
     Wire.Content := [{| Wire.part_Type := "text"; Wire.Text := text |}];
     Wire.Timestamp := Now (outside s) (world st) |}.

(** [func extractText(msg wire.Message) string] *)
Fixpoint extractText_parts (parts : list Wire.ContentPart) : string :=
  match parts with
  | [] => ""
  | part :: rest =>
      if String.eqb (Wire.part_Type part) "text" then Wire.Text part
      else extractText_parts rest
  end.

Definition extractText (msg : Wire.Message) : string :=
  extractText_parts (Wire.Content msg).

(** [func (s *Soul) buildLLMMessages() []llm.Message] *)
Definition buildLLMMessages (s : Soul) (st : State) : list LLM.Message :=
  (if String.eqb (SystemPrompt (agent s)) "" then []
   else [{| LLM.Role := "system"; LLM.Content := SystemPrompt (agent s);
            LLM.ToolCalls := []; LLM.ToolCallID := "" |}])
  ++ llmHistory st.

(** [func (s *Soul) buildToolDefs() []llm.ToolDef] *)
Definition buildToolDefs (s : Soul) : list LLM.ToolDef :=
  (λ info,
     {| LLM.td_Type := "function";
        LLM.td_Function :=
          {| LLM.fd_Name := ToolSet.info_Name info;
             LLM.fd_Description := ToolSet.info_Description info;
             LLM.fd_Parameters := ToolSet.info_Parameters info |} |})
  <$> ToolSet.GetToolInfo (Tools (runtime s)).

(** [func (s *Soul) executeToolCall(ctx, call)], which returns a
    [ToolResult] pointer and an [error]:
    the result, the Go error ([None] is [nil]) and the state after. *)
Definition executeToolCall (s : Soul) (call : Tools.ToolCall) (st : State)
  : Tools.ToolResult * option error * State :=
  match ToolSet.Get (Tools (runtime s)) (Tools.Name call) with
  | inr err =>
      ({| Tools.CallID := Tools.ID call; Tools.Success := false;
          Tools.Result := ""; Tools.Error := Error err |}, None, st)
  | inl tool =>
      let '(result, w) :=
        ToolSet.Execute tool (Tools.Arguments call) (world st) in
      let st :=
        record (ToolExecuted (Tools.Name call) (Tools.Arguments call)) w st in
      match result with
      | inr err =>
          ({| Tools.CallID := Tools.ID call; Tools.Success := false;
              Tools.Result := ""; Tools.Error := Error err |}, None, st)
      | inl resultJSON =>
          ({| Tools.CallID := Tools.ID call; Tools.Success := true;
              Tools.Result := resultJSON; Tools.Error := "" |}, None, st)
      end
  end.

(** The body of [for _, tc := range assistantMsg.ToolCalls]: [Some err]
    when it leaves [processWithLLM] with ["tool execution error"]. *)
Definition call_tool (s : Soul) (tc : LLM.ToolCallInfo)
    (messages : list LLM.Message) (st : State)
  : option error * list LLM.Message * State :=
  let toolCall :=
    {| Tools.ID := LLM.tc_ID tc;
       Tools.Name := LLM.fc_Name (LLM.tc_Function tc);
       Tools.Arguments := LLM.fc_Arguments (LLM.tc_Function tc) |} in
  let st := on_tool_call s toolCall st in
  let tcMsg :=
    text_message s Wire.MessageTypeToolCall
      ("Calling tool: " +:+ LLM.fc_Name (LLM.tc_Function tc) +:+ "("
       +:+ LLM.fc_Arguments (LLM.tc_Function tc) +:+ ")") st in
  let st := on_message s tcMsg (add_message tcMsg st) in
  let '(result, execErr, st) := executeToolCall s toolCall st in
  match execErr with
  | Some err => (Some (Errorf_w "tool execution error: " err), messages, st)
  | None =>
      let st := on_tool_result s result st in
      let resultText :=
        if Tools.Success result then Tools.Result result
        else "Error: " +:+ Tools.Error result in
      let toolResultMsg :=
        {| LLM.Role := "tool"; LLM.Content := resultText;
           LLM.ToolCalls := []; LLM.ToolCallID := LLM.tc_ID tc |} in
      let st := append_history toolResultMsg st in
      let messages := messages ++ [toolResultMsg] in
      let trMsg := text_message s Wire.MessageTypeToolResult resultText st in
      let st := on_message s trMsg (add_message trMsg st) in
      (None, messages, st)
  end.

Fixpoint call_tools (s : Soul) (tcs : list LLM.ToolCallInfo)
    (messages : list LLM.Message) (st : State)
  : option error * list LLM.Message * State :=
  match tcs with
  | [] => (None, messages, st)
  | tc :: rest =>
      match call_tool s tc messages st with
      | (Some err, messages, st) => (Some err, messages, st)
      | (None, messages, st) => call_tools s rest messages st
      end
  end.

(** [for step := 0; step < s.runtime.MaxSteps; step++]; [steps] is the
    number of iterations the loop condition still admits. *)
Fixpoint agent_loop (s : Soul) (client : LLMClient)
    (toolDefs : list LLM.ToolDef) (steps : nat)
    (messages : list LLM.Message) (st : State) : option error * State :=
  match steps with
  | O =>
      (Some (errorString ("agent loop exceeded maximum steps ("
                          +:+ d (MaxSteps (runtime s)) +:+ ")")), st)
  | S steps' =>
      let '(resp, w) := ChatWithTools client messages toolDefs (world st) in
      let st := record (ChatCalled messages toolDefs) w st in
      match resp with
      | inr err => (Some (Errorf_w "LLM request failed: " err), st)
      | inl resp =>
          match LLM.Choices resp with
          | [] => (Some (errorString "LLM returned no choices"), st)
          | choice :: _ =>
              let assistantMsg := LLM.choice_Message choice in
              let st := append_history assistantMsg st in
              let messages := messages ++ [assistantMsg] in
              match LLM.ToolCalls assistantMsg with
              | _ :: _ =>
                  match call_tools s (LLM.ToolCalls assistantMsg)
                          messages st with
                  | (Some err, _, st) => (Some err, st)
                  | (None, messages, st) =>
                      agent_loop s client toolDefs steps' messages st
                  end
              | [] =>
                  let responseText :=
                    if String.eqb (LLM.Content assistantMsg) ""
                    then "(empty response)"
                    else LLM.Content assistantMsg in
                  let response :=
                    text_message s Wire.MessageTypeAssistant responseText st in
                  let st := on_message s response (add_message response st) in
                  (None, save s st)
              end
          end
      end
  end.

(** [func (s *Soul) processWithLLM(ctx, userMsg wire.Message) error] *)
Definition processWithLLM (s : Soul) (userMsg : Wire.Message) (st : State)
  : option error * State :=
  match runtime_LLMClient (runtime s) with
  | None =>
      let response :=
        text_message s Wire.MessageTypeAssistant
          "LLM client is not configured. Please set OPENAI_BASE_URL, OPENAI_API_KEY, and OPENAI_MODEL environment variables."
          st in
      (None, on_message s response (add_message response st))
  | Some client =>
      let userText := extractText userMsg in
      let st :=
        append_history {| LLM.Role := "user"; LLM.Content := userText;
                          LLM.ToolCalls := []; LLM.ToolCallID := "" |} st in
      let messages := buildLLMMessages s st in
      let toolDefs := buildToolDefs s in
      agent_loop s client toolDefs (Z.to_nat (MaxSteps (runtime s)))
        messages st
  end.

(** [func (s *Soul) handleUserInput(ctx, msg wire.Message) error] *)
Definition handleUserInput (s : Soul) (msg : Wire.Message) (st : State)
  : option error * State :=
  processWithLLM s msg (add_message msg st).

(** An event of a tool round: neither a chat call nor an approval
    request. *)
Definition tool_round (ev : Event) : Prop :=
  is_chat ev = false ∧ is_approval ev = false.

(** [st'] has the trace of [st] plus newer events that satisfy [P]. *)
Definition adds (P : Event → Prop) (st st' : State) : Prop :=
  ∃ new, trace st' = new ++ trace st ∧ Forall P new.

(** A client every response of which asks for at least one tool call. *)
Definition always_tool_calls (client : LLMClient) : Prop :=
  ∀ messages tools w, ∃ resp w' choice rest tc tcs,
    ChatWithTools client messages tools w = (inl resp, w')
    ∧ LLM.Choices resp = choice :: rest
    ∧ LLM.ToolCalls (LLM.choice_Message choice) = tc :: tcs.

End Turn.

(** The approval gate as the specification words it, read on a trace: every
    announced tool call whose name the manager does not approve comes with
    an approval request for that call. *)
Definition gate_respected (m : Approval.Manager) (tr : list Event) : Prop :=
  ∀ tc, ToolCallEmitted tc ∈ tr →
        Approval.IsApproved m (Tools.Name tc) = false →
        ∃ req, ApprovalNeeded req ∈ tr
               ∧ Approval.ToolCallID req = Tools.ID tc.

Arguments LLMClient : clear implicits.
Arguments Runtime : clear implicits.
Arguments Outside : clear implicits.
Arguments Soul : clear implicits.
Arguments State : clear implicits.

End Soul.

(** ** Compaction of the LLM history *)

Module Compaction.
Import Fmt.

(** Modelled from the spec: the number of most recent history entries that
    compaction keeps, [N_KEEP] (section 4.9).  What is missing from the
    sources is the compaction code of the soul itself: [soul.go] has no
    [maybeCompressHistory], [shouldCompress] or token counter, only
    [soul_test.go] calls them. *)
Definition N_KEEP : nat := 2.

(** Modelled from the spec: [N_MIN_COMPRESS_OVERHEAD], so that a history of
    at most [N_KEEP + N_MIN_COMPRESS_OVERHEAD = 4] messages is left alone. *)
Definition N_MIN_COMPRESS_OVERHEAD : nat := 2.

(** Modelled from the spec: what compaction reads of a response of
    [llm_client.chat], the reply text and [usage.total_tokens] "when
    available". *)
Record Reply := mkReply {
  reply_Content : string;
  reply_TotalTokens : option Z;
}.

(** Modelled from the spec: the part of the soul that compaction reads and
    writes: the LLM history, the token counter, the two context budgets and
    the [modified] flag. *)
Record State := mkState {
  history : list LLM.Message;
  token_count : Z;
  max_context : Z;
  reserved : Z;
  modified : bool;
}.

(** Modelled from the spec: [estimate_tokens(text) = ceil(len(text)/4)]. *)
Definition estimate_tokens (text : string) : Z :=
  (Tools.len text + 3) / 4.

(** Modelled from the spec: [estimate_message_tokens(history)], with a
    per-message overhead of 4 tokens. *)
Definition estimate_message_tokens (h : list LLM.Message) : Z :=
  foldr (λ m acc, estimate_tokens (LLM.Content m) + 4 + acc) 0 h.

(** Modelled from the spec:
    [should_compress() <=> token_count + reserved >= max_context]. *)
Definition should_compress (st : State) : bool :=
  max_context st <=? token_count st + reserved st.

(** Modelled from the spec: [update_token_count(response)] sets the counter
    to [usage.total_tokens] when available and otherwise to the estimate
    over the history. *)
Definition update_token_count (r : Reply) (st : State) : State :=
  {| history := history st;
     token_count := default (estimate_message_tokens (history st))
                      (reply_TotalTokens r);
     max_context := max_context st; reserved := reserved st;
     modified := modified st |}.

(** Modelled from the spec: the summary message that replaces the older
    part of the history. *)
Definition summary_message (summary : string) : LLM.Message :=
  {| LLM.Role := "system";
     LLM.Content := "Conversation so far (summary): " +:+ summary;
     LLM.ToolCalls := []; LLM.ToolCallID := "" |}.

Section MaybeCompress.
Context {W : Type}.

(** Modelled from the spec: [llm_client.chat], and the "synthetic
    instruction prompt asking for a faithful summary of [older]", whose
    wording the specification leaves open. *)
Variable chat : list LLM.Message → W → (Reply + error) * W.
Variable instruction : list LLM.Message → list LLM.Message.

(** Modelled from the spec: [maybe_compress(cancel, llm_client)], section
    4.9, step by step: nothing to do unless [should_compress()]; nothing to
    do for a history of at most 4 messages; otherwise summarise all but the
    last [N_KEEP] messages, propagate an error of the summariser, and else
    replace the history by the summary message followed by the tail, set
    [modified], and update the token counter from the summariser's usage. *)
Definition maybe_compress (st : State) (w : W) : option error * State * W :=
  if negb (should_compress st) then (None, st, w)
  else if (length (history st) <=? N_KEEP + N_MIN_COMPRESS_OVERHEAD)%nat
  then (None, st, w)
  else
    let older := take (length (history st) - N_KEEP) (history st) in
    let tail := drop (length (history st) - N_KEEP) (history st) in
    match chat (instruction older) w with
    | (inr err, w) => (Some err, st, w)
    | (inl reply, w) =>
        let st :=
          {| history := summary_message (reply_Content reply) :: tail;
             token_count := token_count st;
             max_context := max_context st; reserved := reserved st;
             modified := true |} in
        (None, update_token_count reply st, w)
    end.

End MaybeCompress.
End Compaction.

(** ** Concrete inputs

    The worlds below only count the calls made into them; they serve to run
    the definitions above on the scenarios of the repository's tests. *)

Module Demo.
Import Fmt Float64 Retry.

(** The double quote, and [strconv.Quote] as it acts on a name made of
    letters and digits. *)
Definition dq : string := String (Ascii.ascii_of_nat 34) "".
#[export] Instance plain_quote : Strconv := λ s, dq +:+ s +:+ dq.

(** [TestExecuteWithRetry_MaxRetriesExceeded]: an operation that answers
    503 every time, under a configuration with two retries. *)
Definition unavailable : Errors.APIError :=
  {| Errors.StatusCode := 503; Errors.Message := "service unavailable";
     Errors.RawBody := "" |}.

Definition two_retries : RetryConfig :=
  {| MaxRetries := 2; InitialWait := 10 * Millisecond;
     MaxWait := 100 * Millisecond; ExponentialBase := of_int 2;
     Jitter := 5 * Millisecond |}.

Definition idle_callback : Z → Errors.APIError → Z → nat → nat :=
  λ _ _ _ n, n.

Definition failing_env : Env Errors.APIError nat :=
  {| arch := amd64;
     ctx_done := λ _, None;
     fn := λ n, (Some unavailable, S n);
     isRetryable := Some Errors.APIError_IsRetryable;
     onRetry := Some idle_callback;
     draw := λ n, (4242, n);
     wait := λ _ n, (None, n) |}.

(** [setupSoul] of the soul tests: a runtime with the tool ["shell"]
    registered, every handler installed, and a scripted client. *)
Definition shell_call (id : string) : LLM.ToolCallInfo :=
  {| LLM.tc_ID := id; LLM.tc_Type := "function";
     LLM.tc_Function :=
       {| LLM.fc_Name := "shell"; LLM.fc_Arguments := "{}" |} |}.

Definition missing_call : Tools.ToolCall :=
  {| Tools.ID := "call_1"; Tools.Name := "nonexistent";
     Tools.Arguments := "{}" |}.

Definition response (m : LLM.Message) : LLM.ChatResponse :=
  {| LLM.resp_ID := "test-id"; LLM.Object := "chat.completion";
     LLM.Created := 0; LLM.Model := "test-model";
     LLM.Choices :=
       [{| LLM.Index := 0; LLM.choice_Message := m;
           LLM.Delta := {| LLM.Role := ""; LLM.Content := "";
                           LLM.ToolCalls := []; LLM.ToolCallID := "" |};
           LLM.FinishReason := "stop" |}];
     LLM.resp_Usage := {| LLM.PromptTokens := 10; LLM.CompletionTokens := 5;
                          LLM.TotalTokens := 15 |} |}.

Definition textResponse (content : string) : LLM.ChatResponse :=
  response {| LLM.Role := "assistant"; LLM.Content := content;
              LLM.ToolCalls := []; LLM.ToolCallID := "" |}.

Definition toolCallResponse (id : string) : LLM.ChatResponse :=
  response {| LLM.Role := "assistant"; LLM.Content := "";
              LLM.ToolCalls := [shell_call id]; LLM.ToolCallID := "" |}.

Definition shell_tool : ToolSet.Tool nat :=
  {| ToolSet.Name := "shell";
     ToolSet.Description := "Execute shell commands.";
     ToolSet.Parameters := "{}";
     ToolSet.Execute := λ _ n, (inl "{}", n) |}.

(** A client that always asks for the shell tool. *)
Definition looping_client : Soul.LLMClient nat :=
  {| Soul.Chat := λ _ n, (inl (toolCallResponse "c"), S n);
     Soul.ChatWithTools := λ _ _ n, (inl (toolCallResponse "c"), S n) |}.

(** A client that asks for the shell tool once and then answers in text. *)
Definition one_call_client : Soul.LLMClient nat :=
  {| Soul.Chat := λ _ n, (inl (textResponse "done"), S n);
     Soul.ChatWithTools := λ _ _ n,
       (inl (match n with
             | O => toolCallResponse "c1"
             | _ => textResponse "done"
             end), S n) |}.

Definition test_soul (client : Soul.LLMClient nat) (maxSteps : Z)
  : Soul.Soul nat :=
  {| Soul.agent := {| Soul.agent_Name := "test";
                      Soul.SystemPrompt := "You are a test assistant.";
                      Soul.agent_Tools := ["shell"] |};
     Soul.runtime := {| Soul.WorkDir := "/tmp";
                        Soul.Tools := <["shell" := shell_tool]> ∅;
                        Soul.runtime_LLMClient := Some client;
                        Soul.YOLO := false;
                        Soul.MaxSteps := maxSteps;
                        Soul.MaxRetries := 3 |};
     Soul.outside := {| Soul.Now := λ _, 0;
                        Soul.WriteFile := λ _ _ n, (None, n) |};
     Soul.OnMessage := Some (λ _ n, n);
     Soul.OnToolCall := Some (λ _ n, n);
     Soul.OnToolResult := Some (λ _ n, n);
     Soul.OnError := Some (λ _ n, n) |}.

Definition fresh : Soul.State nat :=
  {| Soul.context := Soul.NewContext ""; Soul.llmHistory := [];
     Soul.world := O; Soul.trace := [] |}.

Definition user_input (text : string) : Wire.Message :=
  {| Wire.Type_ := Wire.MessageTypeUserInput;
     Wire.Content := [{| Wire.part_Type := "text"; Wire.Text := text |}];
     Wire.Timestamp := 0 |}.

(** [TestShellTool_Execute_WithTimeout]: the command [sleep 10] under a
    deadline that fires first.  The process is killed, [CombinedOutput]
    reports the kill as an [*exec.ExitError] whose [ExitCode()] is -1, and
    [execCtx.Err()] is [context.DeadlineExceeded]. *)
Definition sleep_10 : list Z := [115; 108; 101; 101; 112; 32; 49; 48].

(** The arguments as the LLM sends them, a JSON object with the key
    [command]. *)
Definition sleep_args : string :=
  "{" +:+ dq +:+ "command" +:+ dq +:+ ":" +:+ dq +:+ "sleep 10" +:+ dq
  +:+ "}".

Definition killed_at_deadline : Shell.OS unit :=
  {| Shell.Unmarshal := λ _,
       inr {| Shell.Command := sleep_10; Shell.Timeout := 0 |};
     Shell.CombinedOutput := λ _ _ _ w,
       ({| Shell.output := ""; Shell.run_err := Shell.ExitError (-1) "";
           Shell.ctx_err := Some DeadlineExceeded |}, w) |}.

(** [TestSoul_MaybeCompressHistory]: six messages, a summariser that
    answers ["Summary of conversation"]. *)
Definition msg (role content : string) : LLM.Message :=
  {| LLM.Role := role; LLM.Content := content; LLM.ToolCalls := [];
     LLM.ToolCallID := "" |}.

Definition six_messages : Compaction.State :=
  {| Compaction.history :=
       [msg "user" "msg1"; msg "assistant" "resp1"; msg "user" "msg2";
        msg "assistant" "resp2"; msg "user" "msg3"; msg "assistant" "resp3"];
     Compaction.token_count := 95; Compaction.max_context := 100;
     Compaction.reserved := 10; Compaction.modified := false |}.

Definition summariser : list LLM.Message → nat
                        → (Compaction.Reply + error) * nat :=
  λ _ n, (inl {| Compaction.reply_Content := "Summary of conversation";
                 Compaction.reply_TotalTokens := Some 15 |}, S n).

Definition summary_request (older : list LLM.Message) : list LLM.Message :=
  msg "system" "Summarize the conversation so far." :: older.

End Demo.

(** ** internal/approval/approval.go: sequences of calls on a manager *)

Module ApprovalOps.
Import Approval.

(** The methods of [*Manager] that change it, as values: a caller of the
    package can only reach a manager by [NewManager] followed by such
    calls. *)
Inductive Call :=
| CallSetLevel (l : Level)
| CallApproveOnce (toolName : string)
| CallApproveForSession (toolName : string)
| CallRevokeSessionApproval (toolName : string)
| CallSetDangerous (toolName : string) (dangerous : bool)
| CallClearSessionApprovals.

Definition call (m : Manager) (c : Call) : Manager :=
  match c with
  | CallSetLevel l => SetLevel m l
  | CallApproveOnce toolName => ApproveOnce m toolName
  | CallApproveForSession toolName => ApproveForSession m toolName
  | CallRevokeSessionApproval toolName => RevokeSessionApproval m toolName
  | CallSetDangerous toolName dangerous => SetDangerous m toolName dangerous
  | CallClearSessionApprovals => ClearSessionApprovals m
  end.

(** The manager after the calls [cs], made in order. *)
Definition calls (cs : list Call) (m : Manager) : Manager := foldl call m cs.

Definition is_set_level (c : Call) : bool :=
  match c with CallSetLevel _ => true | _ => false end.

(** Whether a call is [SetDangerous] for the tool [name]. *)
Definition sets_danger_of (name : string) (c : Call) : bool :=
  match c with
  | CallSetDangerous toolName _ => String.eqb toolName name
  | _ => false
  end.

(** Every entry of the session map is [true]: nothing ever stores [false]
    there. *)
Definition all_true (m : Manager) : Prop :=
  map_Forall (λ _ v, v = true) (sessionApproved m).

End ApprovalOps.

(** ** internal/tools/tool.go: [ToolSet.Execute], and registries built by
    [Register] *)

Module Registry.
Import Fmt ToolSet.

Section Ops.
Context {W : Type} `{!Strconv}.

(** [func (ts *ToolSet) Execute(ctx, name, args) (any, error)] *)
Definition Execute (ts : gmap string (Tool W)) (name args : string) (w : W)
  : (string + error) * W :=
  match Get ts name with
  | inr err => (inr err, w)
  | inl tool => ToolSet.Execute tool args w
  end.

(** The registry after [Register] was called with each of [tools] in order
    on a new tool set, whatever the calls returned. *)
Definition registered (tools : list (Tool W)) : gmap string (Tool W) :=
  foldl (λ ts tool, (Register ts tool).1) NewToolSet tools.

(** The first tool of a list that has the given name. *)
Definition first_named (name : string) (tools : list (Tool W))
  : option (Tool W) :=
  find (λ tool, String.eqb (Name tool) name) tools.

End Ops.
End Registry.

(** ** internal/tools/tool.go: the bookkeeping of [truncateText] *)

Module Truncation.
Import Tools.

(** What the loop of [truncateText] keeps true of its variables: the output
    is longer than the count [totalLen] by at most the number [c] of lines
    cut so far (the newline after a cut line is appended but not counted),
    each cut line has added [maxLine] to the count, and the count is at most
    one above the limit. *)
Definition size_inv (maxTotal maxLine : Z) (a : Acc) : Prop :=
  ∃ c, 0 ≤ c
       ∧ len (result a) ≤ totalLen a + c
       ∧ c * maxLine ≤ totalLen a
       ∧ c * maxLine ≤ maxTotal
       ∧ totalLen a ≤ maxTotal + 1.

(** While nothing was cut, the output is the text up to the start of the
    current line and the count is its length. *)
Definition prefix_inv (text : string) (i : nat) (a : Acc) : Prop :=
  truncated a = false →
  ∃ ls : nat, (ls ≤ i)%nat
              ∧ lineStart a = Z.of_nat ls
              ∧ totalLen a = Z.of_nat ls
              ∧ result a = String.substring 0 ls text.

End Truncation.

(** ** internal/soul/context.go: the remaining methods *)

Module ContextStore.
Import Fmt Soul.

(** [func (c *Context) AddMessages(msgs ...wire.Message)] *)
Definition AddMessages (msgs : list Wire.Message) (c : Context) : Context :=
  {| messages := messages c ++ msgs; filePath := filePath c;
     modified := true |}.

(** [func (c *Context) GetLastNMessages(n int) []wire.Message].  For an [n]
    below the length, the result is made by [make([]wire.Message, n)],
    which panics for a negative [n]. *)
Definition GetLastNMessages (c : Context) (n : Z)
  : Outcome (list Wire.Message) :=
  if Z.of_nat (length (messages c)) <=? n then Returns (messages c)
  else if n <? 0 then Panics "makeslice: len out of range"
  else Returns (drop (length (messages c) - Z.to_nat n) (messages c)).

(** [type Checkpoint struct] of package [wire]: the fields [Checkpoint]
    sets. *)
Record WireCheckpoint := mkCheckpoint {
  cp_ID : string;
  cp_Timestamp : Z;
  cp_Context : string;
}.

(** [encoding/json] and [os] as the context uses them; [W] is the state of
    the file system. *)
Record FS (W : Type) := mkFS {
  (** [json.MarshalIndent(messages, "", "  ")] *)
  MarshalIndent : list Wire.Message → string + error;
  (** [json.Marshal(messages)] *)
  Marshal : list Wire.Message → string + error;
  (** [json.Unmarshal(data, &messages)] *)
  Unmarshal : string → list Wire.Message + error;
  (** [_, err := os.Stat(path); os.IsNotExist(err)] *)
  NotExist : string → W → bool;
  (** [os.ReadFile(path)] *)
  ReadFile : string → W → (string + error) * W;
  (** [os.WriteFile(path, data, 0644)] *)
  WriteFile : string → string → W → option error * W;
}.
Arguments MarshalIndent {W} _ _.
Arguments Marshal {W} _ _.
Arguments Unmarshal {W} _ _.
Arguments NotExist {W} _ _ _.
Arguments ReadFile {W} _ _ _.
Arguments WriteFile {W} _ _ _ _.

Section Store.
Context {W : Type}.
Variable fs : FS W.

Definition set_modified (b : bool) (c : Context) : Context :=
  {| messages := messages c; filePath := filePath c; modified := b |}.

(** [func (c *Context) Save() error]: the error, the context and the file
    system after the call. *)
Definition Save (c : Context) (w : W) : option error * Context * W :=
  if negb (modified c) then (None, c, w)
  else
    match MarshalIndent fs (messages c) with
    | inr err => (Some (Errorf_w "failed to marshal context: " err), c, w)
    | inl data =>
        match WriteFile fs (filePath c) data w with
        | (Some err, w) =>
            (Some (Errorf_w "failed to write context file: " err), c, w)
        | (None, w) => (None, set_modified false c, w)
        end
    end.

(** [func (c *Context) Restore() error] *)
Definition Restore (c : Context) (w : W) : option error * Context * W :=
  if NotExist fs (filePath c) w then (None, c, w)
  else
    match ReadFile fs (filePath c) w with
    | (inr err, w) =>
        (Some (Errorf_w "failed to read context file: " err), c, w)
    | (inl data, w) =>
        match Unmarshal fs data with
        | inr err =>
            (Some (Errorf_w "failed to unmarshal context: " err), c, w)
        | inl msgs =>
            (None, {| messages := msgs; filePath := filePath c;
                      modified := false |}, w)
        end
    end.

(** [func (c *Context) Checkpoint() wire.Checkpoint]; the error of
    [json.Marshal] is dropped ([data, _ := ...]), which leaves [data] empty.
    [idNow] and [now] are the two readings of the clock, the first one
    inside [generateID]. *)
Definition Checkpoint (idNow now : Z) (c : Context) : WireCheckpoint :=
  {| cp_ID := d idNow; cp_Timestamp := now;
     cp_Context := match Marshal fs (messages c) with
                   | inl data => data
                   | inr _ => ""
                   end |}.

(** [func (c *Context) RestoreCheckpoint(cp wire.Checkpoint) error] *)
Definition RestoreCheckpoint (cp : WireCheckpoint) (c : Context)
  : option error * Context :=
  match Unmarshal fs (cp_Context cp) with
  | inr err => (Some (Errorf_w "failed to unmarshal checkpoint: " err), c)
  | inl msgs =>
      (None, {| messages := msgs; filePath := filePath c;
                modified := true |})
  end.

End Store.

(** A file system kept in memory: a map from paths to contents. *)
Definition memory_fs (marshal : list Wire.Message → string)
    (unmarshal : string → list Wire.Message + error)
  : FS (gmap string string) :=
  {| MarshalIndent := λ msgs, inl (marshal msgs);
     Marshal := λ msgs, inl (marshal msgs);
     Unmarshal := unmarshal;
     NotExist := λ path w, bool_decide (w !! path = None);
     ReadFile := λ path w,
       (match w !! path with
        | Some data => inl data
        | None => inr (errorString "no such file or directory")
        end, w);
     WriteFile := λ path data w, (None, <[path := data]> w) |}.

End ContextStore.

(** ** Package llm: the retrying client and its configuration *)

Module RetryClient.
Import Fmt Errors Float64 Retry.

(** The calls of [ChatWithTools] to its [Logger], with the arguments of
    the format string:
    [Info("LLM request succeeded after %d retry(s)", attempt)],
    [Debug("Non-retryable error, aborting: %v", err)] and
    [Info("Retrying LLM request (attempt %d/%d) after %v: %v", ...)]. *)
Inductive LogEntry :=
| InfoSucceeded (attempt : Z)
| DebugNonRetryable (err : dyn_error)
| InfoRetrying (attempt maxRetries waitTime : Z) (err : dyn_error).

Section Client.
Context {W : Type}.

(** [type RetryableClient struct].  [inner] is the method [ChatWithTools]
    of the wrapped client, which returns a response pointer and an error; a
    [nil] tool list is the empty list; a [nil] logger is [None]. *)
Record RetryableClient := mkRetryableClient {
  inner : list LLM.Message → list LLM.ToolDef → W
          → option LLM.ChatResponse * dyn_error * W;
  config : RetryConfig;
  logger : option (LogEntry → W → W);
}.

(** [func NewRetryableClient(inner, config, logger) *RetryableClient] *)
Definition NewRetryableClient
    (inner : list LLM.Message → list LLM.ToolDef → W
             → option LLM.ChatResponse * dyn_error * W)
    (config : option RetryConfig) (logger : option (LogEntry → W → W))
  : RetryableClient :=
  {| inner := inner; config := default DefaultRetryConfig config;
     logger := logger |}.

(** What surrounds a call: the machine, the context, the random generator
    and the timer, as for [ExecuteWithRetry]. *)
Record Surroundings := mkSurroundings {
  sur_arch : Arch;
  sur_ctx_done : W → option CtxErr;
  sur_draw : W → Z * W;
  sur_wait : Z → W → option CtxErr * W;
}.

(** What the client was seen to do, in order. *)
Inductive Event :=
| CalledInner (attempt : Z) (resp : option LLM.ChatResponse) (err : dyn_error)
| Logged (entry : LogEntry)
| Waited (waitTime : Z).

Variable c : RetryableClient.
Variable sur : Surroundings.
Variable messages : list LLM.Message.
Variable tools : list LLM.ToolDef.

(** [if c.logger != nil { c.logger.Info(...) }] *)
Definition log (entry : LogEntry) (w : W) (tr : list Event)
  : W * list Event :=
  match logger c with
  | Some write => (write entry w, Logged entry :: tr)
  | None => (w, tr)
  end.

(** The body of [for attempt := 0; attempt <= c.config.MaxRetries;
    attempt++]; [iters] is the number of iterations the loop condition still
    admits, the trace is kept newest first. *)
Fixpoint chat_loop (iters : nat) (attempt : Z) (lastErr : option dyn_error)
    (w : W) (tr : list Event)
  : option LLM.ChatResponse * Result dyn_error * W * list Event :=
  match iters with
  | O => (None, RMaxRetries (MaxRetries (config c)) lastErr, w, tr)
  | S iters' =>
      match sur_ctx_done sur w with
      | Some e => (None, RCtx e, w, tr)
      | None =>
          let '(resp, err, w) := inner c messages tools w in
          let tr := CalledInner attempt resp err :: tr in
          match err with
          | Nil =>
              let '(w, tr) :=
                if 0 <? attempt then log (InfoSucceeded attempt) w tr
                else (w, tr) in
              (resp, RNil, w, tr)
          | _ =>
              let lastErr := Some err in
              if negb (IsRetryableError err) then
                let '(w, tr) := log (DebugNonRetryable err) w tr in
                (None, RErr err, w, tr)
              else if MaxRetries (config c) <=? attempt
              then (None, RMaxRetries (MaxRetries (config c)) lastErr, w, tr)
              else
                let '(raw, w) :=
                  if 0 <? Jitter (config c) then sur_draw sur w else (0, w) in
                match ExponentialBackoff (sur_arch sur) raw attempt
                        (InitialWait (config c)) (MaxWait (config c))
                        (ExponentialBase (config c)) (Jitter (config c)) with
                | Panics msg => (None, RPanic msg, w, tr)
                | Returns waitTime =>
                    let '(w, tr) :=
                      log (InfoRetrying (attempt + 1)
                             (MaxRetries (config c)) waitTime err) w tr in
                    let '(e, w) := sur_wait sur waitTime w in
                    let tr := Waited waitTime :: tr in
                    match e with
                    | Some e => (None, RCtx e, w, tr)
                    | None => chat_loop iters' (attempt + 1) lastErr w tr
                    end
                end
          end
      end
  end.

End Client.

Arguments RetryableClient : clear implicits.
Arguments Surroundings : clear implicits.

(** [func (c *RetryableClient) ChatWithTools(ctx, messages, tools)]: the
    response, the error (as a [Result]), the state after and the trace in
    the order of occurrence. *)
Definition ChatWithTools {W} (c : RetryableClient W) (sur : Surroundings W)
    (messages : list LLM.Message) (tools : list LLM.ToolDef) (w : W)
  : option LLM.ChatResponse * Result dyn_error * W * list Event :=
  let '(resp, r, w, tr) :=
    chat_loop c sur messages tools
      (Z.to_nat (MaxRetries (config c) + 1)) 0 None w [] in
  (resp, r, w, rev tr).

(** [func (c *RetryableClient) Chat(ctx, messages)] *)
Definition Chat {W} (c : RetryableClient W) (sur : Surroundings W)
    (messages : list LLM.Message) (w : W)
  : option LLM.ChatResponse * Result dyn_error * W * list Event :=
  ChatWithTools c sur messages [] w.

(** The executor's view of a client: the operation is the inner call (with
    the response dropped), the classifier is [IsRetryableError], and there
    is no callback. *)
Definition as_env {W} (c : RetryableClient W) (sur : Surroundings W)
    (messages : list LLM.Message) (tools : list LLM.ToolDef)
  : Env dyn_error W :=
  {| arch := sur_arch sur;
     ctx_done := sur_ctx_done sur;
     fn := λ w, let '(_, err, w) := inner c messages tools w in
                (match err with Nil => None | _ => Some err end, w);
     isRetryable := Some IsRetryableError;
     onRetry := None;
     draw := sur_draw sur;
     wait := sur_wait sur |}.

(** The executor's view of a client event; log entries have none. *)
Definition as_event (ev : Event) : option (Retry.Event dyn_error) :=
  match ev with
  | CalledInner attempt _ err =>
      Some (CalledFn attempt (match err with Nil => None | _ => Some err end))
  | Logged _ => None
  | Waited waitTime => Some (Retry.Waited waitTime)
  end.

(** [type RetryConfig struct] of package [config]: the [Retry] field of a
    [ProviderConfig], times in milliseconds. *)
Record ProviderRetry := mkProviderRetry {
  pr_MaxRetries : Z;
  pr_InitialWaitMs : Z;
  pr_MaxWaitMs : Z;
  pr_ExponentialBase : float64;
  pr_JitterMs : Z;
}.

(** [func RetryConfigFromProvider(provider *config.ProviderConfig)
    *RetryConfig], on the [Retry] field of the provider ([None] when it is
    [nil]).  [time.Duration(ms) * time.Millisecond] is an [int64]
    product. *)
Definition RetryConfigFromProvider (retry : option ProviderRetry)
  : RetryConfig :=
  match retry with
  | None => DefaultRetryConfig
  | Some retry =>
      let maxRetries := pr_MaxRetries retry in
      let initialWait := wrap64 (pr_InitialWaitMs retry * Millisecond) in
      let maxWait := wrap64 (pr_MaxWaitMs retry * Millisecond) in
      let base := pr_ExponentialBase retry in
      {| MaxRetries := if maxRetries <? 0 then MaxRetries DefaultRetryConfig
                       else maxRetries;
         InitialWait := if initialWait <=? 0
                        then InitialWait DefaultRetryConfig else initialWait;
         MaxWait := if maxWait <=? 0 then MaxWait DefaultRetryConfig
                    else maxWait;
         ExponentialBase := if SFleb base one
                            then ExponentialBase DefaultRetryConfig else base;
         Jitter := wrap64 (pr_JitterMs retry * Millisecond) |}
  end.

End RetryClient.

(** ** Projections of the executor's trace *)

Module RetryTrace.
Import Retry.



Section Facts.
Context {E W : Type}.
Variable env : Env E W.
Variable cfg : RetryConfig.



End Facts.

End RetryTrace.

(** ** A failing run of the retry policy, as the specification words it *)

Module RetryRun.
Import Fmt Float64 Retry.

Section Run.
Context {E W : Type}.
Variable env : Env E W.
Variable cfg : RetryConfig.
Variable cb : Z → E → Z → W → W.

(** Modelled from the spec: an attempt that fails and is retried.  The
    operation is invoked; the delay is computed (which draws from the random
    generator when there is jitter); [on_retry] is told the number of the
    retry about to occur (1-based), the error and the delay; and the delay
    is waited for. *)
Definition failed_attempt (attempt : Z) (w : W) : W :=
  let '(err, w) := fn env w in
  let '(raw, w) := if 0 <? Jitter cfg then draw env w else (0, w) in
  match err, ExponentialBackoff (arch env) raw attempt (InitialWait cfg)
               (MaxWait cfg) (ExponentialBase cfg) (Jitter cfg) with
  | Some e, Returns delay => (wait env delay (cb (attempt + 1) e delay w)).2
  | _, _ => w
  end.

(** Modelled from the spec: a failing run that hits the cap, [retries]
    attempts that fail and are retried, numbered from [attempt], and one
    last invocation of the operation. *)
Fixpoint failing_run (retries : nat) (attempt : Z) (w : W) : W :=
  match retries with
  | O => (fn env w).2
  | S retries' => failing_run retries' (attempt + 1) (failed_attempt attempt w)
  end.

End Run.
End RetryRun.

(** ** Projections of the turn's trace and history *)

Module SoulTrace.
Import Soul.


(** The system message that [buildLLMMessages] puts first. *)
Definition system_messages (prompt : string) : list LLM.Message :=
  if String.eqb prompt "" then []
  else [{| LLM.Role := "system"; LLM.Content := prompt;
           LLM.ToolCalls := []; LLM.ToolCallID := "" |}].


(** The user message that [processWithLLM] appends to the history. *)
Definition user_message (userMsg : Wire.Message) : LLM.Message :=
  {| LLM.Role := "user"; LLM.Content := extractText userMsg;
     LLM.ToolCalls := []; LLM.ToolCallID := "" |}.



(** An observation of the outside world that counts the requests the LLM
    has received: every [ChatWithTools] call of the client adds one. *)
Definition counts_requests {W} (client : LLMClient W) (requests : W → nat)
  : Prop :=
  ∀ ms tools w, requests (ChatWithTools client ms tools w).2 = S (requests w).

(** Nothing else the soul calls changes that count: not the handlers, not
    the registered tools, not the writing of the context file. *)
Definition leaves_requests {W} (s : Soul W) (requests : W → nat) : Prop :=
  (∀ h m w, OnMessage s = Some h → requests (h m w) = requests w)
  ∧ (∀ h tc w, OnToolCall s = Some h → requests (h tc w) = requests w)
  ∧ (∀ h r w, OnToolResult s = Some h → requests (h r w) = requests w)
  ∧ (∀ name tool args w,
       Tools (runtime s) !! name = Some tool →
       requests (ToolSet.Execute tool args w).2 = requests w)
  ∧ (∀ path msgs w,
       requests (WriteFile (outside s) path msgs w).2 = requests w).

End SoulTrace.

(** ** Further concrete inputs *)

Module Samples.
Import Fmt Float64 Retry.

(** A configuration that allows no attempt at all. *)
Definition no_budget : RetryConfig :=
  {| MaxRetries := -1; InitialWait := 10 * Millisecond;
     MaxWait := 100 * Millisecond; ExponentialBase := of_int 2;
     Jitter := 0 |}.

(** A client whose inner call is refused with 503 twice and then answers;
    the world counts the inner calls. *)
Definition flaky_client : RetryClient.RetryableClient nat :=
  RetryClient.NewRetryableClient
    (λ _ _ n,
       if (n <? 2)%nat then (None, Errors.EAPI Demo.unavailable, S n)
       else (Some (Demo.textResponse "done"), Errors.Nil, S n))
    (Some Demo.two_retries) None.

(** Surroundings in which the context is never cancelled. *)
Definition calm : RetryClient.Surroundings nat :=
  {| RetryClient.sur_arch := amd64;
     RetryClient.sur_ctx_done := λ _, None;
     RetryClient.sur_draw := λ n, (4242, n);
     RetryClient.sur_wait := λ _ n, (None, n) |}.

(** An [Error] method for the errors of package [llm] that shows the
    message only. *)
Definition plain_error : GoError Errors.dyn_error :=
  λ err, match err with
         | Errors.Nil => "<nil>"
         | Errors.EAPI e => Errors.APIError_Error e
         | Errors.ENetwork op _ => "network error (" +:+ op +:+ ")"
         | Errors.ETimeout op _ => "timeout error (" +:+ op +:+ ")"
         | Errors.EEmptyResponse m => "empty response: " +:+ m
         | Errors.EForeign f => Errors.fe_message f
         end.

(** A soul without an LLM client. *)
Definition offline_soul : Soul.Soul nat :=
  {| Soul.agent := Soul.agent (Demo.test_soul Demo.looping_client 10);
     Soul.runtime := Soul.NewRuntime "/tmp" false;
     Soul.outside := Soul.outside (Demo.test_soul Demo.looping_client 10);
     Soul.OnMessage := Some (λ _ n, n);
     Soul.OnToolCall := None;
     Soul.OnToolResult := None;
     Soul.OnError := None |}.



(** A client whose every request fails. *)
Definition down_client : Soul.LLMClient nat :=
  {| Soul.Chat := λ _ n, (inr (errorString "connection refused"), S n);
     Soul.ChatWithTools := λ _ _ n,
       (inr (errorString "connection refused"), S n) |}.

(** *** Worlds that record what reaches them

    The worlds below are logs, newest entry first: every function that the
    code under test calls into the outside world adds an entry, so that the
    final world tells what was really called, in which order and with which
    arguments. *)

(** What the operation, the callback and the timer of a retry run have
    seen. *)
Inductive Step :=
| Invoked
| Notified (attempt delay : Z)
| Slept (delay : Z).

Definition recording_callback
  : Z → Errors.APIError → Z → list Step → list Step :=
  λ attempt _ delay w, Notified attempt delay :: w.

(** [TestExecuteWithRetry_MaxRetriesExceeded] on a recording world: the
    operation answers 503 every time. *)
Definition recording_env : Env Errors.APIError (list Step) :=
  {| arch := amd64;
     ctx_done := λ _, None;
     fn := λ w, (Some Demo.unavailable, Invoked :: w);
     isRetryable := Some Errors.APIError_IsRetryable;
     onRetry := Some recording_callback;
     draw := λ w, (4242, w);
     wait := λ delay w, (None, Slept delay :: w) |}.

(** What [RetryConfigFromProvider] makes of a provider whose [retry] table
    has the values of that test and the given [jitter_ms]. *)
Definition jittery (jitter_ms : Z) : RetryConfig :=
  RetryClient.RetryConfigFromProvider
    (Some {| RetryClient.pr_MaxRetries := 2;
             RetryClient.pr_InitialWaitMs := 10;
             RetryClient.pr_MaxWaitMs := 100;
             RetryClient.pr_ExponentialBase := of_int 2;
             RetryClient.pr_JitterMs := jitter_ms |}).

(** What the LLM, the handlers of the user interface, the shell tool and
    the file system of a turn have seen. *)
Inductive Seen :=
| Requested (messages : list LLM.Message)
| ToolCallShown (tc : Tools.ToolCall)
| MessageShown (ty : Wire.MessageType) (text : string)
| ShellRan (args : string)
| ToolResultShown (r : Tools.ToolResult)
| ContextWritten (path : string) (messages : nat).

(** The number of requests the LLM has seen. *)
Fixpoint requests (w : list Seen) : nat :=
  match w with
  | [] => O
  | Requested _ :: w' => S (requests w')
  | _ :: w' => requests w'
  end.

(** The sizes of the requests the LLM has seen and the arguments the shell
    tool was run with, oldest first. *)
Definition request_sizes (w : list Seen) : list nat :=
  omap (λ seen, match seen with
                | Requested ms => Some (length ms)
                | _ => None
                end) (rev w).

Definition shell_runs (w : list Seen) : list string :=
  omap (λ seen, match seen with ShellRan args => Some args | _ => None end)
    (rev w).

Definition recording_shell : ToolSet.Tool (list Seen) :=
  {| ToolSet.Name := "shell";
     ToolSet.Description := "Execute shell commands.";
     ToolSet.Parameters := "{}";
     ToolSet.Execute := λ args w, (inl "{}", ShellRan args :: w) |}.

(** A client that asks for the shell tool on its first request and answers
    in text from then on ([TestSoul_ProcessWithLLM_ToolCall]). *)
Definition recording_client : Soul.LLMClient (list Seen) :=
  {| Soul.Chat := λ ms w, (inl (Demo.textResponse "done"), Requested ms :: w);
     Soul.ChatWithTools := λ ms _ w,
       (inl (match requests w with
             | O => Demo.toolCallResponse "c1"
             | _ => Demo.textResponse "done"
             end), Requested ms :: w) |}.

(** A client that asks for the shell tool on every request
    ([TestSoul_ProcessWithLLM_MaxSteps]). *)
Definition insisting_client : Soul.LLMClient (list Seen) :=
  {| Soul.Chat := λ ms w,
       (inl (Demo.toolCallResponse "c"), Requested ms :: w);
     Soul.ChatWithTools := λ ms _ w,
       (inl (Demo.toolCallResponse "c"), Requested ms :: w) |}.

(** [setupSoul] of the soul tests on a recording world: a runtime that was
    not started with [--yolo], the shell tool registered, every handler
    installed. *)
Definition recording_soul (client : Soul.LLMClient (list Seen))
    (maxSteps : Z) : Soul.Soul (list Seen) :=
  {| Soul.agent := {| Soul.agent_Name := "test";
                      Soul.SystemPrompt := "You are a test assistant.";
                      Soul.agent_Tools := ["shell"] |};
     Soul.runtime := {| Soul.WorkDir := "/tmp";
                        Soul.Tools := <["shell" := recording_shell]> ∅;
                        Soul.runtime_LLMClient := Some client;
                        Soul.YOLO := false;
                        Soul.MaxSteps := maxSteps;
                        Soul.MaxRetries := 3 |};
     Soul.outside :=
       {| Soul.Now := λ _, 0;
          Soul.WriteFile := λ path msgs w,
            (None, ContextWritten path (length msgs) :: w) |};
     Soul.OnMessage :=
       Some (λ m w, MessageShown (Wire.Type_ m) (Soul.extractText m) :: w);
     Soul.OnToolCall := Some (λ tc w, ToolCallShown tc :: w);
     Soul.OnToolResult := Some (λ r w, ToolResultShown r :: w);
     Soul.OnError := None |}.

Definition untouched : Soul.State (list Seen) :=
  {| Soul.context := Soul.NewContext "ctx.json"; Soul.llmHistory := [];
     Soul.world := []; Soul.trace := [] |}.

(** *** A codec for the context file

    A line-oriented stand-in for JSON: one message per line, the fields
    separated by tabs (the type by its wire name, the timestamp in decimal,
    then the type and the text of every content part).  It encodes and
    decodes messages whose texts contain neither tabs nor newlines. *)

Definition tab : Ascii.ascii := Ascii.ascii_of_nat 9.

Fixpoint split_from (sep : Ascii.ascii) (cur s : string) : list string :=
  match s with
  | EmptyString => [cur]
  | String c s' =>
      if Ascii.eqb c sep then cur :: split_from sep "" s'
      else split_from sep (cur +:+ String c "") s'
  end.

Definition split (sep : Ascii.ascii) (s : string) : list string :=
  split_from sep "" s.

Fixpoint join (sep : Ascii.ascii) (fields : list string) : string :=
  match fields with
  | [] => ""
  | [field] => field
  | field :: rest => field +:+ String sep (join sep rest)
  end.

(** The wire names of the message types. *)
Definition type_names : list (Wire.MessageType * string) :=
  [(Wire.MessageTypeUserInput, "user_input");
   (Wire.MessageTypeCancel, "cancel");
   (Wire.MessageTypeAssistant, "assistant");
   (Wire.MessageTypeToolCall, "tool_call");
   (Wire.MessageTypeToolResult, "tool_result");
   (Wire.MessageTypeError, "error");
   (Wire.MessageTypeSystem, "system");
   (Wire.MessageTypeCheckpoint, "checkpoint");
   (Wire.MessageTypeClear, "clear");
   (Wire.MessageTypeStatus, "status");
   (Wire.MessageTypeProgress, "progress");
   (Wire.MessageTypeDone, "done")].

Definition same_type (a b : Wire.MessageType) : bool :=
  match a, b with
  | Wire.MessageTypeUserInput, Wire.MessageTypeUserInput
  | Wire.MessageTypeCancel, Wire.MessageTypeCancel
  | Wire.MessageTypeAssistant, Wire.MessageTypeAssistant
  | Wire.MessageTypeToolCall, Wire.MessageTypeToolCall
  | Wire.MessageTypeToolResult, Wire.MessageTypeToolResult
  | Wire.MessageTypeError, Wire.MessageTypeError
  | Wire.MessageTypeSystem, Wire.MessageTypeSystem
  | Wire.MessageTypeCheckpoint, Wire.MessageTypeCheckpoint
  | Wire.MessageTypeClear, Wire.MessageTypeClear
  | Wire.MessageTypeStatus, Wire.MessageTypeStatus
  | Wire.MessageTypeProgress, Wire.MessageTypeProgress
  | Wire.MessageTypeDone, Wire.MessageTypeDone => true
  | _, _ => false
  end.

Definition type_name (ty : Wire.MessageType) : string :=
  default "" (snd <$> find (λ entry, same_type (fst entry) ty) type_names).

Definition type_of_name (name : string) : option Wire.MessageType :=
  fst <$> find (λ entry, String.eqb (snd entry) name) type_names.

Definition write_message (m : Wire.Message) : string :=
  join tab
    (type_name (Wire.Type_ m) :: d (Wire.Timestamp m)
     :: flat_map (λ part, [Wire.part_Type part; Wire.Text part])
          (Wire.Content m)).

Fixpoint read_parts (fields : list string) : option (list Wire.ContentPart) :=
  match fields with
  | [] => Some []
  | ty :: text :: rest =>
      cons {| Wire.part_Type := ty; Wire.Text := text |} <$> read_parts rest
  | [_] => None
  end.

Definition read_message (line : string) : option Wire.Message :=
  match split tab line with
  | ty :: time :: fields =>
      match type_of_name ty, NilZero.int_of_string time, read_parts fields with
      | Some ty, Some time, Some parts =>
          Some {| Wire.Type_ := ty; Wire.Content := parts;
                  Wire.Timestamp := Z.of_int time |}
      | _, _, _ => None
      end
  | _ => None
  end.

Definition write_messages (msgs : list Wire.Message) : string :=
  join Tools.newline (write_message <$> msgs).

Definition read_messages (data : string) : list Wire.Message + error :=
  if String.eqb data "" then inl []
  else
    match mapM read_message (split Tools.newline data) with
    | Some msgs => inl msgs
    | None => inr (errorString "malformed line")
    end.

(** A context with a question and its answer, not yet saved. *)
Definition two_messages : Soul.Context :=
  ContextStore.AddMessages
    [{| Wire.Type_ := Wire.MessageTypeUserInput;
        Wire.Content := [{| Wire.part_Type := "text";
                            Wire.Text := "what is in this directory?" |}];
        Wire.Timestamp := 1700000000 |};
     {| Wire.Type_ := Wire.MessageTypeAssistant;
        Wire.Content := [{| Wire.part_Type := "text";
                            Wire.Text := "Two files: go.mod and main.go." |}];
        Wire.Timestamp := 1700000003 |}]
    (Soul.NewContext "ctx.json").

End Samples.

(** * Theorems *)

(** ** The error taxonomy *)

Module ErrorsSpec.
Import Errors.

(** C4. [IsRetryable] on an [APIError] is true if and only if its status
    code is one of 429, 500, 502, 503, 504, and false for every other status
    code (in particular the other 4xx codes, the 2xx codes and 0); the
    classification predicate [IsRetryableError] returns the same on an API
    error. *)
Theorem api_error_retryable_iff (e : APIError) :
  (APIError_IsRetryable e = true ↔ StatusCode e ∈ [429; 500; 502; 503; 504])
  ∧ (APIError_IsRetryable e = false ↔ StatusCode e ∉ [429; 500; 502; 503; 504])
  ∧ IsRetryableError (EAPI e) = APIError_IsRetryable e.
Proof.
  assert (Hiff : APIError_IsRetryable e = true
                 ↔ StatusCode e ∈ [429; 500; 502; 503; 504]).
  { unfold APIError_IsRetryable, StatusTooManyRequests,
      StatusInternalServerError, StatusBadGateway,
      StatusServiceUnavailable, StatusGatewayTimeout.
    rewrite !elem_of_cons, elem_of_nil.
    destruct (StatusCode e =? 429) eqn:H1;
      destruct (StatusCode e =? 500) eqn:H2;
      destruct (StatusCode e =? 502) eqn:H3;
      destruct (StatusCode e =? 503) eqn:H4;
      destruct (StatusCode e =? 504) eqn:H5; simpl;
      rewrite ?Z.eqb_eq, ?Z.eqb_neq in *; split; intros; try lia; try done. }
  split; [exact Hiff|]. split; [|reflexivity].
  rewrite <- Hiff. destruct (APIError_IsRetryable e); split; congruence.
Qed.

(** The status codes the specification singles out as terminal. *)
Example api_error_terminal_codes :
  Forall (λ code, APIError_IsRetryable (mkAPIError code "" "") = false)
         [0; 200; 201; 204; 400; 401; 403; 404; 422; 501].
Proof. repeat constructor. Qed.

End ErrorsSpec.

(** ** The approval manager *)

Module ApprovalSpec.
Import Approval.

(** C9. [ApproveOnce] leaves the observable state of the manager entirely
    unchanged: for every tool name and every manager state, [IsApproved],
    [IsSessionApproved], [IsDangerous], [GetLevel] and
    [GetSessionApprovedTools] return after the call exactly what they
    returned before it. *)
Theorem approve_once_frame (m : Manager) (name : string) :
  (∀ t, IsApproved (ApproveOnce m name) t = IsApproved m t)
  ∧ (∀ t, IsSessionApproved (ApproveOnce m name) t = IsSessionApproved m t)
  ∧ (∀ t, IsDangerous (ApproveOnce m name) t = IsDangerous m t)
  ∧ GetLevel (ApproveOnce m name) = GetLevel m
  ∧ GetSessionApprovedTools (ApproveOnce m name) = GetSessionApprovedTools m.
Proof. unfold ApproveOnce. repeat split. Qed.

(** By contrast [ApproveForSession] is observable under the session level. *)
Example approve_for_session_observable :
  let m := SetLevel (NewManager false) LevelSession in
  IsApproved m "shell" = false
  ∧ IsApproved (ApproveForSession m "shell") "shell" = true
  ∧ IsApproved (ApproveOnce m "shell") "shell" = false.
Proof. vm_compute. done. Qed.

End ApprovalSpec.

(** ** Backoff and the retry executor *)

Module RetrySpec.
Import Fmt Errors Float64 Retry.

Lemma wrap64_id z : MinInt64 ≤ z ≤ MaxInt64 → wrap64 z = z.
Proof.
  unfold wrap64, MinInt64, MaxInt64. intros H.
  rewrite Z.mod_small; lia.
Qed.

(** The two clamps at the end of [ExponentialBackoff] put every converted
    value into [[0, maxWait]]. *)
Lemma clamp_range wait maxWait :
  0 ≤ maxWait →
  let w1 := if maxWait <? wait then maxWait else wait in
  0 ≤ (if w1 <? 0 then 0 else w1) ≤ maxWait.
Proof.
  intros Hmax. simpl.
  destruct (maxWait <? wait) eqn:H1.
  - destruct (maxWait <? 0) eqn:H2; lia.
  - destruct (wait <? 0) eqn:H2; lia.
Qed.

(** Whatever the platform, the jitter and the random draw, a duration that
    [ExponentialBackoff] returns lies in [[0, maxWait]]. *)
Lemma backoff_range arch raw attempt initialWait maxWait base jitter w :
  0 ≤ maxWait →
  ExponentialBackoff arch raw attempt initialWait maxWait base jitter
  = Returns w →
  0 ≤ w ≤ maxWait.
Proof.
  intros Hmax. unfold ExponentialBackoff.
  destruct (0 <? jitter).
  - destruct (Int63n raw (wrap64 (2 * jitter))); [|discriminate].
    intros [= <-]. by apply clamp_range.
  - intros [= <-]. by apply clamp_range.
Qed.

(** [ExponentialBackoff] returns unless [2 * jitter] overflows [int64],
    which makes [rand.Int63n] panic. *)
Lemma backoff_returns arch raw attempt initialWait maxWait base jitter :
  jitter < 2 ^ 62 →
  ∃ waitTime,
    ExponentialBackoff arch raw attempt initialWait maxWait base jitter
    = Returns waitTime.
Proof.
  intros Hj. unfold ExponentialBackoff, Int63n.
  destruct (0 <? jitter) eqn:Hpos; [|eauto].
  apply Z.ltb_lt in Hpos.
  rewrite wrap64_id by (unfold MinInt64, MaxInt64; lia).
  destruct (2 * jitter <=? 0) eqn:Hle; [apply Z.leb_le in Hle; lia|eauto].
Qed.

(** Without jitter, and as long as the float product converts to an
    [int64] that is not negative, the result is the minimum of the product
    (rounded toward zero) and the cap, on every platform. *)
Lemma backoff_without_jitter arch raw attempt initialWait maxWait base v :
  0 ≤ maxWait →
  trunc (mul (of_int initialWait) (Pow base attempt)) = Some v →
  0 ≤ v ≤ MaxInt64 →
  ExponentialBackoff arch raw attempt initialWait maxWait base 0
  = Returns (Z.min v maxWait).
Proof.
  intros Hmax Htrunc Hv. unfold ExponentialBackoff, to_int64.
  cbn [Z.ltb Z.compare]. rewrite Htrunc.
  replace ((MinInt64 <=? v) && (v <=? MaxInt64)) with true
    by (symmetry; apply andb_true_iff; split; apply Z.leb_le;
        unfold MinInt64 in *; lia).
  f_equal. destruct (maxWait <? v) eqn:H1.
  - apply Z.ltb_lt in H1.
    replace (maxWait <? 0) with false by (symmetry; apply Z.ltb_ge; lia). lia.
  - apply Z.ltb_ge in H1.
    replace (v <? 0) with false by (symmetry; apply Z.ltb_ge; lia). lia.
Qed.

(** The repository's own expectations ([TestExponentialBackoff], and
    scenario 5 of the specification: delays of 10ms and 20ms). *)
Example backoff_test_vectors :
  ExponentialBackoff amd64 0 0 (300 * Millisecond) (5 * Second) (of_int 2) 0
  = Returns (300 * Millisecond)
  ∧ ExponentialBackoff amd64 0 1 (300 * Millisecond) (5 * Second) (of_int 2) 0
    = Returns (600 * Millisecond)
  ∧ ExponentialBackoff amd64 0 10 (300 * Millisecond) (1 * Second) (of_int 2) 0
    = Returns (1 * Second)
  ∧ ExponentialBackoff amd64 0 0 (10 * Millisecond) (5 * Second) (of_int 2) 0
    = Returns (10 * Millisecond)
  ∧ ExponentialBackoff amd64 0 1 (10 * Millisecond) (5 * Second) (of_int 2) 0
    = Returns (20 * Millisecond).
Proof. vm_compute. done. Qed.

(** C5, at the input where the code leaves the claim.  With the default
    configuration (300ms, cap 5s, base 2, no jitter) and attempt 35 the
    product [300ms * 2^35] exceeds the largest [int64]; the conversion
    [time.Duration(backoff)] then yields [MinInt64] on amd64, the test
    [wait > maxWait] is not taken, the test [wait < 0] is, and the function
    returns 0 where the claim has [min(initial * base^attempt, max) = 5s].
    One attempt earlier, and on arm64 also at this one, it returns the
    cap. *)
Theorem backoff_overflow_returns_zero :
  ExponentialBackoff amd64 0 35 (300 * Millisecond) (5 * Second) (of_int 2) 0
  = Returns 0
  ∧ Z.min (300 * Millisecond * 2 ^ 35) (5 * Second) = 5 * Second
  ∧ MaxInt64 < 300 * Millisecond * 2 ^ 35
  ∧ to_int64 amd64 (mul (of_int (300 * Millisecond)) (Pow (of_int 2) 35))
    = MinInt64
  ∧ ExponentialBackoff amd64 0 34 (300 * Millisecond) (5 * Second) (of_int 2) 0
    = Returns (5 * Second)
  ∧ ExponentialBackoff arm64 0 35 (300 * Millisecond) (5 * Second) (of_int 2) 0
    = Returns (5 * Second).
Proof. vm_compute. done. Qed.

Section Exhaustion.
Context {E W : Type} `{!GoError E}.
Variable env : Env E W.
Variable cfg : RetryConfig.
Variable cb : Z → E → Z → W → W.

Hypothesis Hcb : onRetry env = Some cb.
Hypothesis Hctx : ∀ w, ctx_done env w = None.
Hypothesis Hwait : ∀ t w, (wait env t w).1 = None.
Hypothesis Hfail : ∀ w, ∃ e, (fn env w).1 = Some e ∧ retryable env e.
Hypothesis Hjitter : Jitter cfg < 2 ^ 62.

Lemma count_from_S a k : count_from a (S k) = a :: count_from (a + 1) k.
Proof.
  unfold count_from. simpl. rewrite Z.add_0_r. f_equal.
  rewrite <- seq_shift, <- list_fmap_compose.
  apply list_fmap_ext. intros _ i _. simpl. lia.
Qed.

(** The loop invariant: with [k] retries left the loop ends in the world of
    the specification's failing run, appends to the trace the calls of
    attempts [attempt .. MaxRetries] and the callbacks of attempts
    [attempt+1 .. MaxRetries], and gives up with the last error. *)
Lemma retry_loop_exhausts k : ∀ attempt lastErr w tr,
  attempt + Z.of_nat k = MaxRetries cfg →
  ∃ new e_last,
    retry_loop env cfg (S k) attempt lastErr w tr
    = (RMaxRetries (MaxRetries cfg) (Some e_last),
       RetryRun.failing_run env cfg cb k attempt w, new ++ tr)
    ∧ (fst <$> fn_calls (rev new)) = count_from attempt (S k)
    ∧ on_retry_attempts (rev new) = count_from (attempt + 1) k
    ∧ last (fn_calls (rev new)) = Some (MaxRetries cfg, Some e_last)
    ∧ retryable env e_last.
Proof.
  induction k as [|k IH]; intros attempt lastErr w tr Hk.
  - simpl. rewrite Hctx.
    destruct (Hfail w) as (e & He & Hr).
    destruct (fn env w) as [err w1]. simpl in He. subst err.
    pose proof Hr as Hr'. unfold retryable in Hr.
    assert (Hnr : match isRetryable env with
                  | Some p => negb (p e) | None => false end = false).
    { destruct (isRetryable env); [by rewrite Hr|done]. }
    rewrite Hnr.
    assert (Hlast : (MaxRetries cfg <=? attempt) = true)
      by (apply Z.leb_le; lia).
    rewrite Hlast.
    exists [CalledFn attempt (Some e)], e.
    assert (attempt = MaxRetries cfg) as Ha by lia.
    split; [done|]. split; [by rewrite count_from_S|].
    split; [done|]. split; [|done]. simpl. by rewrite Ha.
  - assert (Hworld : RetryRun.failing_run env cfg cb (S k) attempt w
                     = RetryRun.failing_run env cfg cb k (attempt + 1)
                         (RetryRun.failed_attempt env cfg cb attempt w))
      by reflexivity.
    rewrite Hworld. clear Hworld. unfold RetryRun.failed_attempt.
    remember (S k) as k' eqn:Hk'. simpl. subst k'. rewrite Hctx.
    destruct (Hfail w) as (e & He & Hr).
    destruct (fn env w) as [err w1]. simpl in He. subst err.
    unfold retryable in Hr.
    assert (Hnr : match isRetryable env with
                  | Some p => negb (p e) | None => false end = false).
    { destruct (isRetryable env); [by rewrite Hr|done]. }
    rewrite Hnr.
    assert (Hnl : (MaxRetries cfg <=? attempt) = false)
      by (apply Z.leb_gt; lia).
    rewrite Hnl.
    destruct (if 0 <? Jitter cfg then draw env w1 else (0, w1)) as [raw w2].
    destruct (backoff_returns (arch env) raw attempt (InitialWait cfg)
                (MaxWait cfg) (ExponentialBase cfg) (Jitter cfg) Hjitter)
      as [waitTime Hw].
    rewrite Hw, Hcb.
    pose proof (Hwait waitTime (cb (attempt + 1) e waitTime w2)) as Hnc.
    destruct (wait env waitTime _) as [c w3]. simpl in Hnc. subst c.
    cbn [snd].
    destruct (IH (attempt + 1) (Some e) w3
                (Waited waitTime :: CalledOnRetry (attempt + 1) e waitTime
                   :: CalledFn attempt (Some e) :: tr))
      as (new & e_last & Hrun & Hfn & Hor & Hl & Hre); [lia|].
    exists (new ++ [Waited waitTime; CalledOnRetry (attempt + 1) e waitTime;
                    CalledFn attempt (Some e)]), e_last.
    split.
    { rewrite Hrun. by rewrite <- app_assoc. }
    rewrite rev_app_distr.
    change (rev [Waited waitTime; CalledOnRetry (attempt + 1) e waitTime;
                 CalledFn attempt (Some e)] ++ rev new)
      with (CalledFn attempt (Some e)
            :: CalledOnRetry (attempt + 1) e waitTime
            :: Waited waitTime :: rev new).
    change (fn_calls (CalledFn attempt (Some e)
            :: CalledOnRetry (attempt + 1) e waitTime
            :: Waited waitTime :: rev new))
      with ((attempt, Some e) :: fn_calls (rev new)).
    change (on_retry_attempts (CalledFn attempt (Some e)
            :: CalledOnRetry (attempt + 1) e waitTime
            :: Waited waitTime :: rev new))
      with ((attempt + 1) :: on_retry_attempts (rev new)).
    rewrite fmap_cons, Hfn, Hor, (count_from_S attempt (S k)),
      (count_from_S (attempt + 1) k).
    split; [done|]. split; [done|]. split; [|done].
    destruct (fn_calls (rev new)); [done|exact Hl].
Qed.

End Exhaustion.

Lemma count_from_length a k : length (count_from a k) = k.
Proof. unfold count_from. by rewrite length_fmap, length_seq. Qed.

(** Where the backoff computation is defined, the executor does what the
    specification says of an operation that always fails: for a
    configuration with [MaxRetries = N >= 0] (or no configuration, which
    means the default one), a jitter below [2^62] nanoseconds, an operation
    that fails on every invocation with a retryable error and a context that
    is never cancelled, [ExecuteWithRetry] ends in the world of the
    specification's failing run ([N] times the operation, the callback with
    the 1-based number of the retry and the wait, then the operation once
    more), has invoked the operation at attempts [0..N] and [onRetry] with
    the numbers [1..N], and returns an error that wraps the error of the
    last invocation and whose text reports that max retries ([N]) were
    exceeded. *)
Lemma execute_with_retry_exhausts {E W : Type} `{!GoError E}
    (env : Env E W) (config : option RetryConfig)
    (cb : Z → E → Z → W → W) (w : W) :
  let cfg := default DefaultRetryConfig config in
  let N := MaxRetries cfg in
  0 ≤ N →
  Jitter cfg < 2 ^ 62 →
  onRetry env = Some cb →
  (∀ w, ctx_done env w = None) →
  (∀ t w, (wait env t w).1 = None) →
  (∀ w, ∃ e, (fn env w).1 = Some e ∧ retryable env e) →
  ∃ tr e_last,
    ExecuteWithRetry env config w
    = (RMaxRetries N (Some e_last),
       RetryRun.failing_run env cfg cb (Z.to_nat N) 0 w, tr)
    ∧ Z.of_nat (length (fn_calls tr)) = N + 1
    ∧ (fst <$> fn_calls tr) = count_from 0 (Z.to_nat (N + 1))
    ∧ last (fn_calls tr) = Some (N, Some e_last)
    ∧ Z.of_nat (length (on_retry_attempts tr)) = N
    ∧ on_retry_attempts tr = count_from 1 (Z.to_nat N)
    ∧ Result_Error (RMaxRetries N (Some e_last))
      = Some ("max retries (" +:+ d N +:+ ") exceeded: " +:+ Error e_last).
Proof.
  intros cfg N HN Hj Hcb Hctx Hwait Hfail.
  unfold ExecuteWithRetry. fold cfg.
  replace (Z.to_nat (MaxRetries cfg + 1)) with (S (Z.to_nat N))
    by (unfold N; lia).
  destruct (retry_loop_exhausts env cfg cb Hcb Hctx Hwait Hfail Hj
              (Z.to_nat N) 0 None w [])
    as (new & e_last & Hrun & Hfn & Hor & Hl & _); [unfold N; lia|].
  rewrite Hrun, app_nil_r.
  exists (rev new), e_last.
  split; [done|].
  assert (Hlen : length (fn_calls (rev new)) = S (Z.to_nat N)).
  { rewrite <- (length_fmap fst), Hfn. apply count_from_length. }
  split; [rewrite Hlen; lia|].
  split; [by replace (Z.to_nat (N + 1)) with (S (Z.to_nat N)) by lia|].
  split; [done|].
  split; [rewrite Hor, count_from_length; lia|].
  split; [done|]. done.
Qed.

(** [TestExecuteWithRetry_MaxRetriesExceeded] as an instance: two retries
    against an operation that always answers 503, on a world that records
    what reaches it (newest first). *)
Lemma execute_with_retry_exhausts_witness :
  ∃ tr e_last,
    ExecuteWithRetry Samples.recording_env (Some Demo.two_retries) []
    = (RMaxRetries 2 (Some e_last),
       [Samples.Invoked;
        Samples.Slept 15004242; Samples.Notified 2 15004242; Samples.Invoked;
        Samples.Slept 5004242; Samples.Notified 1 5004242; Samples.Invoked],
       tr)
    ∧ Z.of_nat (length (fn_calls tr)) = 2 + 1
    ∧ (fst <$> fn_calls tr) = count_from 0 (Z.to_nat (2 + 1))
    ∧ last (fn_calls tr) = Some (2, Some e_last)
    ∧ Z.of_nat (length (on_retry_attempts tr)) = 2
    ∧ on_retry_attempts tr = count_from 1 (Z.to_nat 2)
    ∧ Result_Error (RMaxRetries 2 (Some e_last))
      = Some ("max retries (" +:+ d 2 +:+ ") exceeded: " +:+ Error e_last).
Proof.
  apply (execute_with_retry_exhausts Samples.recording_env
           (Some Demo.two_retries) Samples.recording_callback []).
  - simpl. lia.
  - vm_compute. reflexivity.
  - reflexivity.
  - intros w. reflexivity.
  - intros t w. reflexivity.
  - intros w. exists Demo.unavailable. split; reflexivity.
Defined.

(** C3, at the input where the code leaves the claim.  A provider
    configuration with two retries and [jitter_ms = 4611686018428] passes
    [RetryConfigFromProvider], which checks every field but the jitter, and
    gives a jitter of at least [2^62] nanoseconds.  The operation answers 503
    every time and the context is never cancelled.  After the first
    invocation [int64(2*jitter)] has wrapped to a negative number and
    [rand.Int63n] panics: the operation has been invoked once where the
    claim has three invocations, [onRetry] not at all where the claim has
    two, and no error is returned where the claim has the one that reports
    the exceeded retries.  With [jitter_ms] one less the executor does what
    the claim says: three invocations, the callback for the retries 1 and 2
    before each wait, and that error. *)
Theorem execute_with_retry_jitter_overflow :
  MaxRetries (Samples.jittery 4611686018428) = 2
  ∧ 2 ^ 62 ≤ Jitter (Samples.jittery 4611686018428) ≤ MaxInt64
  ∧ (∀ w, (fn Samples.recording_env w).1 = Some Demo.unavailable)
  ∧ retryable Samples.recording_env Demo.unavailable
  ∧ (∀ w, ctx_done Samples.recording_env w = None)
  ∧ ExecuteWithRetry Samples.recording_env
      (Some (Samples.jittery 4611686018428)) []
    = (RPanic "invalid argument to Int63n",
       [Samples.Invoked],
       [CalledFn 0 (Some Demo.unavailable)])
  ∧ ExecuteWithRetry Samples.recording_env
      (Some (Samples.jittery 4611686018427)) []
    = (RMaxRetries 2 (Some Demo.unavailable),
       [Samples.Invoked;
        Samples.Slept 0; Samples.Notified 2 0; Samples.Invoked;
        Samples.Slept 0; Samples.Notified 1 0; Samples.Invoked],
       [CalledFn 0 (Some Demo.unavailable);
        CalledOnRetry 1 Demo.unavailable 0; Waited 0;
        CalledFn 1 (Some Demo.unavailable);
        CalledOnRetry 2 Demo.unavailable 0; Waited 0;
        CalledFn 2 (Some Demo.unavailable)])
  ∧ Result_Error (RMaxRetries 2 (Some Demo.unavailable))
    = Some "max retries (2) exceeded: API error (status 503): service unavailable".
Proof.
  split; [reflexivity|]. split; [by vm_compute|].
  split; [done|]. split; [reflexivity|]. split; [done|].
  split; [vm_compute; reflexivity|].
  split; vm_compute; reflexivity.
Qed.

End RetrySpec.
(** ** Truncation of tool output *)

Module ToolsSpec.
Import Fmt Tools.

(** *** Facts about byte strings *)

Lemma append_cons (c : Ascii.ascii) (a b : string) :
  String c a +:+ b = String c (a +:+ b).
Proof. reflexivity. Qed.

Lemma length_append (a b : string) :
  String.length (a +:+ b) = (String.length a + String.length b)%nat.
Proof.
  induction a as [|c a IH]; [done|].
  rewrite append_cons. simpl. by rewrite IH.
Qed.

Lemma substring_all (s : string) :
  String.substring 0 (String.length s) s = s.
Proof. induction s as [|c s IH]; simpl; [done|by rewrite IH]. Qed.

Lemma length_substring (s : string) : ∀ n m,
  (n + m ≤ String.length s)%nat →
  String.length (String.substring n m s) = m.
Proof.
  induction s as [|c s IH]; intros [|n] [|m] Hle; simpl in *;
    try done; try lia.
  - by rewrite IH by lia.
  - by rewrite IH by lia.
  - by rewrite IH by lia.
Qed.

Lemma substring_split (s : string) : ∀ n m k,
  (n + m ≤ String.length s)%nat →
  String.substring n m s +:+ String.substring (n + m) k s
  = String.substring n (m + k) s.
Proof.
  induction s as [|c s IH]; intros n m k Hle.
  - destruct n, m, k; simpl in *; try done; lia.
  - destruct n as [|n].
    + destruct m as [|m]; simpl in *.
      * by destruct k.
      * rewrite append_cons. f_equal. apply (IH 0%nat m k). lia.
    + simpl in *. apply (IH n m k). lia.
Qed.

(** *** What [truncateText] leaves alone *)

Section WithinBounds.
Variable text : string.
Variables maxTotal maxLine : Z.
Hypothesis Htotal : len text ≤ maxTotal.

(** The loop invariant while nothing is cut: the output so far is the text
    up to the start of the current line, and the count agrees with it. *)
Lemma truncate_loop_within_bounds (rest : string) : ∀ (i ls : nat) cur,
  (i + String.length rest = String.length text)%nat →
  (ls ≤ i)%nat →
  String.length cur = (i - ls)%nat →
  Forall (λ l, len l ≤ maxLine) (lines_from cur rest) →
  truncate_loop text maxTotal maxLine rest (Z.of_nat i)
    {| result := String.substring 0 ls text; totalLen := Z.of_nat ls;
       lineStart := Z.of_nat ls; truncated := false |}
  = Returns {| result := text; totalLen := len text;
               lineStart := len text + 1; truncated := false |}.
Proof.
  induction rest as [|c rest IH]; intros i ls cur Hi Hls Hcur Hlines.
  - simpl in Hi, Hlines. apply Forall_inv in Hlines.
    unfold len in Hlines, Htotal. rewrite Hcur in Hlines.
    assert (Hend : i = String.length text) by lia. subst i.
    simpl. unfold line_end, len, slice. cbn [lineStart totalLen result truncated].
    rewrite !Nat2Z.id.
    replace (Z.to_nat (Z.of_nat (String.length text) - Z.of_nat ls))
      with (String.length text - ls)%nat by lia.
    rewrite length_substring by lia.
    rewrite Z.ltb_irrefl.
    replace (maxLine <? Z.of_nat (String.length text - ls)) with false
      by (symmetry; apply Z.ltb_ge; lia).
    replace (maxTotal <? Z.of_nat ls + Z.of_nat (String.length text - ls))
      with false by (symmetry; apply Z.ltb_ge; lia).
    cbn [andb].
    replace (Z.to_nat (Z.of_nat (String.length text) - Z.of_nat ls))
      with (String.length text - ls)%nat by lia.
    pose proof (substring_split text 0 ls (String.length text - ls)) as Hs.
    cbn [Nat.add] in Hs. rewrite Hs by lia.
    replace (ls + (String.length text - ls))%nat with (String.length text)
      by lia.
    rewrite substring_all.
    do 2 f_equal. lia.
  - simpl in Hi. cbn [truncate_loop].
    destruct (Ascii.eqb c newline) eqn:Hc.
    + simpl in Hlines. rewrite Hc in Hlines.
      apply Forall_cons in Hlines as [Hcur_ok Hrest].
      unfold len in Hcur_ok, Htotal. rewrite Hcur in Hcur_ok.
      unfold line_end, len, slice.
      cbn [lineStart totalLen result truncated].
      rewrite !Nat2Z.id.
      replace (Z.to_nat (Z.of_nat i - Z.of_nat ls)) with (i - ls)%nat by lia.
      rewrite length_substring by lia.
      replace (Z.of_nat i <? Z.of_nat (String.length text)) with true
        by (symmetry; apply Z.ltb_lt; lia).
      replace (maxLine <? Z.of_nat (i - ls)) with false
        by (symmetry; apply Z.ltb_ge; lia).
      replace (maxTotal <? Z.of_nat ls + Z.of_nat (i - ls)) with false
        by (symmetry; apply Z.ltb_ge; lia).
      replace (Z.of_nat (i - ls) <=? maxLine) with true
        by (symmetry; apply Z.leb_le; lia).
      cbn [andb].
      replace (Z.to_nat (Z.of_nat i + 1 - Z.of_nat ls))
        with (i + 1 - ls)%nat by lia.
      pose proof (substring_split text 0 ls (i + 1 - ls)) as Hs.
      cbn [Nat.add] in Hs. rewrite Hs by lia.
      replace (ls + (i + 1 - ls))%nat with (S i) by lia.
      replace (Z.of_nat ls + Z.of_nat (i - ls) + 1) with (Z.of_nat (S i))
        by lia.
      replace (Z.of_nat i + 1) with (Z.of_nat (S i)) by lia.
      apply (IH (S i) (S i) ""); [lia|lia|simpl; lia|exact Hrest].
    + simpl in Hlines. rewrite Hc in Hlines.
      replace (Z.of_nat i + 1) with (Z.of_nat (S i)) by lia.
      apply (IH (S i) ls (cur +:+ String c "")); [lia|lia| |exact Hlines].
      rewrite length_append. simpl. lia.
Qed.

End WithinBounds.

(** The first part of C6: a text within both bounds is returned unchanged
    ([len(t) <= total] and every line of [t] at most [line] bytes long). *)
Lemma truncate_text_within_bounds (text : string) (maxTotal maxLine : Z) :
  len text ≤ maxTotal →
  Forall (λ l, len l ≤ maxLine) (lines text) →
  truncateText text maxTotal maxLine = Returns text.
Proof.
  intros Htotal Hlines. unfold truncateText.
  destruct ((len text <=? maxTotal) && (maxLine <=? 0)) eqn:Hearly; [done|].
  pose proof (truncate_loop_within_bounds text maxTotal maxLine Htotal
                text 0%nat 0%nat "") as Hloop.
  replace (String.substring 0 0 text) with "" in Hloop
    by (by destruct text).
  change (Z.of_nat 0) with 0 in Hloop.
  rewrite Hloop; [done|simpl; lia|lia|done|exact Hlines].
Qed.

(** The second part of C6: the empty text gives the empty text (for a total
    limit that is not negative). *)
Lemma truncate_text_empty (maxTotal maxLine : Z) :
  0 ≤ maxTotal → truncateText "" maxTotal maxLine = Returns "".
Proof.
  intros Htotal. unfold truncateText.
  destruct ((len "" <=? maxTotal) && (maxLine <=? 0)) eqn:Hearly; [done|].
  assert (Hline : 0 < maxLine).
  { apply andb_false_iff in Hearly as [Hf|Hf]; apply Z.leb_gt in Hf;
      [change (len "") with 0 in Hf; lia|lia]. }
  cbn [truncate_loop]. unfold line_end, slice.
  cbn [lineStart totalLen result truncated].
  change (String.substring (Z.to_nat 0) (Z.to_nat (0 - 0)) "") with "".
  change (len "") with 0.
  replace (maxLine <? 0) with false by (symmetry; apply Z.ltb_ge; lia).
  replace (maxTotal <? 0 + 0) with false by (symmetry; apply Z.ltb_ge; lia).
  reflexivity.
Qed.

(** The cases of [TestTruncateText] and [TestTruncateTextTotalLimit]. *)
Example truncate_text_test_vectors :
  truncateText "short text" 100 50 = Returns "short text"
  ∧ truncateText (repeat_byte byte_x 3000) 50000 2000
    = Returns (repeat_byte byte_x 2000 +:+ trailer)
  ∧ truncateText "" 100 50 = Returns ""
  ∧ truncateText (repeat_byte byte_x 100) 100 2000
    = Returns (repeat_byte byte_x 100)
  ∧ returned_len
      (truncateText
         (repeat_string (repeat_byte byte_x 1000 +:+ String newline "") 99
          +:+ repeat_byte byte_x 1000) 50000 2000)
    = Some (50000 + len trailer).
Proof. vm_compute. done. Qed.

(** The same defect at a size one can read: the line [abc] fills the total
    of 3, its newline is appended all the same, and the output is one byte
    longer than [total + len(trailer)]. *)
Example truncate_text_small_overrun :
  truncateText ("abc" +:+ String newline "d") 3 10
  = Returns ("abc" +:+ String newline "" +:+ trailer)
  ∧ len ("abc" +:+ String newline "" +:+ trailer) = 3 + len trailer + 1.
Proof. vm_compute. done. Qed.

(** A line that is cut adds a newline that is not counted at all: two cut
    lines put the output two bytes over the bound. *)
Example truncate_text_uncounted_newlines :
  returned_len
    (truncateText ("abcd" +:+ String newline "efgh" +:+ String newline "ij")
       4 2)
  = Some (4 + len trailer + 2).
Proof. vm_compute. done. Qed.

(** C6, at the input where the code leaves the claim.  The text has 50002
    bytes in 26 lines, none longer than 2000 bytes, so it is over the total
    limit only; truncation happens and the output ends with the trailer, but
    it has 50024 bytes, one more than [total + len(trailer) = 50023]: the
    25th line ends exactly at the limit and its newline is appended without
    being checked against it.  [TruncateForLLM] passes the overrun on. *)
Theorem truncate_text_exceeds_total_bound :
  len text_50002 = 50002
  ∧ forallb (λ l, len l <=? MaxToolOutputLineChars) (lines text_50002) = true
  ∧ returned_len
      (truncateText text_50002 MaxToolOutputTotalChars MaxToolOutputLineChars)
    = Some 50024
  ∧ MaxToolOutputTotalChars + len trailer = 50023
  ∧ ends_with_trailer
      (truncateText text_50002 MaxToolOutputTotalChars MaxToolOutputLineChars)
    = true
  ∧ match TruncateForLLM
            (Some {| CallID := "c1"; Success := true; Result := text_50002;
                     Error := "" |}) with
    | Returns (Some tr) => len (Result tr)
    | _ => 0
    end = 50024.
Proof. vm_compute. done. Qed.

End ToolsSpec.

(** ** The shell tool *)

Module ShellSpec.
Import Fmt Retry Shell.

(** [Execute] returns a Go error exactly when the arguments do not decode or
    the command is blank; otherwise the command is run and a result is
    returned. *)
Lemma execute_error_iff {W} (os : OS W) (t : ShellTool) (args : string) (w : W) :
  failed (Execute os t args w).1 = true
  ↔ (∃ err, Unmarshal os args = inl err)
    ∨ (∃ params, Unmarshal os args = inr params
                 ∧ blank (Command params) = true).
Proof.
  unfold Execute.
  destruct (Unmarshal os args) as [err|params] eqn:Hu.
  - simpl. split; [eauto|done].
  - destruct (blank (Command params)) eqn:Hb.
    + simpl. split; [eauto|done].
    + destruct (CombinedOutput os _ _ _ w) as [run w']. simpl.
      split; [done|]. intros [[err [=]]|(p & [= <-] & Hp)]. congruence.
Qed.

(** A command that ran and exited with a code is reported through the
    result: no Go error, [Success = false], the exit code and the captured
    standard error. *)
Lemma execute_exit_code {W} (os : OS W) (t : ShellTool) (args : string)
    (w : W) params :
  Unmarshal os args = inr params →
  blank (Command params) = false →
  ∀ out code stderr c w',
    CombinedOutput os (workDir t) (Command params)
      (if 0 <? Timeout params then Float64.wrap64 (Timeout params * Second)
       else timeout t) w
    = ({| output := out; run_err := ExitError code stderr; ctx_err := c |}, w') →
    Execute os t args w
    = (inl {| Success := false; Stdout := out; Stderr := stderr;
              ExitCode := code; Error := "" |}, w').
Proof.
  intros Hu Hb out code stderr c w' Hrun.
  unfold Execute. rewrite Hu, Hb, Hrun. reflexivity.
Qed.

(** The branch that writes ["command timed out"] is reached only by an error
    that is not an exit error. *)
Lemma execute_timed_out_branch {W} (os : OS W) (t : ShellTool)
    (args : string) (w : W) params :
  Unmarshal os args = inr params →
  blank (Command params) = false →
  ∀ out msg w',
    CombinedOutput os (workDir t) (Command params)
      (if 0 <? Timeout params then Float64.wrap64 (Timeout params * Second)
       else timeout t) w
    = ({| output := out; run_err := OtherError msg;
          ctx_err := Some DeadlineExceeded |}, w') →
    Execute os t args w
    = (inl {| Success := false; Stdout := out; Stderr := "";
              ExitCode := -1; Error := "command timed out" |}, w').
Proof.
  intros Hu Hb out msg w' Hrun.
  unfold Execute. rewrite Hu, Hb, Hrun. reflexivity.
Qed.

(** C10, at the input where the code leaves the claim.  The command
    [sleep 10] runs into its deadline: the process is killed, the error of
    [CombinedOutput] is an exit error (a killed process has [ExitCode()]
    -1), and [execCtx.Err()] is [context.DeadlineExceeded].  [Execute]
    returns no Go error and [Success = false], as claimed, but it takes the
    exit-error branch, which is tested first: [Error] stays empty where the
    claim has ["command timed out"]. *)
Theorem shell_deadline_takes_exit_branch :
  Execute Demo.killed_at_deadline (NewShellTool "/tmp" Millisecond)
    Demo.sleep_args tt
  = (inl {| Success := false; Stdout := ""; Stderr := ""; ExitCode := -1;
            Error := "" |}, tt)
  ∧ blank Demo.sleep_10 = false.
Proof. vm_compute. done. Qed.

End ShellSpec.

(** ** The turn loop *)

Module SoulSpec.
Import Fmt Soul.

Section Traces.
Context {W : Type} `{!Strconv}.
Implicit Types (s : Soul W) (st : State W) (ev : Event).

Lemma adds_refl P st : adds P st st.
Proof. exists []. by split. Qed.

Lemma adds_trans P st1 st2 st3 :
  adds P st1 st2 → adds P st2 st3 → adds P st1 st3.
Proof.
  intros (n1 & H1 & F1) (n2 & H2 & F2). exists (n2 ++ n1).
  split; [by rewrite H2, H1, app_assoc|]. by apply Forall_app.
Qed.

Lemma adds_record P ev w st : P ev → adds P st (record ev w st).
Proof. intros HP. exists [ev]. split; [done|]. by constructor. Qed.

Lemma adds_same_trace P st st' : trace st' = trace st → adds P st st'.
Proof. intros Htr. exists []. by split. Qed.

Lemma adds_on_message s m st : adds tool_round st (on_message s m st).
Proof.
  unfold on_message. destruct (OnMessage s); [|apply adds_refl].
  by apply adds_record.
Qed.

Lemma adds_on_tool_call s tc st : adds tool_round st (on_tool_call s tc st).
Proof.
  unfold on_tool_call. destruct (OnToolCall s); [|apply adds_refl].
  by apply adds_record.
Qed.

Lemma adds_on_tool_result s r st : adds tool_round st (on_tool_result s r st).
Proof.
  unfold on_tool_result. destruct (OnToolResult s); [|apply adds_refl].
  by apply adds_record.
Qed.

Lemma adds_save s st : adds tool_round st (save s st).
Proof.
  unfold save. destruct (modified (context st)); [|apply adds_refl].
  destruct (WriteFile _ _ _ _) as [[e|] w].
  - by apply adds_record.
  - eapply adds_trans;
      [by apply (adds_record _ (ContextSaved (filePath (context st))) w)|].
    by apply adds_same_trace.
Qed.

(** [executeToolCall] never returns a Go error, and only adds the execution
    of the tool to the trace. *)
Lemma executeToolCall_nil_error s call st :
  ∃ r st', executeToolCall s call st = (r, None, st')
           ∧ adds tool_round st st'.
Proof.
  unfold executeToolCall.
  destruct (ToolSet.Get _ _) as [tool|err].
  - destruct (ToolSet.Execute tool _ _) as [[json|err] w];
      eexists _, _; (split; [reflexivity|by apply adds_record]).
  - eexists _, _. split; [reflexivity|apply adds_refl].
Qed.

(** One pass of the tool loop always runs to its end. *)
Lemma call_tool_completes s tc messages st :
  ∃ messages' st', call_tool s tc messages st = (None, messages', st')
                   ∧ adds tool_round st st'.
Proof.
  unfold call_tool.
  set (toolCall := {| Tools.ID := _ |}).
  set (st1 := on_tool_call s toolCall st).
  set (tcMsg := text_message s _ _ st1).
  set (st2 := on_message s tcMsg (add_message tcMsg st1)).
  destruct (executeToolCall_nil_error s toolCall st2) as (r & st3 & Hx & H3).
  rewrite Hx. eexists _, _. split; [reflexivity|].
  eapply adds_trans; [apply adds_on_tool_call|]. fold st1.
  eapply adds_trans; [by apply (adds_same_trace _ st1 (add_message tcMsg st1))|].
  eapply adds_trans; [apply adds_on_message|]. fold st2.
  eapply adds_trans; [exact H3|].
  eapply adds_trans; [apply adds_on_tool_result|].
  eapply adds_trans; [|apply adds_on_message].
  by apply adds_same_trace.
Qed.

Lemma call_tools_completes s tcs : ∀ messages st,
  ∃ messages' st', call_tools s tcs messages st = (None, messages', st')
                   ∧ adds tool_round st st'.
Proof.
  induction tcs as [|tc tcs IH]; intros messages st.
  - eexists _, _. split; [reflexivity|apply adds_refl].
  - simpl.
    destruct (call_tool_completes s tc messages st) as (m1 & st1 & H1 & A1).
    rewrite H1.
    destruct (IH m1 st1) as (m2 & st2 & H2 & A2).
    rewrite H2. eexists _, _. split; [reflexivity|].
    by eapply adds_trans.
Qed.

Lemma chat_calls_app (new old : list Event) :
  chat_calls (new ++ old) = (chat_calls new + chat_calls old)%nat.
Proof. unfold chat_calls. by rewrite filter_app, length_app. Qed.

Lemma chat_calls_tool_round (new : list Event) :
  Forall tool_round new → chat_calls new = O.
Proof.
  unfold chat_calls. induction 1 as [|ev l [Hc _] _ IH]; [done|].
  rewrite filter_cons. destruct (decide (is_chat ev)) as [Ht|_]; [|done].
  rewrite Hc in Ht. done.
Qed.

Lemma adds_tool_round_chat_calls st st' :
  adds tool_round st st' → chat_calls (trace st') = chat_calls (trace st).
Proof.
  intros (new & -> & F). by rewrite chat_calls_app, chat_calls_tool_round.
Qed.

(** When every response asks for tools the loop uses up its steps: exactly
    [steps] chat calls, then the error that names [MaxSteps]. *)
Lemma agent_loop_exhausts s client toolDefs steps :
  always_tool_calls client →
  ∀ messages st,
    (agent_loop s client toolDefs steps messages st).1
    = Some (errorString ("agent loop exceeded maximum steps ("
                         +:+ d (MaxSteps (runtime s)) +:+ ")"))
    ∧ chat_calls (trace (agent_loop s client toolDefs steps messages st).2)
      = (chat_calls (trace st) + steps)%nat.
Proof.
  intros Hall.
  induction steps as [|steps IH]; intros messages st.
  - simpl. split; [done|lia].
  - simpl.
    destruct (Hall messages toolDefs (world st))
      as (resp & w & choice & rest & tc & tcs & Hchat & Hch & Htcs).
    rewrite Hchat, Hch, Htcs. rewrite <- Htcs.
    set (assistantMsg := LLM.choice_Message choice).
    set (st1 := record (ChatCalled messages toolDefs) w st).
    set (st2 := append_history assistantMsg st1).
    destruct (call_tools_completes s (LLM.ToolCalls assistantMsg)
                (messages ++ [assistantMsg]) st2)
      as (m3 & st3 & Hct & A3).
    rewrite Hct.
    destruct (IH m3 st3) as [E4 C4].
    split; [exact E4|].
    rewrite C4, (adds_tool_round_chat_calls st2 st3 A3).
    change (chat_calls (trace st2)) with (S (chat_calls (trace st))). lia.
Qed.

End Traces.

Section World.
Context {W : Type} `{!Strconv}.
Variable s : Soul W.
Variable requests : W → nat.
Hypothesis Hleaves : SoulTrace.leaves_requests s requests.
Implicit Types (st : State W).

Lemma on_message_leaves_requests m st :
  requests (world (on_message s m st)) = requests (world st).
Proof.
  destruct Hleaves as (Hm & _). unfold on_message.
  destruct (OnMessage s) as [h|] eqn:Hh; [|done].
  exact (Hm h m (world st) eq_refl).
Qed.

Lemma on_tool_call_leaves_requests tc st :
  requests (world (on_tool_call s tc st)) = requests (world st).
Proof.
  destruct Hleaves as (_ & Htc & _). unfold on_tool_call.
  destruct (OnToolCall s) as [h|] eqn:Hh; [|done].
  exact (Htc h tc (world st) eq_refl).
Qed.

Lemma on_tool_result_leaves_requests r st :
  requests (world (on_tool_result s r st)) = requests (world st).
Proof.
  destruct Hleaves as (_ & _ & Hr & _). unfold on_tool_result.
  destruct (OnToolResult s) as [h|] eqn:Hh; [|done].
  exact (Hr h r (world st) eq_refl).
Qed.

Lemma save_leaves_requests st :
  requests (world (save s st)) = requests (world st).
Proof.
  destruct Hleaves as (_ & _ & _ & _ & Hw). unfold save.
  destruct (modified (context st)); [|done].
  pose proof (Hw (filePath (context st)) (messages (context st)) (world st))
    as Hfile.
  by destruct (WriteFile _ _ _ _) as [[e|] w].
Qed.

Lemma executeToolCall_leaves_requests call st :
  requests (world (executeToolCall s call st).2) = requests (world st).
Proof.
  destruct Hleaves as (_ & _ & _ & Hx & _).
  unfold executeToolCall, ToolSet.Get.
  destruct (Tools (runtime s) !! Tools.Name call) as [tool|] eqn:Htool;
    [|done].
  pose proof (Hx _ tool (Tools.Arguments call) (world st) Htool) as Hrun.
  by destruct (ToolSet.Execute tool _ _) as [[json|err] w].
Qed.

Lemma call_tool_leaves_requests tc messages st :
  requests (world (call_tool s tc messages st).2) = requests (world st).
Proof.
  unfold call_tool.
  set (toolCall := {| Tools.ID := _ |}).
  set (st1 := on_tool_call s toolCall st).
  set (tcMsg := text_message s _ _ st1).
  set (st2 := on_message s tcMsg (add_message tcMsg st1)).
  assert (H2 : requests (world st2) = requests (world st)).
  { unfold st2. rewrite on_message_leaves_requests.
    apply on_tool_call_leaves_requests. }
  pose proof (executeToolCall_leaves_requests toolCall st2) as Hx.
  destruct (executeToolCall s toolCall st2) as [[r [e|]] st3];
    cbn [snd] in *.
  - by rewrite Hx.
  - rewrite on_message_leaves_requests.
    cbn [add_message set_context append_history world].
    by rewrite on_tool_result_leaves_requests, Hx.
Qed.

Lemma call_tools_leaves_requests tcs : ∀ messages st,
  requests (world (call_tools s tcs messages st).2) = requests (world st).
Proof.
  induction tcs as [|tc tcs IH]; intros messages st; [done|].
  simpl. pose proof (call_tool_leaves_requests tc messages st) as H1.
  destruct (call_tool s tc messages st) as [[[e|] m1] st1]; cbn [snd] in *;
    [done|].
  by rewrite IH.
Qed.

Variable client : LLMClient W.
Hypothesis Hcounts : SoulTrace.counts_requests client requests.

(** Every run of the loop sends the LLM at most [steps] requests, as many
    as the trace has chat calls. *)
Lemma agent_loop_requests_bound toolDefs steps : ∀ messages st,
  let st' := (agent_loop s client toolDefs steps messages st).2 in
  (requests (world st) ≤ requests (world st') ≤ requests (world st) + steps)%nat
  ∧ (chat_calls (trace st') + requests (world st)
     = chat_calls (trace st) + requests (world st'))%nat.
Proof.
  induction steps as [|steps IH]; intros messages st; [simpl; lia|].
  simpl.
  pose proof (Hcounts messages toolDefs (world st)) as Hreq.
  destruct (ChatWithTools client messages toolDefs (world st))
    as [resp w] eqn:Hchat.
  cbn [snd] in Hreq.
  set (st1 := record (ChatCalled messages toolDefs) w st).
  assert (W1 : requests (world st1) = S (requests (world st))) by exact Hreq.
  assert (T1 : chat_calls (trace st1) = S (chat_calls (trace st)))
    by reflexivity.
  destruct resp as [resp|err]; [|cbn [snd]; lia].
  destruct (LLM.Choices resp) as [|choice rest]; [cbn [snd]; lia|].
  set (assistantMsg := LLM.choice_Message choice).
  set (st2 := append_history assistantMsg st1).
  destruct (LLM.ToolCalls assistantMsg) as [|tc tcs] eqn:Htcs.
  - cbn [snd].
    set (response := text_message s _ _ st2).
    set (st3 := on_message s response (add_message response st2)).
    assert (A3 : adds tool_round st1 (save s st3)).
    { eapply adds_trans; [|apply adds_save].
      eapply adds_trans; [|apply adds_on_message].
      by apply adds_same_trace. }
    rewrite (adds_tool_round_chat_calls _ _ A3), T1.
    rewrite save_leaves_requests. unfold st3.
    rewrite on_message_leaves_requests.
    change (world (add_message response st2)) with (world st1).
    lia.
  - pose proof (call_tools_leaves_requests (tc :: tcs)
                  (messages ++ [assistantMsg]) st2) as W3.
    destruct (call_tools_completes s (tc :: tcs)
                (messages ++ [assistantMsg]) st2)
      as (m3 & st3 & Hct & A3).
    rewrite Hct in W3 |- *. cbn [snd] in W3.
    change (world st2) with (world st1) in W3.
    pose proof (adds_tool_round_chat_calls st2 st3 A3) as T3.
    change (chat_calls (trace st2)) with (chat_calls (trace st1)) in T3.
    destruct (IH m3 st3) as [Hle Heq]. lia.
Qed.

(** When every response asks for tools the loop sends exactly [steps]
    requests. *)
Lemma agent_loop_requests_exact toolDefs steps :
  always_tool_calls client →
  ∀ messages st,
    requests (world (agent_loop s client toolDefs steps messages st).2)
    = (requests (world st) + steps)%nat.
Proof.
  intros Hall.
  induction steps as [|steps IH]; intros messages st; [simpl; lia|].
  simpl.
  pose proof (Hcounts messages toolDefs (world st)) as Hreq.
  destruct (Hall messages toolDefs (world st))
    as (resp & w & choice & rest & tc & tcs & Hchat & Hch & Htcs).
  rewrite Hchat in Hreq |- *. cbn [snd] in Hreq.
  rewrite Hch, Htcs. rewrite <- Htcs.
  set (assistantMsg := LLM.choice_Message choice).
  set (st1 := record (ChatCalled messages toolDefs) w st).
  set (st2 := append_history assistantMsg st1).
  pose proof (call_tools_leaves_requests (LLM.ToolCalls assistantMsg)
                (messages ++ [assistantMsg]) st2) as W3.
  destruct (call_tools_completes s (LLM.ToolCalls assistantMsg)
              (messages ++ [assistantMsg]) st2)
    as (m3 & st3 & Hct & _).
  rewrite Hct in W3 |- *. cbn [snd] in W3.
  change (world st2) with w in W3.
  rewrite IH, W3, Hreq. lia.
Qed.

End World.

(** C8 as amended.  The number of requests that reach the LLM during a turn
    is read off the outside world by an observation [requests] that every
    [ChatWithTools] call of the client increases by one and that nothing
    else the soul calls changes.  A turn sends at most [max(0, MaxSteps)]
    requests, as many as its trace has chat calls; and if every LLM response
    contains tool calls, it sends exactly [max(0, MaxSteps)] requests and
    then returns the error whose message names the configured bound,
    ["agent loop exceeded maximum steps (MaxSteps)"].  [MaxSteps] is any
    integer: the entry point copies it from the configuration unchecked. *)
Theorem max_steps_bounds_chat_calls {W : Type} `{!Strconv}
    (s : Soul W) (client : LLMClient W) (requests : W → nat)
    (userMsg : Wire.Message) (st : State W) :
  runtime_LLMClient (runtime s) = Some client →
  SoulTrace.counts_requests client requests →
  SoulTrace.leaves_requests s requests →
  let run := processWithLLM s userMsg st in
  let sent := Z.of_nat (requests (world run.2))
              - Z.of_nat (requests (world st)) in
  0 ≤ sent ≤ Z.max 0 (MaxSteps (runtime s))
  ∧ Z.of_nat (chat_calls (trace run.2)) - Z.of_nat (chat_calls (trace st))
    = sent
  ∧ (always_tool_calls client →
     sent = Z.max 0 (MaxSteps (runtime s))
     ∧ run.1
       = Some (errorString ("agent loop exceeded maximum steps ("
                            +:+ d (MaxSteps (runtime s)) +:+ ")"))).
Proof.
  intros Hclient Hcounts Hleaves run sent. unfold sent, run, processWithLLM.
  rewrite Hclient.
  set (st0 := append_history _ st).
  destruct (agent_loop_requests_bound s requests Hleaves client Hcounts
              (buildToolDefs s) (Z.to_nat (MaxSteps (runtime s)))
              (buildLLMMessages s st0) st0) as [Hle Heq].
  change (world st0) with (world st) in Hle, Heq.
  change (trace st0) with (trace st) in Heq.
  split; [lia|]. split; [lia|].
  intros Hall.
  pose proof (agent_loop_requests_exact s requests Hleaves client Hcounts
                (buildToolDefs s) (Z.to_nat (MaxSteps (runtime s))) Hall
                (buildLLMMessages s st0) st0) as Hex.
  change (world st0) with (world st) in Hex.
  destruct (agent_loop_exhausts s client (buildToolDefs s)
              (Z.to_nat (MaxSteps (runtime s))) Hall
              (buildLLMMessages s st0) st0) as [Herr _].
  split; [lia|exact Herr].
Qed.


Import Demo.

Lemma insisting_client_always_tool_calls :
  always_tool_calls Samples.insisting_client.
Proof. intros messages tools w. by eexists _, _, _, _, _, _. Qed.

Lemma recording_soul_leaves_requests client maxSteps :
  SoulTrace.leaves_requests (Samples.recording_soul client maxSteps)
    Samples.requests.
Proof.
  split; [by intros h m w [= <-]|].
  split; [by intros h tc w [= <-]|].
  split; [by intros h r w [= <-]|].
  split; [|done].
  intros name tool args w Htool.
  cbn [Samples.recording_soul runtime Tools] in Htool.
  apply lookup_insert_Some in Htool as [[_ <-]|[_ Htool]]; [done|].
  by rewrite lookup_empty in Htool.
Qed.

(** The witness: [TestSoul_ProcessWithLLM_MaxSteps], a client that always
    asks for the shell tool, with [MaxSteps = 3], on a world that records
    what reaches it.  Three requests reach the LLM, of 2, 4 and 6 messages
    (every one carries the call and the result of the rounds before), and
    the shell tool runs three times. *)
Lemma max_steps_bounds_chat_calls_witness :
  let s := Samples.recording_soul Samples.insisting_client 3 in
  let run := processWithLLM s (Demo.user_input "loop") Samples.untouched in
  (Z.of_nat (Samples.requests (world run.2))
   - Z.of_nat (Samples.requests (world Samples.untouched))
   = Z.max 0 3
   ∧ run.1 = Some (errorString "agent loop exceeded maximum steps (3)"))
  ∧ Samples.request_sizes (world run.2) = [2; 4; 6]%nat
  ∧ Samples.shell_runs (world run.2) = ["{}"; "{}"; "{}"].
Proof.
  intros s run. split.
  - destruct (max_steps_bounds_chat_calls s Samples.insisting_client
                Samples.requests (Demo.user_input "loop") Samples.untouched)
      as (_ & _ & Hex).
    + reflexivity.
    + intros ms tools w. reflexivity.
    + apply recording_soul_leaves_requests.
    + exact (Hex insisting_client_always_tool_calls).
  - split; vm_compute; reflexivity.
Defined.

(** C8 as stated fails for a negative bound, which the entry point accepts
    from the configuration ([max_steps_per_turn = -1]).  Every response of
    the client asks for a tool, the turn ends with the error that names the
    bound, and no request has reached the LLM: that is neither at most nor
    exactly [MaxSteps] chat calls. *)
Lemma negative_max_steps_sends_nothing :
  let s := Samples.recording_soul Samples.insisting_client (-1) in
  let run := processWithLLM s (Demo.user_input "loop") Samples.untouched in
  always_tool_calls Samples.insisting_client
  ∧ run.1 = Some (errorString "agent loop exceeded maximum steps (-1)")
  ∧ world run.2 = []
  ∧ chat_calls (trace run.2) = O
  ∧ ¬ (Z.of_nat (Samples.requests (world run.2)) ≤ MaxSteps (runtime s))
  ∧ Z.of_nat (Samples.requests (world run.2)) ≠ MaxSteps (runtime s).
Proof.
  intros s run.
  split; [exact insisting_client_always_tool_calls|].
  split; [vm_compute; reflexivity|].
  split; [vm_compute; reflexivity|].
  assert (Hnone : Samples.requests (world run.2) = O)
    by (vm_compute; reflexivity).
  rewrite Hnone. change (MaxSteps (runtime s)) with (-1).
  split; [reflexivity|]. lia.
Qed.

(** C1, at the input where the code leaves the claim.
    [TestSoul_ProcessWithLLM_ToolCall] on a world that records what reaches
    it: a runtime that was not started with [--yolo], whose approval manager
    therefore approves no tool name, and an LLM that asks for the shell tool
    (call [c1]) on its first request and answers in text on the second.  The
    turn ends without error.  What reached the outside, in order: the first
    request; the announcement of the call; the shell tool, run with the
    arguments of the call; its own result, reported as a success and sent
    back to the LLM in the second request; the answer; the saved context.
    Nothing asked for approval and nothing waited for a decision, the
    result the claim has for a denied call was never reported, and the gate
    of the claim, read on the trace of the turn, is not respected. *)
Theorem approval_gate_not_respected :
  let s := Samples.recording_soul Samples.recording_client 10 in
  let run := processWithLLM s (user_input "hi") Samples.untouched in
  YOLO (runtime s) = false
  ∧ Approval.IsApproved (Approval.NewManager (YOLO (runtime s))) "shell"
    = false
  ∧ run.1 = None
  ∧ rev (world run.2)
    = [Samples.Requested
         [Demo.msg "system" "You are a test assistant."; Demo.msg "user" "hi"];
       Samples.ToolCallShown {| Tools.ID := "c1"; Tools.Name := "shell";
                                Tools.Arguments := "{}" |};
       Samples.MessageShown Wire.MessageTypeToolCall "Calling tool: shell({})";
       Samples.ShellRan "{}";
       Samples.ToolResultShown {| Tools.CallID := "c1"; Tools.Success := true;
                                  Tools.Result := "{}"; Tools.Error := "" |};
       Samples.MessageShown Wire.MessageTypeToolResult "{}";
       Samples.Requested
         [Demo.msg "system" "You are a test assistant."; Demo.msg "user" "hi";
          {| LLM.Role := "assistant"; LLM.Content := "";
             LLM.ToolCalls := [shell_call "c1"]; LLM.ToolCallID := "" |};
          {| LLM.Role := "tool"; LLM.Content := "{}"; LLM.ToolCalls := [];
             LLM.ToolCallID := "c1" |}];
       Samples.MessageShown Wire.MessageTypeAssistant "done";
       Samples.ContextWritten "ctx.json" 3]
  ∧ (Samples.ToolResultShown (denied "c1") ∉ world run.2)
  ∧ ¬ gate_respected (Approval.NewManager (YOLO (runtime s))) (trace run.2).
Proof.
  intros s run.
  assert (Hworld : world run.2
    = [Samples.ContextWritten "ctx.json" 3;
       Samples.MessageShown Wire.MessageTypeAssistant "done";
       Samples.Requested
         [Demo.msg "system" "You are a test assistant."; Demo.msg "user" "hi";
          {| LLM.Role := "assistant"; LLM.Content := "";
             LLM.ToolCalls := [shell_call "c1"]; LLM.ToolCallID := "" |};
          {| LLM.Role := "tool"; LLM.Content := "{}"; LLM.ToolCalls := [];
             LLM.ToolCallID := "c1" |}];
       Samples.MessageShown Wire.MessageTypeToolResult "{}";
       Samples.ToolResultShown {| Tools.CallID := "c1"; Tools.Success := true;
                                  Tools.Result := "{}"; Tools.Error := "" |};
       Samples.ShellRan "{}";
       Samples.MessageShown Wire.MessageTypeToolCall "Calling tool: shell({})";
       Samples.ToolCallShown {| Tools.ID := "c1"; Tools.Name := "shell";
                                Tools.Arguments := "{}" |};
       Samples.Requested
         [Demo.msg "system" "You are a test assistant.";
          Demo.msg "user" "hi"]]).
  { vm_compute. reflexivity. }
  assert (Htrace : omap (λ ev, match ev with
                               | ToolCallEmitted tc => Some (inl tc)
                               | ApprovalNeeded req => Some (inr req)
                               | _ => None
                               end) (trace run.2)
                   = [inl {| Tools.ID := "c1"; Tools.Name := "shell";
                             Tools.Arguments := "{}" |}]).
  { vm_compute. reflexivity. }
  split; [reflexivity|]. split; [reflexivity|].
  split; [vm_compute; reflexivity|].
  split; [by rewrite Hworld|].
  split.
  { rewrite Hworld. unfold denied.
    rewrite !elem_of_cons, elem_of_nil. intros Hin.
    repeat destruct Hin as [Hin|Hin]; try discriminate Hin; done. }
  intros Hgate.
  destruct (Hgate {| Tools.ID := "c1"; Tools.Name := "shell";
                     Tools.Arguments := "{}" |}) as (req & Hreq & _).
  - assert (Hin : inl {| Tools.ID := "c1"; Tools.Name := "shell";
                         Tools.Arguments := "{}" |}
                  ∈ omap (λ ev, match ev with
                                | ToolCallEmitted tc =>
                                    Some (inl (B := Approval.ApprovalRequest) tc)
                                | ApprovalNeeded req => Some (inr req)
                                | _ => None
                                end) (trace run.2))
      by (rewrite Htrace; apply list_elem_of_here).
    apply list_elem_of_omap in Hin as (ev & Hev & Hsome).
    by destruct ev; simplify_eq.
  - reflexivity.
  - assert (Hin : inr req
                  ∈ omap (λ ev, match ev with
                                | ToolCallEmitted tc =>
                                    Some (inl (A := Tools.ToolCall) tc)
                                | ApprovalNeeded req => Some (inr req)
                                | _ => None
                                end) (trace run.2)).
    { apply list_elem_of_omap. by exists (ApprovalNeeded req). }
    rewrite Htrace in Hin. apply list_elem_of_singleton in Hin. discriminate.
Qed.

(** [TestSoul_ExecuteToolCall_ToolNotFound] and
    [TestSoul_ProcessWithLLM_ToolNotFound]: the message names the tool. *)
Example execute_tool_call_not_found :
  (executeToolCall (test_soul one_call_client 10) missing_call fresh).1
  = ({| Tools.CallID := "call_1"; Tools.Success := false;
        Tools.Result := "";
        Tools.Error := "tool " +:+ dq +:+ "nonexistent" +:+ dq
                       +:+ " not found" |}, None).
Proof. vm_compute. reflexivity. Qed.

End SoulSpec.
(** ** Compaction *)

Module CompactionSpec.
Import Fmt Compaction.

(** The last two entries of a list of at least two. *)
Lemma drop_last_two {A} (l : list A) :
  (2 ≤ length l)%nat →
  ∃ a b, drop (length l - 2) l = [a; b].
Proof.
  intros Hlen.
  assert (Hd : length (drop (length l - 2) l) = 2%nat)
    by (rewrite length_drop; lia).
  destruct (drop (length l - 2) l) as [|a [|b [|c rest]]]; try done.
  by exists a, b.
Qed.

(** C7. When compaction is triggered ([token_count + reserved >=
    max_context]) on a history of length at least 5 and the summariser
    replies, [maybe_compress] replaces the history with exactly three
    messages: a system message whose content is ["Conversation so far
    (summary): "] followed by the summariser's reply, and then the previous
    last two history entries, unchanged and in their original order. *)
Theorem maybe_compress_keeps_tail {W : Type}
    (chat : list LLM.Message → W → (Reply + error) * W)
    (instruction : list LLM.Message → list LLM.Message)
    (st : State) (w : W) (reply : Reply) (w' : W) :
  max_context st ≤ token_count st + reserved st →
  (5 ≤ length (history st))%nat →
  chat (instruction (take (length (history st) - 2) (history st))) w
  = (inl reply, w') →
  ∃ a b st',
    maybe_compress chat instruction st w = (None, st', w')
    ∧ drop (length (history st) - 2) (history st) = [a; b]
    ∧ history st'
      = [{| LLM.Role := "system";
            LLM.Content := "Conversation so far (summary): "
                           +:+ reply_Content reply;
            LLM.ToolCalls := []; LLM.ToolCallID := "" |}; a; b]
    ∧ length (history st') = 3%nat
    ∧ history st' !! 1%nat = history st !! (length (history st) - 2)%nat
    ∧ history st' !! 2%nat = history st !! (length (history st) - 1)%nat.
Proof.
  intros Htrig Hlen Hchat.
  destruct (drop_last_two (history st)) as (a & b & Hd); [lia|].
  exists a, b.
  unfold maybe_compress, should_compress.
  assert (Ht : (max_context st <=? token_count st + reserved st) = true)
    by (apply Z.leb_le; lia).
  rewrite Ht. cbn [negb].
  assert (Hn : (length (history st) <=? N_KEEP + N_MIN_COMPRESS_OVERHEAD)%nat
               = false) by (apply Nat.leb_gt; unfold N_KEEP,
                              N_MIN_COMPRESS_OVERHEAD; lia).
  rewrite Hn. unfold N_KEEP. rewrite Hchat, Hd.
  eexists. split; [reflexivity|]. split; [done|].
  cbn [update_token_count history]. unfold summary_message.
  split; [reflexivity|]. split; [reflexivity|].
  assert (Ha : history st !! (length (history st) - 2)%nat = Some a).
  { rewrite <- (Nat.add_0_r (length (history st) - 2)), <- lookup_drop.
    by rewrite Hd. }
  assert (Hb : history st !! (length (history st) - 1)%nat = Some b).
  { replace (length (history st) - 1)%nat
      with (length (history st) - 2 + 1)%nat by lia.
    rewrite <- lookup_drop. by rewrite Hd. }
  by rewrite Ha, Hb.
Qed.

(** The witness: [TestSoul_MaybeCompressHistory] (scenario 8 of the
    specification): six messages, 95 tokens counted against a context of
    100 with 10 reserved. *)
Lemma maybe_compress_keeps_tail_witness :
  ∃ a b st',
    maybe_compress Demo.summariser Demo.summary_request Demo.six_messages O
    = (None, st', 1%nat)
    ∧ drop (length (history Demo.six_messages) - 2)
        (history Demo.six_messages) = [a; b]
    ∧ history st'
      = [{| LLM.Role := "system";
            LLM.Content := "Conversation so far (summary): "
                           +:+ "Summary of conversation";
            LLM.ToolCalls := []; LLM.ToolCallID := "" |}; a; b]
    ∧ length (history st') = 3%nat
    ∧ history st' !! 1%nat
      = history Demo.six_messages
          !! (length (history Demo.six_messages) - 2)%nat
    ∧ history st' !! 2%nat
      = history Demo.six_messages
          !! (length (history Demo.six_messages) - 1)%nat.
Proof.
  apply (maybe_compress_keeps_tail Demo.summariser Demo.summary_request
           Demo.six_messages O
           {| reply_Content := "Summary of conversation";
              reply_TotalTokens := Some 15 |} 1%nat).
  - simpl. lia.
  - simpl. lia.
  - reflexivity.
Defined.

(** The run of the test itself, and the two cases in which nothing is
    compressed ([..._NotNeeded], [..._TooFewMessages]). *)
Example maybe_compress_test_vectors :
  history (maybe_compress Demo.summariser Demo.summary_request
             Demo.six_messages O).1.2
  = [Demo.msg "system" "Conversation so far (summary): Summary of conversation";
     Demo.msg "user" "msg3"; Demo.msg "assistant" "resp3"]
  ∧ (let st := {| history := [Demo.msg "user" "msg1";
                              Demo.msg "assistant" "resp1"];
                  token_count := 1000; max_context := 10000;
                  reserved := 1000; modified := false |} in
     maybe_compress Demo.summariser Demo.summary_request st O
     = (None, st, O))
  ∧ (let st := {| history := [Demo.msg "user" "msg1";
                              Demo.msg "assistant" "resp1";
                              Demo.msg "user" "msg2"];
                  token_count := 95; max_context := 100;
                  reserved := 10; modified := false |} in
     maybe_compress Demo.summariser Demo.summary_request st O
     = (None, st, O)).
Proof. vm_compute. done. Qed.

End CompactionSpec.

(** * Further properties of the code *)

(** ** The approval manager under sequences of calls *)

Module ApprovalProps.
Import Approval ApprovalOps.

Lemma index_insert (m : gmap string bool) (k k' : string) (v : bool) :
  index (<[k := v]> m) k' = if decide (k = k') then v else index m k'.
Proof.
  unfold index. destruct (decide (k = k')) as [->|Hne].
  - by rewrite lookup_insert_eq.
  - by rewrite lookup_insert_ne.
Qed.

Lemma index_delete (m : gmap string bool) (k k' : string) :
  index (delete k m) k' = if decide (k = k') then false else index m k'.
Proof.
  unfold index. destruct (decide (k = k')) as [->|Hne].
  - by rewrite lookup_delete_eq.
  - by rewrite lookup_delete_ne.
Qed.

Lemma all_true_call (m : Manager) (c : Call) :
  all_true m → all_true (call m c).
Proof.
  unfold all_true. intros H.
  destruct c; simpl;
    first [ done | by apply map_Forall_insert_2 | by apply map_Forall_delete
          | apply map_Forall_empty ].
Qed.

Lemma all_true_calls (cs : list Call) : ∀ m,
  all_true m → all_true (calls cs m).
Proof.
  induction cs as [|c cs IH]; intros m H; [done|].
  apply IH. by apply all_true_call.
Qed.

Lemma level_calls (cs : list Call) : ∀ m,
  forallb (λ c, negb (is_set_level c)) cs = true →
  level (calls cs m) = level m.
Proof.
  induction cs as [|c cs IH]; intros m H; [done|].
  simpl in H. apply andb_true_iff in H as [Hc Hcs].
  unfold calls. simpl. fold (calls cs (call m c)).
  rewrite IH by done. by destruct c.
Qed.

Lemma danger_calls (name : string) (cs : list Call) : ∀ m,
  forallb (λ c, negb (sets_danger_of name c)) cs = true →
  IsDangerous (calls cs m) name = IsDangerous m name.
Proof.
  induction cs as [|c cs IH]; intros m H; [done|].
  simpl in H. apply andb_true_iff in H as [Hc Hcs].
  unfold calls. simpl. fold (calls cs (call m c)).
  rewrite IH by done. destruct c; try done.
  simpl in Hc. unfold IsDangerous. simpl. rewrite index_insert.
  destruct (decide (toolName = name)) as [->|Hne]; [|done].
  by rewrite String.eqb_refl in Hc.
Qed.

(** X1.  On every manager that [NewManager] and later calls can produce,
    [GetSessionApprovedTools] lists exactly the tools for which
    [IsSessionApproved] answers [true], each of them once. *)
Theorem session_approved_tools_exact (yolo : bool) (cs : list Call) :
  let m := calls cs (NewManager yolo) in
  NoDup (GetSessionApprovedTools m)
  ∧ ∀ name, name ∈ GetSessionApprovedTools m
            ↔ IsSessionApproved m name = true.
Proof.
  intros m.
  assert (Hm : all_true m).
  { apply all_true_calls. apply map_Forall_empty. }
  split.
  - apply NoDup_fst_map_to_list.
  - intros name. unfold GetSessionApprovedTools, IsSessionApproved, index.
    rewrite list_elem_of_fmap. split.
    + intros ([k v] & -> & Hkv). apply elem_of_map_to_list in Hkv.
      simpl. rewrite Hkv. simpl. by apply (Hm k v).
    + intros H. destruct (sessionApproved m !! name) as [v|] eqn:Hl; [|done].
      exists (name, v). split; [done|]. by apply elem_of_map_to_list.
Qed.

(** X2.  As long as [SetLevel] is not called, no approval call changes
    what [IsApproved] answers: it stays at the [yolo] flag the manager was
    created with, for every tool. *)
Theorem approval_fixed_without_set_level (yolo : bool) (cs : list Call)
    (name : string) :
  forallb (λ c, negb (is_set_level c)) cs = true →
  IsApproved (calls cs (NewManager yolo)) name = yolo.
Proof.
  intros H. unfold IsApproved. rewrite level_calls by done.
  by destruct yolo.
Qed.

Lemma approval_fixed_without_set_level_witness :
  IsApproved
    (calls [CallApproveForSession "shell"; CallApproveOnce "shell"]
       (NewManager false)) "shell" = false.
Proof.
  apply (approval_fixed_without_set_level false
           [CallApproveForSession "shell"; CallApproveOnce "shell"] "shell").
  reflexivity.
Defined.

(** X3.  At the session level, [ApproveForSession] makes [IsApproved] true
    for that tool and [RevokeSessionApproval] makes it false, both without
    changing the answer for any other tool; after [ClearSessionApprovals] no
    tool is approved. *)
Theorem session_approval_lookup (m : Manager) (name other : string) :
  level m = LevelSession →
  IsApproved (ApproveForSession m name) other
  = (if decide (name = other) then true else IsApproved m other)
  ∧ IsApproved (RevokeSessionApproval m name) other
    = (if decide (name = other) then false else IsApproved m other)
  ∧ IsApproved (ClearSessionApprovals m) other = false.
Proof.
  intros Hl. unfold IsApproved. simpl. rewrite Hl.
  rewrite index_insert, index_delete. done.
Qed.

Lemma session_approval_lookup_witness :
  let m := SetLevel (NewManager false) LevelSession in
  IsApproved (ApproveForSession m "shell") "shell" = true
  ∧ IsApproved (RevokeSessionApproval m "shell") "shell" = false
  ∧ IsApproved (ClearSessionApprovals m) "shell" = false.
Proof.
  exact (session_approval_lookup (SetLevel (NewManager false) LevelSession)
           "shell" "shell" eq_refl).
Defined.

(** X4.  A tool is dangerous by default exactly when it is ["shell"], and
    only a [SetDangerous] call for that very tool changes this: approvals,
    revocations, level changes and [SetDangerous] for other tools leave
    [IsDangerous] as it is. *)
Theorem danger_flag_default (yolo : bool) (cs : list Call) (name : string) :
  forallb (λ c, negb (sets_danger_of name c)) cs = true →
  IsDangerous (calls cs (NewManager yolo)) name = String.eqb name "shell".
Proof.
  intros H. rewrite danger_calls by done.
  unfold IsDangerous, NewManager. simpl. rewrite !index_insert.
  destruct (decide ("shell" = name)) as [<-|Hs]; [done|].
  destruct (String.eqb_spec name "shell") as [->|_]; [done|].
  by destruct (decide ("file" = name)).
Qed.

Lemma danger_flag_default_witness :
  IsDangerous
    (calls [CallSetDangerous "file" true; CallApproveForSession "shell";
            CallSetLevel LevelYOLO] (NewManager false)) "shell" = true.
Proof.
  apply (danger_flag_default false
           [CallSetDangerous "file" true; CallApproveForSession "shell";
            CallSetLevel LevelYOLO] "shell").
  reflexivity.
Defined.

End ApprovalProps.

(** ** The tool registry *)

Module RegistryProps.
Import Fmt ToolSet Registry.

Section Props.
Context {W : Type} `{!Strconv}.

Lemma register_lookup (ts : gmap string (Tool W)) (tool : Tool W)
    (name : string) :
  (Register ts tool).1 !! name
  = match ts !! name with
    | Some t => Some t
    | None => if String.eqb (Name tool) name then Some tool else None
    end.
Proof.
  unfold Register. destruct (ts !! Name tool) as [old|] eqn:Hold; simpl.
  - destruct (ts !! name) as [t|] eqn:Ht; [done|].
    destruct (String.eqb_spec (Name tool) name) as [<-|_]; [|done].
    congruence.
  - destruct (String.eqb_spec (Name tool) name) as [<-|Hne].
    + by rewrite lookup_insert_eq, Hold.
    + rewrite lookup_insert_ne by done. by destruct (ts !! name).
Qed.

Lemma foldl_register_lookup (tools : list (Tool W)) (name : string) :
  ∀ ts : gmap string (Tool W),
  foldl (λ ts tool, (Register ts tool).1) ts tools !! name
  = match ts !! name with
    | Some t => Some t
    | None => first_named name tools
    end.
Proof.
  induction tools as [|tool tools IH]; intros ts; simpl.
  - by destruct (ts !! name).
  - rewrite IH, register_lookup. destruct (ts !! name); [done|].
    by destruct (String.eqb (Name tool) name).
Qed.

Lemma registered_lookup (tools : list (Tool W)) (name : string) :
  registered tools !! name = first_named name tools.
Proof.
  unfold registered. rewrite foldl_register_lookup. done.
Qed.

Lemma first_named_name (tools : list (Tool W)) (name : string) (t : Tool W) :
  first_named name tools = Some t → Name t = name ∧ t ∈ tools.
Proof.
  unfold first_named. intros Hf. apply find_some in Hf as [Hin Heq].
  split; [by apply String.eqb_eq|by apply list_elem_of_In].
Qed.

Lemma first_named_is_Some (tools : list (Tool W)) (name : string) :
  is_Some (first_named name tools) ↔ name ∈ Name <$> tools.
Proof.
  unfold first_named. split.
  - intros [t Ht]. apply find_some in Ht as [Hin Heq].
    apply String.eqb_eq in Heq. subst name.
    apply list_elem_of_fmap. exists t. split; [done|by apply list_elem_of_In].
  - intros Hn. apply list_elem_of_fmap in Hn as (t & -> & Hin).
    destruct (find _ tools) as [t'|] eqn:Hf; [by eexists|].
    apply list_elem_of_In in Hin.
    pose proof (find_none _ _ Hf t Hin) as Hx. simpl in Hx.
    by rewrite String.eqb_refl in Hx.
Qed.

(** X5.  In a registry built by [Register] calls, a name resolves to the
    first tool registered under it: later tools of the same name are
    rejected and never replace it.  [Get] returns that tool and [Execute]
    runs it; for a name that was never registered both return the error
    [tool "name" not found], and [Execute] leaves the world untouched. *)
Theorem first_registration_wins (tools : list (Tool W)) (name args : string)
    (w : W) :
  Get (registered tools) name
  = match first_named name tools with
    | Some tool => inl tool
    | None => inr (errorString ("tool " +:+ Quote name +:+ " not found"))
    end
  ∧ Execute (registered tools) name args w
    = match first_named name tools with
      | Some tool => ToolSet.Execute tool args w
      | None =>
          (inr (errorString ("tool " +:+ Quote name +:+ " not found")), w)
      end.
Proof.
  unfold Execute, Get. rewrite registered_lookup.
  by destruct (first_named name tools).
Qed.

(** X6.  [GetToolInfo] advertises every registered tool exactly once and
    under its own name: the names it lists have no duplicates and are
    exactly the names of the tools passed to [Register]. *)
Theorem tool_info_names (tools : list (Tool W)) :
  NoDup (info_Name <$> GetToolInfo (registered tools))
  ∧ ∀ name, name ∈ info_Name <$> GetToolInfo (registered tools)
            ↔ name ∈ Name <$> tools.
Proof.
  assert (Hkeys : info_Name <$> GetToolInfo (registered tools)
                  = (map_to_list (registered tools)).*1).
  { unfold GetToolInfo, List. rewrite <- !list_fmap_compose.
    apply list_fmap_ext. intros i [k t] Hin. simpl.
    apply list_elem_of_lookup_2, elem_of_map_to_list in Hin.
    rewrite registered_lookup in Hin.
    by apply first_named_name in Hin as [-> _]. }
  rewrite Hkeys. split; [apply NoDup_fst_map_to_list|].
  intros name. rewrite <- first_named_is_Some, <- registered_lookup.
  rewrite list_elem_of_fmap. split.
  - intros ([k t] & -> & Hkt). apply elem_of_map_to_list in Hkt. by exists t.
  - intros [t Ht]. exists (name, t). split; [done|].
    by apply elem_of_map_to_list.
Qed.

End Props.

(** X7.  [executeToolCall] is [ToolSet.Execute] with the Go error folded
    into the result: it returns a nil error, leaves the world as
    [ToolSet.Execute] leaves it, and its result has the id of the call,
    [Success] exactly when [ToolSet.Execute] returned no error, the
    returned value as [Result] and the error message as [Error]; context
    and history are not touched. *)
Theorem execute_tool_call_folds_error {W : Type} `{!Strconv}
    (s : Soul.Soul W) (call : Tools.ToolCall) (st : Soul.State W) :
  let run := Execute (Soul.Tools (Soul.runtime s)) (Tools.Name call)
               (Tools.Arguments call) (Soul.world st) in
  let '(result, err, st') := Soul.executeToolCall s call st in
  err = None
  ∧ Soul.world st' = run.2
  ∧ result = {| Tools.CallID := Tools.ID call;
                Tools.Success := negb (failed run.1);
                Tools.Result := match run.1 with
                                | inl value => value
                                | inr _ => ""
                                end;
                Tools.Error := match run.1 with
                               | inl _ => ""
                               | inr e => Error e
                               end |}
  ∧ Soul.context st' = Soul.context st
  ∧ Soul.llmHistory st' = Soul.llmHistory st.
Proof.
  unfold Execute, Soul.executeToolCall.
  destruct (Get _ _) as [tool|e]; simpl; [|done].
  destruct (ToolSet.Execute tool _ _) as [[value|e] w']; simpl; done.
Qed.

End RegistryProps.

(** ** Truncation of tool output: what holds for every text *)

Module TruncationProps.
Import Fmt Tools Truncation.

Lemma length_substring_min (s : string) : ∀ n m,
  String.length (String.substring n m s) = (m `min` (String.length s - n))%nat.
Proof.
  induction s as [|c s IH]; intros [|n] [|m]; simpl; try done;
    rewrite IH; lia.
Qed.

Lemma len_nonneg (s : string) : 0 ≤ len s.
Proof. unfold len. lia. Qed.

Lemma len_append (a b : string) : len (a +:+ b) = len a + len b.
Proof. unfold len. rewrite ToolsSpec.length_append. lia. Qed.

Lemma len_slice_le (s : string) (lo hi : Z) :
  len (slice s lo hi) ≤ Z.max 0 (hi - lo).
Proof. unfold len, slice. rewrite length_substring_min. lia. Qed.

Lemma len_slice_step (s : string) (lo hi : Z) :
  len (slice s lo (hi + 1)) ≤ len (slice s lo hi) + 1.
Proof. unfold len, slice. rewrite !length_substring_min. lia. Qed.

(** *** The size of the output *)

Section Bound.
Variable text : string.
Variables maxTotal maxLine : Z.
Hypothesis Htotal : 0 ≤ maxTotal.
Hypothesis Hline : 0 < maxLine.

Lemma line_end_size (i : Z) (a : Acc) (r : Acc + Acc) :
  line_end text maxTotal maxLine i a = Returns r →
  size_inv maxTotal maxLine a →
  size_inv maxTotal maxLine (match r with inl a' | inr a' => a' end).
Proof.
  unfold line_end, size_inv. intros Hr (c & Hc & Hres & Hcl & Hct & Htl).
  pose proof (len_nonneg (slice text (lineStart a) i)) as Hl0.
  destruct (Z.ltb_spec maxLine (len (slice text (lineStart a) i)))
    as [Hover|Hfit].
  - (* the line is cut *)
    destruct (Z.ltb_spec maxTotal (totalLen a + maxLine)) as [Hbrk|Hgo].
    + injection Hr as <-. cbn [result totalLen].
      destruct (Z.ltb_spec 0 (maxTotal - totalLen a)) as [Hrem|Hrem].
      * exists c. rewrite len_append.
        pose proof (len_slice_le (slice text (lineStart a) i) 0
                      (maxTotal - totalLen a)). lia.
      * exists c. lia.
    + replace (maxLine <? 0) with false in Hr
        by (symmetry; apply Z.ltb_ge; lia).
      cbn [andb] in Hr. injection Hr as <-. cbn [result totalLen].
      exists (c + 1). rewrite !len_append.
      pose proof (len_slice_le (slice text (lineStart a) i) 0 maxLine).
      assert (len (if i <? len text then String newline "" else "") ≤ 1)
        by (destruct (i <? len text); unfold len; simpl; lia).
      replace ((i <? len text)
               && (len (slice text (lineStart a) i) <=? maxLine))
        with false
        by (symmetry; apply andb_false_iff; right; apply Z.leb_gt; lia).
      lia.
  - (* the line fits *)
    destruct (Z.ltb_spec maxTotal
                (totalLen a + len (slice text (lineStart a) i)))
      as [Hbrk|Hgo].
    + injection Hr as <-. cbn [result totalLen].
      destruct (Z.ltb_spec 0 (maxTotal - totalLen a)) as [Hrem|Hrem].
      * exists c. rewrite len_append.
        pose proof (len_slice_le (slice text (lineStart a) i) 0
                      (maxTotal - totalLen a)). lia.
      * exists c. lia.
    + cbn [andb] in Hr. injection Hr as <-. cbn [result totalLen].
      exists c. rewrite len_append.
      replace (len (slice text (lineStart a) i) <=? maxLine) with true
        by (symmetry; apply Z.leb_le; lia).
      rewrite andb_true_r.
      pose proof (len_slice_step text (lineStart a) i).
      destruct (i <? len text); lia.
Qed.

Lemma line_end_returns (i : Z) (a : Acc) :
  ∃ r, line_end text maxTotal maxLine i a = Returns r.
Proof.
  unfold line_end.
  destruct (maxTotal <? _); [by eexists|].
  replace (maxLine <? 0) with false by (symmetry; apply Z.ltb_ge; lia).
  rewrite andb_false_r. by eexists.
Qed.

Lemma truncate_loop_size (rest : string) : ∀ (i : Z) (a : Acc),
  size_inv maxTotal maxLine a →
  ∃ a', truncate_loop text maxTotal maxLine rest i a = Returns a'
        ∧ size_inv maxTotal maxLine a'.
Proof.
  induction rest as [|ch rest IH]; intros i a Ha; cbn [truncate_loop].
  - destruct (line_end_returns i a) as [r Hr]. rewrite Hr.
    pose proof (line_end_size i a r Hr Ha) as Hinv.
    destruct r as [a'|a']; by exists a'.
  - destruct (Ascii.eqb ch newline); [|by apply IH].
    destruct (line_end_returns i a) as [r Hr]. rewrite Hr.
    pose proof (line_end_size i a r Hr Ha) as Hinv.
    destruct r as [a'|a']; [by exists a'|by apply IH].
Qed.

Lemma truncate_text_size :
  ∃ s, truncateText text maxTotal maxLine = Returns s
       ∧ len s ≤ maxTotal + 1 + maxTotal / maxLine + len trailer.
Proof.
  unfold truncateText.
  replace (maxLine <=? 0) with false by (symmetry; apply Z.leb_gt; lia).
  rewrite andb_false_r.
  destruct (truncate_loop_size text 0
              {| result := ""; totalLen := 0; lineStart := 0;
                 truncated := false |})
    as (a & -> & c & Hc & Hres & Hcl & Hct & Htl).
  { exists 0. cbn [result totalLen]. change (len "") with 0. lia. }
  eexists. split; [done|].
  assert (c ≤ maxTotal / maxLine) by (apply Z.div_le_lower_bound; lia).
  pose proof (len_nonneg trailer).
  destruct (truncated a); [rewrite len_append|]; lia.
Qed.

End Bound.

(** X8.  For a total limit that is not negative and a positive line
    limit, [truncateText] returns, and what it returns is at most
    [maxTotal + 1 + maxTotal / maxLine + len(trailer)] bytes long: beyond
    the total limit there is at most one newline appended after the limit
    was reached, one uncounted newline per line that was cut, and the
    trailer. *)
Theorem truncate_text_size_bound (text : string) (maxTotal maxLine : Z) :
  0 ≤ maxTotal → 0 < maxLine →
  ∃ s, truncateText text maxTotal maxLine = Returns s
       ∧ len s ≤ maxTotal + 1 + maxTotal / maxLine + len trailer.
Proof.
  intros Htotal Hline. unfold truncateText.
  replace (maxLine <=? 0) with false by (symmetry; apply Z.leb_gt; lia).
  rewrite andb_false_r.
  destruct (truncate_loop_size text maxTotal maxLine Hline text 0
              {| result := ""; totalLen := 0; lineStart := 0;
                 truncated := false |})
    as (a & -> & c & Hc & Hres & Hcl & Hct & Htl).
  { exists 0. cbn [result totalLen]. change (len "") with 0. lia. }
  eexists. split; [done|].
  assert (c ≤ maxTotal / maxLine) by (apply Z.div_le_lower_bound; lia).
  pose proof (len_nonneg trailer).
  destruct (truncated a); [rewrite len_append|]; lia.
Qed.

Lemma truncate_text_size_bound_witness :
  ∃ s, truncateText
         ("abcd" +:+ String newline "efgh" +:+ String newline "ij") 4 2
       = Returns s
       ∧ len s ≤ 4 + 1 + 4 / 2 + len trailer.
Proof.
  apply (truncate_text_size_bound
           ("abcd" +:+ String newline "efgh" +:+ String newline "ij") 4 2);
    lia.
Defined.

(** X9.  [TruncateForLLM] always returns (it cannot panic), keeps the
    call id and the success flag, and neither the [Result] nor the [Error]
    of what it returns is longer than 50049 bytes
    (50000 + 1 + 50000/2000 + 23). *)
Theorem truncate_for_llm_size (tr : ToolResult) :
  ∃ out, TruncateForLLM (Some tr) = Returns (Some out)
         ∧ CallID out = CallID tr
         ∧ Success out = Success tr
         ∧ len (Result out) ≤ 50049
         ∧ len (Error out) ≤ 50049.
Proof.
  unfold TruncateForLLM.
  assert (Hbound : ∀ text, ∃ s,
            truncateText text MaxToolOutputTotalChars MaxToolOutputLineChars
            = Returns s ∧ len s ≤ 50049).
  { intros text.
    destruct (truncate_text_size text MaxToolOutputTotalChars
                MaxToolOutputLineChars) as (s & Hs & Hlen);
      [unfold MaxToolOutputTotalChars; lia
      |unfold MaxToolOutputLineChars; lia|].
    exists s. split; [done|].
    change (MaxToolOutputTotalChars + 1
            + MaxToolOutputTotalChars / MaxToolOutputLineChars + len trailer)
      with 50049 in Hlen. done. }
  assert (Hres : ∃ res,
            (if 0 <? len (Result tr)
             then truncateText (Result tr) MaxToolOutputTotalChars
                    MaxToolOutputLineChars
             else Returns (Result tr)) = Returns res ∧ len res ≤ 50049).
  { destruct (Z.ltb_spec 0 (len (Result tr))); [apply Hbound|].
    eexists. split; [done|lia]. }
  assert (Herr : ∃ err,
            (if MaxToolOutputTotalChars <? len (Error tr)
             then truncateText (Error tr) MaxToolOutputTotalChars
                    MaxToolOutputLineChars
             else Returns (Error tr)) = Returns err ∧ len err ≤ 50049).
  { destruct (Z.ltb_spec MaxToolOutputTotalChars (len (Error tr)));
      [apply Hbound|].
    eexists. split; [done|]. unfold MaxToolOutputTotalChars in *. lia. }
  destruct Hres as (res & -> & Hres). destruct Herr as (err & -> & Herr).
  eexists. split; [done|]. done.
Qed.

(** X10.  A tool result whose [Result] is within both limits (at most 50000
    bytes, no line above 2000) and whose [Error] has at most 50000 bytes
    passes through [TruncateForLLM] unchanged. *)
Theorem truncate_for_llm_identity (tr : ToolResult) :
  len (Result tr) ≤ MaxToolOutputTotalChars →
  Forall (λ l, len l ≤ MaxToolOutputLineChars) (lines (Result tr)) →
  len (Error tr) ≤ MaxToolOutputTotalChars →
  TruncateForLLM (Some tr) = Returns (Some tr).
Proof.
  intros Hres Hlines Herr. unfold TruncateForLLM.
  rewrite (ToolsSpec.truncate_text_within_bounds (Result tr)) by done.
  replace (MaxToolOutputTotalChars <? len (Error tr)) with false
    by (symmetry; apply Z.ltb_ge; lia).
  destruct (0 <? len (Result tr)); by destruct tr.
Qed.

Lemma truncate_for_llm_identity_witness :
  TruncateForLLM
    (Some {| CallID := "c1"; Success := true;
             Result := "ok" +:+ String newline "done"; Error := "" |})
  = Returns
      (Some {| CallID := "c1"; Success := true;
               Result := "ok" +:+ String newline "done"; Error := "" |}).
Proof.
  apply (truncate_for_llm_identity
           {| CallID := "c1"; Success := true;
              Result := "ok" +:+ String newline "done"; Error := "" |}).
  - vm_compute. discriminate.
  - repeat constructor; vm_compute; discriminate.
  - vm_compute. discriminate.
Defined.

(** *** Nothing is dropped silently *)

Lemma slice_nat (s : string) (a b : nat) :
  slice s (Z.of_nat a) (Z.of_nat b) = String.substring a (b - a) s.
Proof. unfold slice. f_equal; lia. Qed.

Section Marked.
Variable text : string.
Variables maxTotal maxLine : Z.
Hypothesis Hline : 0 ≤ maxLine.

Lemma line_end_total (i : Z) (a : Acc) :
  ∃ r, line_end text maxTotal maxLine i a = Returns r.
Proof.
  unfold line_end.
  destruct (maxTotal <? _); [by eexists|].
  replace (maxLine <? 0) with false by (symmetry; apply Z.ltb_ge; lia).
  rewrite andb_false_r. by eexists.
Qed.

Lemma line_end_prefix (i : nat) (a : Acc) (r : Acc + Acc) :
  (i ≤ String.length text)%nat →
  prefix_inv text i a →
  line_end text maxTotal maxLine (Z.of_nat i) a = Returns r →
  match r with
  | inl a' => truncated a' = true
  | inr a' =>
      truncated a' = false →
      Z.of_nat i ≤ maxTotal
      ∧ lineStart a' = Z.of_nat (S i)
      ∧ (let e := if (i <? String.length text)%nat then S i else i in
         totalLen a' = Z.of_nat e ∧ result a' = String.substring 0 e text)
  end.
Proof.
  intros Hi Hinv Hr. unfold line_end in Hr.
  destruct (truncated a) eqn:Ht.
  - (* something was cut before *)
    destruct (maxTotal <? _) in Hr; [by injection Hr as <-|].
    destruct (_ && _) in Hr; [done|]. injection Hr as <-.
    cbn [truncated]. by destruct (maxLine <? _).
  - destruct (Hinv Ht) as (ls & Hls & Hstart & Htot & Hres).
    rewrite Hstart, Htot, Hres, slice_nat in Hr.
    assert (HL : len (String.substring ls (i - ls) text) = Z.of_nat (i - ls)).
    { unfold len. by rewrite ToolsSpec.length_substring by lia. }
    rewrite HL in Hr.
    destruct (Z.ltb_spec maxLine (Z.of_nat (i - ls))) as [Hover|Hfit].
    + destruct (maxTotal <? _) in Hr; [by injection Hr as <-|].
      destruct (_ && _) in Hr; [done|]. by injection Hr as <-.
    + destruct (Z.ltb_spec maxTotal (Z.of_nat ls + Z.of_nat (i - ls)))
        as [Hbrk|Hgo]; [by injection Hr as <-|].
      cbn [andb] in Hr. injection Hr as <-.
      cbn [truncated lineStart totalLen result]. intros _.
      split; [lia|]. split; [lia|].
      replace (Z.of_nat (i - ls) <=? maxLine) with true
        by (symmetry; apply Z.leb_le; lia).
      rewrite andb_true_r. unfold len.
      destruct (Nat.ltb_spec i (String.length text)) as [Hlt|Hge].
      * replace (Z.of_nat i <? Z.of_nat (String.length text)) with true
          by (symmetry; apply Z.ltb_lt; lia).
        split; [lia|].
        replace (Z.of_nat i + 1) with (Z.of_nat (S i)) by lia.
        rewrite slice_nat.
        pose proof (ToolsSpec.substring_split text 0 ls (S i - ls)) as Hs.
        cbn [Nat.add] in Hs. rewrite Hs by lia. f_equal. lia.
      * replace (Z.of_nat i <? Z.of_nat (String.length text)) with false
          by (symmetry; apply Z.ltb_ge; lia).
        split; [lia|]. rewrite slice_nat.
        pose proof (ToolsSpec.substring_split text 0 ls (i - ls)) as Hs.
        cbn [Nat.add] in Hs. rewrite Hs by lia. f_equal. lia.
Qed.

Lemma truncate_loop_prefix (rest : string) : ∀ (i : nat) (a : Acc),
  (i + String.length rest = String.length text)%nat →
  prefix_inv text i a →
  ∃ a', truncate_loop text maxTotal maxLine rest (Z.of_nat i) a = Returns a'
        ∧ (truncated a' = false → result a' = text ∧ len text ≤ maxTotal).
Proof.
  induction rest as [|ch rest IH]; intros i a Hi Hinv; cbn [truncate_loop].
  - simpl in Hi.
    destruct (line_end_total (Z.of_nat i) a) as [r Hr]. rewrite Hr.
    pose proof (line_end_prefix i a r ltac:(lia) Hinv Hr) as Hp.
    destruct r as [a'|a']; exists a'; (split; [done|]); intros Hf.
    + congruence.
    + destruct (Hp Hf) as (Hmax & _ & _ & Hres).
      replace (i <? String.length text)%nat with false in Hres
        by (symmetry; apply Nat.ltb_ge; lia).
      rewrite Hres. replace i with (String.length text) by lia.
      split; [apply ToolsSpec.substring_all|unfold len; lia].
  - simpl in Hi.
    replace (Z.of_nat i + 1) with (Z.of_nat (S i)) by lia.
    destruct (Ascii.eqb ch newline).
    + destruct (line_end_total (Z.of_nat i) a) as [r Hr]. rewrite Hr.
      pose proof (line_end_prefix i a r ltac:(lia) Hinv Hr) as Hp.
      destruct r as [a'|a'].
      * exists a'. split; [done|]. congruence.
      * apply IH; [lia|]. intros Hf.
        destruct (Hp Hf) as (_ & Hstart & Htot & Hres).
        replace (i <? String.length text)%nat with true in Htot, Hres
          by (symmetry; apply Nat.ltb_lt; lia).
        exists (S i). done.
    + apply IH; [lia|]. intros Hf.
      destruct (Hinv Hf) as (ls & Hls & Hrest). exists ls. split; [lia|done].
Qed.

End Marked.

(** X11.  For a line limit that is not negative, [truncateText] returns,
    and what it returns is either the text itself, which is then within the
    total limit, or ends with the marker ["\n... (output truncated)"]: it
    never drops anything without saying so, and a text above the total limit
    always comes back marked. *)
Theorem truncate_text_unchanged_or_marked (text : string)
    (maxTotal maxLine : Z) :
  0 ≤ maxLine →
  ∃ s, truncateText text maxTotal maxLine = Returns s
       ∧ ((s = text ∧ len text ≤ maxTotal) ∨ ∃ kept, s = kept +:+ trailer).
Proof.
  intros Hline. unfold truncateText.
  destruct ((len text <=? maxTotal) && (maxLine <=? 0)) eqn:Hfast.
  - exists text. split; [done|]. left. split; [done|].
    apply andb_true_iff in Hfast as [Hle _]. by apply Z.leb_le.
  - destruct (truncate_loop_prefix text maxTotal maxLine Hline text 0%nat
                {| result := ""; totalLen := 0; lineStart := 0;
                   truncated := false |}) as (a & Ha & Hend).
    + simpl. lia.
    + intros _. exists 0%nat. cbn [result totalLen lineStart].
      split; [lia|]. split; [done|]. split; [done|]. by destruct text.
    + change (Z.of_nat 0) with 0 in Ha. rewrite Ha.
      eexists. split; [done|].
      destruct (truncated a); [right; by eexists|left; by apply Hend].
Qed.

Lemma truncate_text_unchanged_or_marked_witness :
  ∃ s, truncateText ("abc" +:+ String newline "d") 3 10 = Returns s
       ∧ ((s = "abc" +:+ String newline "d"
           ∧ len ("abc" +:+ String newline "d") ≤ 3)
          ∨ ∃ kept, s = kept +:+ trailer).
Proof.
  apply (truncate_text_unchanged_or_marked ("abc" +:+ String newline "d") 3 10).
  lia.
Defined.

End TruncationProps.

(** ** The retry executor under any operation *)

Module RetryProps.
Import Fmt Errors Float64 Retry RetryTrace.

(** The two clamps at the end of [ExponentialBackoff], for any cap. *)
Lemma clamp_any (wait maxWait : Z) :
  let w1 := if maxWait <? wait then maxWait else wait in
  0 ≤ (if w1 <? 0 then 0 else w1) ≤ Z.max 0 maxWait.
Proof.
  simpl. destruct (Z.ltb_spec maxWait wait).
  - destruct (Z.ltb_spec maxWait 0); lia.
  - destruct (Z.ltb_spec wait 0); lia.
Qed.


(** X12.  Whatever the platform, the base, the jitter and the random draw,
    a duration that [ExponentialBackoff] returns is never negative and never
    above [maxWait] (it is 0 when [maxWait] is negative). *)
Theorem backoff_wait_range arch raw attempt initialWait maxWait base jitter t :
  ExponentialBackoff arch raw attempt initialWait maxWait base jitter
  = Returns t →
  0 ≤ t ≤ Z.max 0 maxWait.
Proof.
  unfold ExponentialBackoff.
  destruct (0 <? jitter).
  - destruct (Int63n raw (wrap64 (2 * jitter))) as [r|msg]; [|discriminate].
    intros [= <-]. apply clamp_any.
  - intros [= <-]. apply clamp_any.
Qed.

Lemma backoff_wait_range_witness :
  0 ≤ 5 * Second ≤ Z.max 0 (5 * Second).
Proof.
  apply (backoff_wait_range amd64 0 34 (300 * Millisecond) (5 * Second)
           (of_int 2) 0 (5 * Second)).
  vm_compute. reflexivity.
Defined.

(** X13.  For a jitter in the range of [int64], [ExponentialBackoff]
    panics exactly when the jitter is [2^62] nanoseconds or more: then
    [2 * jitter] overflows to a number that is not positive and
    [rand.Int63n] rejects it.  For every smaller jitter it returns. *)
Theorem backoff_panics_iff arch raw attempt initialWait maxWait base jitter :
  MinInt64 ≤ jitter ≤ MaxInt64 →
  (∃ msg, ExponentialBackoff arch raw attempt initialWait maxWait base jitter
          = Panics msg)
  ↔ 2 ^ 62 ≤ jitter.
Proof.
  unfold MinInt64, MaxInt64. intros Hrange.
  unfold ExponentialBackoff, Int63n.
  destruct (Z.ltb_spec 0 jitter) as [Hpos|Hneg].
  - destruct (Z.le_gt_cases (2 ^ 62) jitter) as [Hbig|Hsmall].
    + assert (Hwrap : wrap64 (2 * jitter) = 2 * jitter - 2 ^ 64).
      { unfold wrap64.
        replace (2 * jitter + 2 ^ 63)
          with ((2 * jitter - 2 ^ 63) + 1 * 2 ^ 64) by lia.
        rewrite Z.mod_add by lia. rewrite Z.mod_small; lia. }
      rewrite Hwrap.
      replace (2 * jitter - 2 ^ 64 <=? 0) with true
        by (symmetry; apply Z.leb_le; lia).
      split; [done|by eexists].
    + rewrite RetrySpec.wrap64_id by (unfold MinInt64, MaxInt64; lia).
      replace (2 * jitter <=? 0) with false
        by (symmetry; apply Z.leb_gt; lia).
      split; [by intros [msg Hm]|lia].
  - split; [by intros [msg Hm]|lia].
Qed.

Lemma backoff_panics_iff_witness :
  (∃ msg, ExponentialBackoff amd64 7 0 (300 * Millisecond) (5 * Second)
            (of_int 2) (2 ^ 62) = Panics msg)
  ↔ 2 ^ 62 ≤ 2 ^ 62.
Proof.
  apply (backoff_panics_iff amd64 7 0 (300 * Millisecond) (5 * Second)
           (of_int 2) (2 ^ 62)).
  vm_compute. split; discriminate.
Defined.

(** X14.  Without jitter, and as long as the float product
    [float64(initialWait) * math.Pow(base, float64(attempt))] converts to an
    [int64] that is not negative, [ExponentialBackoff] returns the minimum
    of the product (rounded toward zero) and [maxWait], on every
    platform. *)
Theorem backoff_exact_without_jitter arch raw attempt initialWait maxWait
    base v :
  0 ≤ maxWait →
  trunc (mul (of_int initialWait) (Pow base attempt)) = Some v →
  0 ≤ v ≤ MaxInt64 →
  ExponentialBackoff arch raw attempt initialWait maxWait base 0
  = Returns (Z.min v maxWait).
Proof.
  intros Hmax Htrunc Hv. unfold ExponentialBackoff, to_int64.
  cbn [Z.ltb Z.compare]. rewrite Htrunc.
  replace ((MinInt64 <=? v) && (v <=? MaxInt64)) with true
    by (symmetry; apply andb_true_iff; split; apply Z.leb_le;
        unfold MinInt64 in *; lia).
  f_equal. destruct (Z.ltb_spec maxWait v) as [Hcap|Hfit].
  - replace (maxWait <? 0) with false by (symmetry; apply Z.ltb_ge; lia). lia.
  - replace (v <? 0) with false by (symmetry; apply Z.ltb_ge; lia). lia.
Qed.

Lemma backoff_exact_without_jitter_witness :
  ExponentialBackoff arm64 0 3 (300 * Millisecond) (5 * Second) (of_int 2) 0
  = Returns (Z.min (2400 * Millisecond) (5 * Second)).
Proof.
  apply (backoff_exact_without_jitter arm64 0 3 (300 * Millisecond)
           (5 * Second) (of_int 2) (2400 * Millisecond)).
  - vm_compute. discriminate.
  - vm_compute. reflexivity.
  - vm_compute. split; discriminate.
Defined.

(** *** The loop, for any operation *)

Section Discipline.
Context {E W : Type}.
Variable env : Env E W.
Variable cfg : RetryConfig.





End Discipline.



(** X17.  With a negative [MaxRetries] the operation is never called:
    [ExecuteWithRetry] returns at once, leaves the world as it is, and its
    error wraps a nil error, so that its text ends in [%!w(<nil>)]. *)
Theorem execute_with_retry_negative_budget {E W : Type} `{!GoError E}
    (env : Env E W) (config : option RetryConfig) (w : W) :
  let cfg := default DefaultRetryConfig config in
  MaxRetries cfg < 0 →
  ExecuteWithRetry env config w = (RMaxRetries (MaxRetries cfg) None, w, [])
  ∧ Result_Error (RMaxRetries (MaxRetries cfg) None : Result E)
    = Some ("max retries (" +:+ d (MaxRetries cfg)
            +:+ ") exceeded: %!w(<nil>)").
Proof.
  intros cfg Hneg. unfold ExecuteWithRetry. fold cfg.
  replace (Z.to_nat (MaxRetries cfg + 1)) with 0%nat by lia.
  done.
Qed.

Lemma execute_with_retry_negative_budget_witness :
  ExecuteWithRetry Demo.failing_env (Some Samples.no_budget) O
  = (RMaxRetries (-1) None, O, [])
  ∧ Result_Error (RMaxRetries (-1) None : Result APIError)
    = Some ("max retries (" +:+ d (-1) +:+ ") exceeded: %!w(<nil>)").
Proof.
  apply (execute_with_retry_negative_budget Demo.failing_env
           (Some Samples.no_budget) O).
  reflexivity.
Defined.

End RetryProps.

(** ** The retrying client *)

Module RetryClientProps.
Import Fmt Errors Float64 Retry RetryClient.

Lemma omap_rev {A B} (f : A → option B) (l : list A) :
  omap f (rev l) = rev (omap f l).
Proof.
  induction l as [|x l IH]; [done|].
  simpl. rewrite omap_app, IH. simpl.
  destruct (f x); simpl; [done|by rewrite app_nil_r].
Qed.

Section Refinement.
Context {W : Type}.
Variable c : RetryableClient W.
Variable sur : Surroundings W.
Variable messages : list LLM.Message.
Variable tools : list LLM.ToolDef.
Hypothesis Hlog : logger c = None.

Lemma chat_loop_refines (k : nat) : ∀ attempt lastErr w tr,
  let '(resp, r, w', tr') :=
    chat_loop c sur messages tools k attempt lastErr w tr in
  retry_loop (as_env c sur messages tools) (config c) k attempt lastErr w
    (omap as_event tr)
  = (r, w', omap as_event tr')
  ∧ match r with
    | RNil => ∃ a, head tr' = Some (CalledInner a resp Nil)
    | _ => resp = None
    end.
Proof.
  induction k as [|k IH]; intros attempt lastErr w tr; [done|].
  cbn [chat_loop retry_loop]. unfold log. rewrite Hlog.
  cbn [as_env ctx_done fn isRetryable onRetry draw wait arch].
  destruct (sur_ctx_done sur w) as [e|]; [done|].
  destruct (inner c messages tools w) as [[resp err] w1].
  destruct err as [|e|op e|op t|m|f].
  { destruct (0 <? attempt); split; by eauto. }
  all: cbn [omap list_omap as_event].
  all: match goal with
       | |- context [IsRetryableError ?e] =>
           destruct (IsRetryableError e); cbn [negb]; [|done]
       end.
  all: destruct (MaxRetries (config c) <=? attempt); [done|].
  all: destruct (if 0 <? Jitter (config c) then sur_draw sur w1 else (0, w1))
         as [raw w2].
  all: destruct (ExponentialBackoff _ _ _ _ _ _ _) as [t'|msg]; [|done].
  all: destruct (sur_wait sur t' w2) as [[ce|] w3]; [done|].
  all: apply IH.
Qed.

End Refinement.

(** X18.  Without a logger, [RetryableClient.ChatWithTools] is
    [ExecuteWithRetry] applied to the inner call, with [IsRetryableError] as
    the classifier and no callback: the same error, the same final state,
    the same calls and waits in the same order.  The response it returns is
    the one of the last inner call when the error is nil, and nil
    otherwise. *)
Theorem chat_with_tools_is_execute_with_retry {W : Type}
    `{!GoError dyn_error} (c : RetryableClient W) (sur : Surroundings W)
    (messages : list LLM.Message) (tools : list LLM.ToolDef) (w : W) :
  logger c = None →
  let '(resp, r, w', tr) := ChatWithTools c sur messages tools w in
  ExecuteWithRetry (as_env c sur messages tools) (Some (config c)) w
  = (r, w', omap as_event tr)
  ∧ match r with
    | RNil => ∃ a, last tr = Some (CalledInner a resp Nil)
    | _ => resp = None
    end.
Proof.
  intros Hlog. unfold ChatWithTools, ExecuteWithRetry. cbn [default].
  pose proof (chat_loop_refines c sur messages tools Hlog
                (Z.to_nat (MaxRetries (config c) + 1)) 0 None w [])
    as Href.
  destruct (chat_loop c sur messages tools _ 0 None w [])
    as [[[resp r] w'] tr'].
  destruct Href as [Href Hresp].
  change (omap as_event []) with (@nil (Retry.Event dyn_error)) in Href.
  unfold id. rewrite Href, omap_rev. split; [done|].
  destruct r; try done.
  destruct Hresp as [a Ha]. exists a.
  destruct tr' as [|ev tr']; [done|]. simpl in Ha. injection Ha as ->.
  simpl. by rewrite last_snoc.
Qed.

Lemma chat_with_tools_is_execute_with_retry_witness :
  let '(resp, r, w', tr) :=
    ChatWithTools Samples.flaky_client Samples.calm
      [Demo.msg "user" "hi"] [] O in
  @ExecuteWithRetry _ _ Samples.plain_error
    (as_env Samples.flaky_client Samples.calm [Demo.msg "user" "hi"] [])
    (Some (config Samples.flaky_client)) O
  = (r, w', omap as_event tr)
  ∧ match r with
    | RNil => ∃ a, last tr = Some (CalledInner a resp Nil)
    | _ => resp = None
    end.
Proof.
  exact (@chat_with_tools_is_execute_with_retry nat Samples.plain_error
           Samples.flaky_client Samples.calm [Demo.msg "user" "hi"] [] O
           eq_refl).
Defined.

(** *** The configuration read from a provider *)

Lemma not_leb_one (base : float64) :
  SFleb base one = false →
  SFltb one base = true ∨ base = S754_nan.
Proof.
  change one with (S754_finite false 4503599627370496 (-52)).
  destruct base as [s|s| |s m e]; try (by right).
  - destruct s; [done|]. intros _. by left.
  - destruct s; [done|]. unfold SFleb, SFltb, SFcompare. intros H. left.
    rewrite (Z.compare_antisym e (-52)).
    destruct (e ?= -52) eqn:He; try done. simpl.
    rewrite Pos.compare_cont_spec in H |- *. simpl in H |- *.
    rewrite (Pos.compare_antisym m 4503599627370496).
    by destruct (m ?= 4503599627370496)%positive.
Qed.

(** X19.  Whatever a provider's retry section contains, the configuration
    that [RetryConfigFromProvider] builds allows at least one attempt
    ([MaxRetries >= 0]), has positive [InitialWait] and [MaxWait] in the
    range of [int64], and a base that is above 1 or NaN (a NaN passes the
    test [base <= 1]); a provider without a retry section gets the default
    configuration.  The jitter is taken over unchecked. *)
Theorem retry_config_from_provider_sane (retry : option ProviderRetry) :
  let cfg := RetryConfigFromProvider retry in
  0 ≤ MaxRetries cfg
  ∧ 0 < InitialWait cfg ≤ MaxInt64
  ∧ 0 < MaxWait cfg ≤ MaxInt64
  ∧ (SFltb one (ExponentialBase cfg) = true
     ∨ ExponentialBase cfg = S754_nan)
  ∧ (retry = None → cfg = DefaultRetryConfig).
Proof.
  destruct retry as [retry|]; cbn zeta.
  2:{ vm_compute. repeat split; try done. by left. }
  unfold RetryConfigFromProvider.
  cbn [MaxRetries InitialWait MaxWait ExponentialBase].
  assert (Hw : ∀ z, MinInt64 ≤ wrap64 z ≤ MaxInt64).
  { intros z. unfold wrap64, MinInt64, MaxInt64.
    pose proof (Z.mod_pos_bound (z + 2 ^ 63) (2 ^ 64)). lia. }
  pose proof (Hw (pr_InitialWaitMs retry * Millisecond)) as Hi.
  pose proof (Hw (pr_MaxWaitMs retry * Millisecond)) as Hm.
  split; [|split; [|split; [|split]]].
  - destruct (Z.ltb_spec (pr_MaxRetries retry) 0); [done|lia].
  - destruct (Z.leb_spec (wrap64 (pr_InitialWaitMs retry * Millisecond)) 0);
      [by vm_compute|lia].
  - destruct (Z.leb_spec (wrap64 (pr_MaxWaitMs retry * Millisecond)) 0);
      [by vm_compute|lia].
  - destruct (SFleb (pr_ExponentialBase retry) one) eqn:Hb;
      [by left|by apply not_leb_one].
  - done.
Qed.

End RetryClientProps.

(** ** The turn loop: history and context *)

Module SoulProps.
Import Fmt Soul SoulTrace.

Section History.
Context {W : Type} `{!Strconv}.
Implicit Types (s : Soul W) (st : State W).













End History.


(** *** What the LLM is sent *)

Section Requests.
Context {W : Type} `{!Strconv}.
Implicit Types (s : Soul W) (st : State W).

Lemma build_messages s st :
  buildLLMMessages s st
  = system_messages (SystemPrompt (agent s)) ++ llmHistory st.
Proof. reflexivity. Qed.


End Requests.


Import Demo.

(** X22.  Without an LLM client a user input is answered by the fixed
    hint that the client is not configured: the call returns nil, the input
    and the hint are appended to the context, the LLM history stays as it is
    and no request is made. *)
Theorem no_client_fallback {W : Type} `{!Strconv}
    (s : Soul W) (msg : Wire.Message) (st : State W) :
  runtime_LLMClient (runtime s) = None →
  let '(err, st') := handleUserInput s msg st in
  err = None
  ∧ llmHistory st' = llmHistory st
  ∧ chat_calls (trace st') = chat_calls (trace st)
  ∧ ∃ hint, extractText hint
            = "LLM client is not configured. Please set OPENAI_BASE_URL, OPENAI_API_KEY, and OPENAI_MODEL environment variables."
            ∧ Wire.Type_ hint = Wire.MessageTypeAssistant
            ∧ messages (context st') = messages (context st) ++ [msg; hint].
Proof.
  intros Hclient. unfold handleUserInput, processWithLLM. rewrite Hclient.
  split; [done|]. unfold on_message.
  destruct (OnMessage s); simpl; rewrite <- app_assoc.
  all: split; [done|]; split; [done|].
  all: match goal with
       | |- context [text_message ?a ?b ?c ?d] =>
           by exists (text_message a b c d)
       end.
Qed.

Lemma no_client_fallback_witness :
  let '(err, st') :=
    handleUserInput Samples.offline_soul (Demo.user_input "hi") Demo.fresh in
  err = None
  ∧ llmHistory st' = llmHistory Demo.fresh
  ∧ chat_calls (trace st') = chat_calls (trace Demo.fresh)
  ∧ ∃ hint, extractText hint
            = "LLM client is not configured. Please set OPENAI_BASE_URL, OPENAI_API_KEY, and OPENAI_MODEL environment variables."
            ∧ Wire.Type_ hint = Wire.MessageTypeAssistant
            ∧ messages (context st')
              = messages (context Demo.fresh) ++ [Demo.user_input "hi"; hint].
Proof.
  exact (no_client_fallback (H := Demo.plain_quote) Samples.offline_soul
           (Demo.user_input "hi") Demo.fresh eq_refl).
Defined.



(** X24.  When the first request of a turn fails, the turn ends with the
    error ["LLM request failed: ..."] wrapping the client's error; nothing
    is added to the context and it is not saved, no handler is called, but
    the user message stays in the LLM history, so that the next turn sends
    it again together with the new one. *)
Theorem failed_request_keeps_user_message {W : Type} `{!Strconv}
    (s : Soul W) (client : LLMClient W) (userMsg : Wire.Message)
    (st : State W) (err : error) (w : W) :
  runtime_LLMClient (runtime s) = Some client →
  0 < MaxSteps (runtime s) →
  ChatWithTools client
    (system_messages (SystemPrompt (agent s))
     ++ llmHistory st ++ [user_message userMsg])
    (buildToolDefs s) (world st) = (inr err, w) →
  processWithLLM s userMsg st
  = (Some (Errorf_w "LLM request failed: " err),
     {| context := context st;
        llmHistory := llmHistory st ++ [user_message userMsg];
        world := w;
        trace := ChatCalled
                   (system_messages (SystemPrompt (agent s))
                    ++ llmHistory st ++ [user_message userMsg])
                   (buildToolDefs s) :: trace st |}).
Proof.
  intros Hclient Hsteps Hchat.
  unfold processWithLLM. rewrite Hclient.
  destruct (Z.to_nat (MaxSteps (runtime s))) as [|steps] eqn:Hn; [lia|].
  cbn [agent_loop]. rewrite build_messages.
  cbn [append_history llmHistory world].
  change {| LLM.Role := "user"; LLM.Content := extractText userMsg;
            LLM.ToolCalls := []; LLM.ToolCallID := "" |}
    with (user_message userMsg).
  by rewrite Hchat.
Qed.

Lemma failed_request_keeps_user_message_witness :
  processWithLLM (Demo.test_soul Samples.down_client 10)
    (Demo.user_input "hi") Demo.fresh
  = (Some (Errorf_w "LLM request failed: " (errorString "connection refused")),
     {| context := context Demo.fresh;
        llmHistory := llmHistory Demo.fresh
                      ++ [user_message (Demo.user_input "hi")];
        world := 1%nat;
        trace := ChatCalled
                   (system_messages
                      (SystemPrompt
                         (agent (Demo.test_soul Samples.down_client 10)))
                    ++ llmHistory Demo.fresh
                    ++ [user_message (Demo.user_input "hi")])
                   (buildToolDefs (Demo.test_soul Samples.down_client 10))
                 :: trace Demo.fresh |}).
Proof.
  apply (failed_request_keeps_user_message (H := Demo.plain_quote)
           (Demo.test_soul Samples.down_client 10) Samples.down_client
           (Demo.user_input "hi") Demo.fresh
           (errorString "connection refused") 1%nat); reflexivity.
Defined.

End SoulProps.

(** ** The conversation context *)

Module ContextProps.
Import Fmt Soul ContextStore.

(** X25.  [GetLastNMessages(n)] panics exactly when [n] is negative (even
    on an empty context); otherwise it returns the last [min(n, len)]
    messages. *)
Theorem last_n_messages (c : Context) (n : Z) :
  match GetLastNMessages c n with
  | Returns l =>
      0 ≤ n
      ∧ l `suffix_of` messages c
      ∧ Z.of_nat (length l) = Z.min n (Z.of_nat (length (messages c)))
  | Panics _ => n < 0
  end.
Proof.
  unfold GetLastNMessages.
  destruct (Z.leb_spec (Z.of_nat (length (messages c))) n) as [Hall|Hsome].
  - split; [lia|]. split; [done|lia].
  - destruct (Z.ltb_spec n 0) as [Hneg|Hpos]; [done|].
    split; [done|]. split; [apply suffix_drop|].
    rewrite length_drop. lia.
Qed.

Section Store.
Context {W : Type}.
Variable fs : FS W.

(** X26.  [Save] never changes the messages or the path.  On a context
    that is not modified it does nothing at all; after a successful save the
    context is no longer modified, so that saving again writes nothing; a
    failed save leaves the context as it was, still modified. *)
Theorem save_is_idempotent (c : Context) (w : W) :
  let '(err, c1, w1) := Save fs c w in
  messages c1 = messages c
  ∧ filePath c1 = filePath c
  ∧ (modified c = false → err = None ∧ c1 = c ∧ w1 = w)
  ∧ (err = None → modified c1 = false ∧ Save fs c1 w1 = (None, c1, w1))
  ∧ (is_Some err → c1 = c ∧ modified c = true).
Proof.
  unfold Save. destruct (modified c) eqn:Hm; cbn [negb].
  - destruct (MarshalIndent fs (messages c)) as [data|e].
    + destruct (WriteFile fs (filePath c) data w) as [[e|] w1];
        repeat split; try done; by intros [? ?].
    + repeat split; try done; by intros [? ?].
  - rewrite Hm. cbn [negb]. repeat split; try done; by intros [? ?].
Qed.

End Store.

(** X28.  On a file system that returns what was written, and for
    messages that encode and decode to themselves, [Save] followed by
    [Restore] on a new context with the same path brings the messages back,
    not modified; and [Restore] with no file at the path leaves the context
    as it is and returns nil. *)
Theorem save_then_restore (marshal : list Wire.Message → string)
    (unmarshal : string → list Wire.Message + error) (c : Context)
    (w : gmap string string) :
  modified c = true →
  unmarshal (marshal (messages c)) = inl (messages c) →
  let fs := memory_fs marshal unmarshal in
  ∃ w1, Save fs c w = (None, set_modified false c, w1)
        ∧ Restore fs (NewContext (filePath c)) w1
          = (None, set_modified false c, w1)
        ∧ ∀ other, w1 !! filePath other = None →
                   Restore fs other w1 = (None, other, w1).
Proof.
  intros Hm Hu fs. exists (<[filePath c := marshal (messages c)]> w).
  split; [|split].
  - unfold Save. by rewrite Hm.
  - unfold Restore. cbn [fs memory_fs NotExist ReadFile Unmarshal NewContext
                         filePath].
    rewrite lookup_insert_eq.
    rewrite bool_decide_eq_false_2 by done. by rewrite Hu.
  - intros other Hnone. unfold Restore.
    cbn [fs memory_fs NotExist]. by rewrite bool_decide_eq_true_2.
Qed.

Lemma save_then_restore_witness :
  ∃ w1, Save (memory_fs Samples.write_messages Samples.read_messages)
          Samples.two_messages ∅
        = (None, set_modified false Samples.two_messages, w1)
        ∧ Restore (memory_fs Samples.write_messages Samples.read_messages)
            (NewContext (filePath Samples.two_messages)) w1
          = (None, set_modified false Samples.two_messages, w1)
        ∧ ∀ other, w1 !! filePath other = None →
                   Restore (memory_fs Samples.write_messages
                              Samples.read_messages) other w1
                   = (None, other, w1).
Proof.
  apply (save_then_restore Samples.write_messages Samples.read_messages
           Samples.two_messages ∅).
  - reflexivity.
  - vm_compute. reflexivity.
Defined.

(** The file that [Save] writes for that context has one line per message,
    and the codec refuses a line that is cut short. *)
Example save_writes_lines :
  Samples.split Tools.newline
    (Samples.write_messages (messages Samples.two_messages))
  = [Samples.join Samples.tab
       ["user_input"; "1700000000"; "text"; "what is in this directory?"];
     Samples.join Samples.tab
       ["assistant"; "1700000003"; "text"; "Two files: go.mod and main.go."]]
  ∧ Samples.read_messages
      (Samples.join Samples.tab ["user_input"; "1700000000"; "text"])
    = inr (errorString "malformed line").
Proof. split; vm_compute; reflexivity. Qed.

End ContextProps.

(** ** The shell tool and the error classifier *)

Module ShellProps.
Import Fmt Retry Shell.

(** X29.  [ShellTool.Execute] returns a Go error only when the arguments
    do not decode or the command is blank, and then it runs nothing.
    Otherwise it runs exactly one command, returns a result and a nil
    error, whatever the command did: [Stdout] is the combined output,
    [Success] tells whether the run had no error, and a successful result
    has exit code 0 and empty [Stderr] and [Error]. *)
Theorem shell_execute_outcome {W} (os : OS W) (t : ShellTool)
    (args : string) (w : W) :
  match Execute os t args w with
  | (inr err, w') =>
      w' = w
      ∧ ((∃ cause, Unmarshal os args = inl cause
                   ∧ err = Errorf_w "invalid parameters: " cause)
         ∨ (∃ params, Unmarshal os args = inr params
                      ∧ blank (Command params) = true
                      ∧ err = errorString "command cannot be empty"))
  | (inl r, w') =>
      ∃ params run,
        Unmarshal os args = inr params
        ∧ blank (Command params) = false
        ∧ CombinedOutput os (workDir t) (Command params)
            (if 0 <? Timeout params
             then Float64.wrap64 (Timeout params * Second)
             else timeout t) w = (run, w')
        ∧ Stdout r = output run
        ∧ (Success r = true ↔ run_err run = RunOk)
        ∧ (Success r = true → ExitCode r = 0 ∧ Stderr r = "" ∧ Error r = "")
  end.
Proof.
  unfold Execute.
  destruct (Unmarshal os args) as [cause|params] eqn:Hu.
  { split; [done|]. left. by exists cause. }
  destruct (blank (Command params)) eqn:Hb.
  { split; [done|]. right. by exists params. }
  destruct (CombinedOutput os _ _ _ w) as [run w'] eqn:Hrun.
  exists params, run. split; [done|]. split; [done|]. split; [done|].
  destruct (run_err run) as [|code stderr|msg]; cbn.
  - done.
  - repeat split; done.
  - destruct (ctx_err run) as [[|]|]; cbn; repeat split; done.
Qed.

End ShellProps.

Module ErrorsProps.
Import Errors.

(** X30.  For an error of another package, [IsRetryableError] looks at
    the errno only when the error does not implement [net.Error]: an error
    that implements it is retried exactly when it is temporary, a timeout,
    or wraps [context.DeadlineExceeded], whatever its errno; one that does
    not is retried exactly when its errno is one of the six listed or it
    wraps [context.DeadlineExceeded]. *)
Theorem foreign_error_retryable (f : ForeignError) :
  IsRetryableError (EForeign f)
  = match fe_net f with
    | Some (temporary, timeout) => temporary || timeout || fe_deadline f
    | None =>
        match fe_errno f with
        | Some (EOTHER _) | None => fe_deadline f
        | Some _ => true
        end
    end.
Proof.
  unfold IsRetryableError, isNetworkError, isTimeoutError.
  destruct (fe_net f) as [[[|] [|]]|]; try done.
  all: destruct (fe_errno f) as [[| | | | | |n]|]; by destruct (fe_deadline f).
Qed.

End ErrorsProps.
